(** * The runtime-interface layer of the LLVM D compiler

    A shallow embedding of [gen/runtime.cpp] (the registry of runtime
    support routines) and of [gen/typinf.c] (the TypeInfo canonicalizer),
    followed by the properties of both that the specification states.

    Conventions of the embedding.
    - Pointers into an [llvm::Module] are positions in its function list or
      in its global-variable list; both lists only ever grow at the end, so
      a position keeps denoting the same declaration.
    - Pointers to [TypeInfoDeclaration] objects are positions in a heap of
      declarations that [new] extends at the end.
    - A front-end [Type] is a structural term; the field [Type::vtinfo] of
      the merged types is a finite table from terms to declarations.
    - [error(..); fatal();] and a failing [assert] end the compilation; the
      outcome records how, together with the state reached at that point.
      Assertions are those of a build that has them enabled.
    - The tracing through [Logger] is not part of the model. *)

From stdpp Require Import base strings list gmap.

Set Warnings "-register-all".
Open Scope string_scope.

(** ** The part of the LLVM API that the two files use *)

(** The types are compared by structure, as LLVM makes them unique, but for
    the opaque types: [llvm::OpaqueType::get()] makes a new type at each
    call, equal to no type made before. The model numbers the opaque types in
    the order of their making. *)
Inductive LLType :=
| VoidTy | Int1Ty | Int8Ty | Int16Ty | Int32Ty | Int64Ty
| FloatTy | DoubleTy | X86_FP80Ty
| OpaqueTy (id : N)
| PointerTy (elem : LLType)
| StructTy (elems : list LLType)
| FunctionTy (ret : LLType) (params : list LLType) (isVarArg : bool).

Fixpoint LLType_eq_dec (a b : LLType) {struct a} : {a = b} + {a <> b}.
Proof.
  decide equality; try apply bool_dec; try apply N.eq_dec;
    apply (List.list_eq_dec LLType_eq_dec).
Defined.

#[global] Instance LLType_EqDecision : EqDecision LLType := LLType_eq_dec.

(** The attributes of [llvm::Attribute] that [runtime.cpp] names. *)
Inductive Attributes := NoAlias | NoUnwind | ReadOnly | ReadNone | NoCapture.

#[global] Instance Attributes_EqDecision : EqDecision Attributes.
Proof. solve_decision. Defined.

Definition Attributes_to_nat (a : Attributes) : nat :=
  match a with
  | NoAlias => 0 | NoUnwind => 1 | ReadOnly => 2 | ReadNone => 3 | NoCapture => 4
  end.

Definition Attributes_of_nat (n : nat) : Attributes :=
  match n with
  | 0 => NoAlias | 1 => NoUnwind | 2 => ReadOnly | 3 => ReadNone | _ => NoCapture
  end.

#[global] Instance Attributes_Countable : Countable Attributes.
Proof. apply (inj_countable' Attributes_to_nat Attributes_of_nat). by intros []. Defined.

(** An [AttrListPtr] gives a set of attributes to each index: index 0 is
    the return value, index [i] the [i]-th parameter and [~0U] the function
    itself. *)
Abbreviation AttrListPtr := (gmap N (gset Attributes)).

Definition NoAttrs : AttrListPtr := ∅.

(** [~0U] for a 32-bit [unsigned]. *)
Definition FunctionIndex : N := 4294967295.

Definition getAttributes_at (al : AttrListPtr) (idx : N) : gset Attributes :=
  default ∅ (al !! idx).

Definition addAttr (al : AttrListPtr) (idx : N) (attrs : Attributes) : AttrListPtr :=
  <[idx := getAttributes_at al idx ∪ {[attrs]}]> al.

Definition paramHasAttr (al : AttrListPtr) (idx : N) (attr : Attributes) : bool :=
  bool_decide (attr ∈ getAttributes_at al idx).

Inductive LinkageTypes :=
| ExternalLinkage | LinkOnceLinkage | WeakLinkage | AppendingLinkage
| InternalLinkage | PrivateLinkage | ExternalWeakLinkage | CommonLinkage.

Record Function := mkFunction {
  fn_name : string;
  fn_type : LLType;             (* getFunctionType() *)
  fn_linkage : LinkageTypes;
  fn_attrs : AttrListPtr        (* getAttributes() *)
}.

Record GlobalVariable := mkGlobalVariable {
  gv_name : string;
  gv_elemtype : LLType;         (* getType()->getElementType() *)
  gv_isConstant : bool;
  gv_linkage : LinkageTypes;
  gv_hasInitializer : bool
}.

(** [llvm::Module]: its identifier, its functions and its global variables.
    The symbol table of a module holds the functions and the variables
    alike, each under a name of its own: [getFunction] gives the function of
    a name and [getNamedGlobal] the variable of a name, and in a module of
    LLVM a name is that of one of the two at most. *)
Record LModule := mkLModule {
  ModuleID : string;
  FunctionList : list Function;
  GlobalList : list GlobalVariable
}.

Definition new_Module (id : string) : LModule := mkLModule id [] [].

Definition getFunction (m : LModule) (name : string) : option (nat * Function) :=
  list_find (λ f, fn_name f = name) (FunctionList m).

Definition getNamedGlobal (m : LModule) (name : string) : option (nat * GlobalVariable) :=
  list_find (λ g, gv_name g = name) (GlobalList m).

(** [Function::Create(fty, linkage, name, M)]: the new function goes to the
    end of the list, with no attributes. The two files create a function
    only under a name that the module has no value of: those of the runtime
    module are pairwise distinct, and [getOrInsertFunction] creates after a
    lookup that found nothing. *)
Definition Function_Create (fty : LLType) (linkage : LinkageTypes) (name : string)
    (m : LModule) : nat * LModule :=
  (length (FunctionList m),
   mkLModule (ModuleID m)
     (FunctionList m ++ [mkFunction name fty linkage NoAttrs]) (GlobalList m)).

(** [fn->setAttributes(al)] for the function at position [fn] of [m]. *)
Definition setAttributes (fn : nat) (al : AttrListPtr) (m : LModule) : LModule :=
  mkLModule (ModuleID m)
    (alter (λ f, mkFunction (fn_name f) (fn_type f) (fn_linkage f) al) fn (FunctionList m))
    (GlobalList m).

(** The constants that [Module::getOrInsertFunction] returns: a function or
    a global variable of the module, or a cast of one of them to a type
    ([ConstantExpr::getBitCast]). *)
Inductive Constant :=
| ConstFunction (fn : nat)
| ConstVariable (gv : nat)
| ConstBitCast (c : Constant) (ty : LLType).

(** [GlobalValue::hasLocalLinkage] *)
Definition hasLocalLinkage (l : LinkageTypes) : bool :=
  match l with
  | InternalLinkage | PrivateLinkage => true
  | _ => false
  end.

(** [Module::getNamedValue]: the value that the symbol table has under a
    name, with its type (a pointer to the function type or to the type of the
    variable) and its linkage. *)
Definition getNamedValue (m : LModule) (name : string)
    : option (Constant * LLType * LinkageTypes) :=
  match getFunction m name, getNamedGlobal m name with
  | Some (fn, f), _ => Some (ConstFunction fn, PointerTy (fn_type f), fn_linkage f)
  | None, Some (gv, g) => Some (ConstVariable gv, PointerTy (gv_elemtype g), gv_linkage g)
  | None, None => None
  end.

(** The names that the symbol table of a module holds. *)
Definition symbols (m : LModule) : list string :=
  ((fn_name <$> FunctionList m) ++ (gv_name <$> GlobalList m))%list.

(** [v->setName(name)] for a value of the module. *)
Definition setName (v : Constant) (name : string) (m : LModule) : LModule :=
  match v with
  | ConstFunction fn =>
      mkLModule (ModuleID m)
        (alter (λ f, mkFunction name (fn_type f) (fn_linkage f) (fn_attrs f)) fn
               (FunctionList m))
        (GlobalList m)
  | ConstVariable gv =>
      mkLModule (ModuleID m) (FunctionList m)
        (alter (λ g, mkGlobalVariable name (gv_elemtype g) (gv_isConstant g)
                                      (gv_linkage g) (gv_hasInitializer g)) gv
               (GlobalList m))
  | ConstBitCast _ _ => m
  end.

(** [Module::getOrInsertFunction(name, fty)]. If the symbol table has no
    value of the name, a function of external linkage is created at the end
    of the list. A value of local linkage gives way: its name is cleared,
    the call is made again, which now finds nothing and creates the function,
    and the value is named [name] again, a name that is now taken, so that
    the symbol table gives the value another one. A value of another linkage
    is returned, under a cast unless its type is the pointer to [fty].

    The name that the symbol table gives a value whose name is taken is the
    name followed by the next number of a counter of the table for which the
    result is free; the counter is not modelled, and the choice is the
    parameter [uniqueName], applied to the names that the table holds and to
    the name asked for. *)
Definition getOrInsertFunction (uniqueName : list string → string → string)
    (name : string) (fty : LLType) (m : LModule) : Constant * LModule :=
  match getNamedValue m name with
  | None =>
      let '(fn, m') := Function_Create fty ExternalLinkage name m in
      (ConstFunction fn, m')
  | Some (v, vty, linkage) =>
      if hasLocalLinkage linkage then
        let '(fn, m') := Function_Create fty ExternalLinkage name m in
        (ConstFunction fn, setName v (uniqueName (symbols m') name) m')
      else if decide (vty = PointerTy fty) then (v, m)
      else (ConstBitCast v (PointerTy fty), m)
  end.

(** [new llvm::GlobalVariable] in the module [m], without initializer: the
    variable goes to the end of the list, under the name given if the symbol
    table has no value of it and else under the one that the table gives. *)
Definition new_GlobalVariable (uniqueName : list string → string → string)
    (ty : LLType) (isConstant : bool) (linkage : LinkageTypes)
    (name : string) (m : LModule) : nat * LModule :=
  let name' :=
    if getNamedValue m name is None then name else uniqueName (symbols m) name in
  (length (GlobalList m),
   mkLModule (ModuleID m) (FunctionList m)
     (GlobalList m ++ [mkGlobalVariable name' ty isConstant linkage false])).

(** ** The front-end types (declared in [mtype.h], outside these files) *)

(** Modelled from the spec: the kinds of basic type; [mtype.h] is missing. *)
Inductive BasicTY :=
| Bvoid | Bint8 | Buns8 | Bint16 | Buns16 | Bint32 | Buns32 | Bint64 | Buns64
| Bfloat32 | Bfloat64 | Bfloat80 | Bimaginary32 | Bimaginary64 | Bimaginary80
| Bcomplex32 | Bcomplex64 | Bcomplex80 | Bbit | Bbool | Bchar | Bwchar | Bdchar.

(** Modelled from the spec: the enumeration [TY] of type kinds, the index
    type of the table [internalTI]; [mtype.h] is missing. *)
Inductive TY :=
| Tarray | Tsarray | Taarray | Tpointer | Tfunction | Tclass | Tstruct
| Tenum | Ttypedef | Tdelegate | Ttuple | Tbasic (b : BasicTY).

#[global] Instance BasicTY_EqDecision : EqDecision BasicTY.
Proof. solve_decision. Defined.

#[global] Instance TY_EqDecision : EqDecision TY.
Proof. solve_decision. Defined.

Definition all_BasicTY : list BasicTY :=
  [Bvoid; Bint8; Buns8; Bint16; Buns16; Bint32; Buns32; Bint64; Buns64;
   Bfloat32; Bfloat64; Bfloat80; Bimaginary32; Bimaginary64; Bimaginary80;
   Bcomplex32; Bcomplex64; Bcomplex80; Bbit; Bbool; Bchar; Bwchar; Bdchar].

Definition BasicTY_to_nat (b : BasicTY) : nat :=
  match b with
  | Bvoid => 0 | Bint8 => 1 | Buns8 => 2 | Bint16 => 3 | Buns16 => 4 | Bint32 => 5
  | Buns32 => 6 | Bint64 => 7 | Buns64 => 8 | Bfloat32 => 9 | Bfloat64 => 10
  | Bfloat80 => 11 | Bimaginary32 => 12 | Bimaginary64 => 13 | Bimaginary80 => 14
  | Bcomplex32 => 15 | Bcomplex64 => 16 | Bcomplex80 => 17 | Bbit => 18
  | Bbool => 19 | Bchar => 20 | Bwchar => 21 | Bdchar => 22
  end.

Definition TY_to_nat (k : TY) : nat :=
  match k with
  | Tarray => 0 | Tsarray => 1 | Taarray => 2 | Tpointer => 3 | Tfunction => 4
  | Tclass => 5 | Tstruct => 6 | Tenum => 7 | Ttypedef => 8 | Tdelegate => 9
  | Ttuple => 10 | Tbasic b => 11 + BasicTY_to_nat b
  end.

Definition TY_of_nat (n : nat) : TY :=
  match n with
  | 0 => Tarray | 1 => Tsarray | 2 => Taarray | 3 => Tpointer | 4 => Tfunction
  | 5 => Tclass | 6 => Tstruct | 7 => Tenum | 8 => Ttypedef | 9 => Tdelegate
  | 10 => Ttuple | _ => Tbasic (nth (n - 11) all_BasicTY Bvoid)
  end.

#[global] Instance TY_Countable : Countable TY.
Proof. apply (inj_countable' TY_to_nat TY_of_nat). by intros [| | | | | | | | | | |[]]. Defined.

Record ClassDeclaration := mkClassDeclaration {
  cd_ident : string;
  isInterfaceDeclaration : bool
}.

#[global] Instance ClassDeclaration_EqDecision : EqDecision ClassDeclaration.
Proof. solve_decision. Defined.

(** Modelled from the spec: the type graph of the front end, one constructor
    for each of its classes of types; [mtype.h] is missing. Merged types are
    identified by their structure. *)
Inductive DType :=
| TypeBasic (b : BasicTY)
| TypePointer (next : DType)
| TypeDArray (next : DType)
| TypeSArray (next : DType) (dim : Z)
| TypeAArray (next : DType) (index : DType)
| TypeStruct (sym : string)
| TypeClass (sym : ClassDeclaration)
| TypeEnum (sym : string) (memtype : DType)
| TypeTypedef (sym : string) (basetype : DType)
| TypeFunction (parameters : list DType) (next : DType) (varargs : bool)
| TypeDelegate (next : DType)
| TypeTuple (arguments : list DType).

Fixpoint DType_eq_dec (a b : DType) {struct a} : {a = b} + {a <> b}.
Proof.
  decide equality;
    try apply bool_dec; try apply Z.eq_dec; try apply String.string_dec;
    try apply BasicTY_EqDecision; try apply ClassDeclaration_EqDecision;
    apply (List.list_eq_dec DType_eq_dec).
Defined.

#[global] Instance DType_EqDecision : EqDecision DType := DType_eq_dec.

Definition ty (t : DType) : TY :=
  match t with
  | TypeBasic b => Tbasic b
  | TypePointer _ => Tpointer
  | TypeDArray _ => Tarray
  | TypeSArray _ _ => Tsarray
  | TypeAArray _ _ => Taarray
  | TypeStruct _ => Tstruct
  | TypeClass _ => Tclass
  | TypeEnum _ _ => Tenum
  | TypeTypedef _ _ => Ttypedef
  | TypeFunction _ _ _ => Tfunction
  | TypeDelegate _ => Tdelegate
  | TypeTuple _ => Ttuple
  end.

(** The field [Type::next]; null where the class of types has none. *)
Definition next_of (t : DType) : option DType :=
  match t with
  | TypePointer n | TypeDArray n | TypeSArray n _ | TypeAArray n _
  | TypeFunction _ n _ | TypeDelegate n => Some n
  | _ => None
  end.

(** Modelled from the spec: [Type::toBasetype] reduces a type to its
    underlying representation, a typedef to the base of its base type and an
    enum to the base of its member type; [mtype.c] is missing. *)
Fixpoint toBasetype (t : DType) : DType :=
  match t with
  | TypeTypedef _ basetype => toBasetype basetype
  | TypeEnum _ memtype => toBasetype memtype
  | _ => t
  end.

(** Modelled from the spec: [Type::arrayOf], the dynamic array of [t]. *)
Definition arrayOf (t : DType) : DType := TypeDArray t.

(** Modelled from the spec: [Type::isTypeBasic], non-null on basic types. *)
Definition isTypeBasic (t : DType) : bool :=
  match t with TypeBasic _ => true | _ => false end.

(** ** TypeInfo declarations, scopes and the state of a compilation *)

(** The classes of [TypeInfoDeclaration]. The type of a declaration, the
    field [type] that [getTypeInfo] copies into its result, is the TypeInfo
    class that the constructor of its class selects. *)
Inductive TypeInfoClass :=
| TypeInfoDeclaration_
| TypeInfoTypedefDeclaration
| TypeInfoPointerDeclaration
| TypeInfoArrayDeclaration
| TypeInfoStaticArrayDeclaration
| TypeInfoAssociativeArrayDeclaration
| TypeInfoStructDeclaration
| TypeInfoClassDeclaration
| TypeInfoInterfaceDeclaration
| TypeInfoEnumDeclaration
| TypeInfoFunctionDeclaration
| TypeInfoDelegateDeclaration
| TypeInfoTupleDeclaration.

#[global] Instance TypeInfoClass_EqDecision : EqDecision TypeInfoClass.
Proof. solve_decision. Defined.

Record TypeInfoDeclaration := mkTypeInfoDeclaration {
  tid_class : TypeInfoClass;
  tinfo : DType;
  internal : bool;
  llvmTouched : bool;
  llvmValue : option nat          (* a global variable of the target module *)
}.

(** [new VarExp(0, tid)] with its field [type] set to [tid->type]. *)
Record Expression := VarExp {
  var : nat;
  e_type : TypeInfoClass
}.

#[global] Instance Expression_EqDecision : EqDecision Expression.
Proof. solve_decision. Defined.

(** A front-end module is named by its identifier; of a module the code
    reads [importedFrom], and of a scope [module]. *)
Record DModule := mkDModule {
  md_ident : string;
  importedFrom : string
}.

Record Scope := mkScope {
  sc_module : DModule
}.

Record State := mkState {
  noruntime : bool;                       (* the option -noruntime *)
  M : option LModule;                     (* static llvm::Module* M *)
  target : LModule;                       (* the module given as target, gIR->module *)
  vtinfo : list (DType * nat);            (* Type::vtinfo of the merged types *)
  internalTI : gmap TY nat;               (* static internalTI[TMAX] *)
  heap : list TypeInfoDeclaration;        (* the TypeInfoDeclaration objects *)
  members : gmap string (list nat);       (* Module::members, by module *)
  opaques : N                             (* the opaque types made so far *)
}.

Definition set_M (m : option LModule) (s : State) : State :=
  mkState (noruntime s) m (target s) (vtinfo s) (internalTI s)
          (heap s) (members s) (opaques s).

Definition set_target (t : LModule) (s : State) : State :=
  mkState (noruntime s) (M s) t (vtinfo s) (internalTI s)
          (heap s) (members s) (opaques s).

Definition set_vtinfo (v : list (DType * nat)) (s : State) : State :=
  mkState (noruntime s) (M s) (target s) v (internalTI s)
          (heap s) (members s) (opaques s).

Definition set_internalTI (i : gmap TY nat) (s : State) : State :=
  mkState (noruntime s) (M s) (target s) (vtinfo s) i
          (heap s) (members s) (opaques s).

Definition set_heap (h : list TypeInfoDeclaration) (s : State) : State :=
  mkState (noruntime s) (M s) (target s) (vtinfo s) (internalTI s)
          h (members s) (opaques s).

Definition set_members (m : gmap string (list nat)) (s : State) : State :=
  mkState (noruntime s) (M s) (target s) (vtinfo s) (internalTI s)
          (heap s) m (opaques s).

Definition set_opaques (n : N) (s : State) : State :=
  mkState (noruntime s) (M s) (target s) (vtinfo s) (internalTI s)
          (heap s) (members s) n.

(** The state in which a compilation starts, for a given setting of the
    option and a given target module; the two files have made no opaque
    type yet. *)
Definition initial_state (nr : bool) (tgt : LModule) : State :=
  mkState nr None tgt [] ∅ [] ∅ 0.

(** How a compilation ends before its time. *)
Inductive Termination :=
| fatal (diagnostic : string)             (* error(diagnostic); fatal(); *)
| assertion_failure (what : string)       (* assert of a false condition *)
| null_dereference.                       (* use of a null or dangling pointer *)

#[global] Instance Termination_EqDecision : EqDecision Termination.
Proof. solve_decision. Defined.

Inductive Outcome (A : Type) :=
| Ret (a : A) (s : State)
| Abort (t : Termination) (s : State).

Arguments Ret {A} a s.
Arguments Abort {A} t s.

Definition Comp (A : Type) : Type := State → Outcome A.

#[global] Instance Comp_ret : MRet Comp := λ A a s, Ret a s.

#[global] Instance Comp_bind : MBind Comp := λ A B f c s,
  match c s with
  | Ret a s' => f a s'
  | Abort t s' => Abort t s'
  end.

Definition gets {A} (f : State → A) : Comp A := λ s, Ret (f s) s.
Definition modify (f : State → State) : Comp unit := λ s, Ret tt (f s).
Definition abort {A} (t : Termination) : Comp A := λ s, Abort t s.

(** [assert(c)], with the text of the condition. *)
Definition assert (c : bool) (what : string) : Comp unit :=
  if c then mret tt else abort (assertion_failure what).

(** Dereference of a pointer that may be null. *)
Definition deref {A} (p : option A) : Comp A :=
  match p with Some a => mret a | None => abort null_dereference end.

Definition returned {A} (o : Outcome A) : bool :=
  match o with Ret _ _ => true | Abort _ _ => false end.

Definition final_state {A} (o : Outcome A) : State :=
  match o with Ret _ s => s | Abort _ s => s end.

(** [llvm::OpaqueType::get()]: a new opaque type, the next of the count. *)
Definition OpaqueType_get : Comp LLType :=
  λ s, Ret (OpaqueTy (opaques s)) (set_opaques (N.succ (opaques s)) s).

(** ** [gen/runtime.cpp] *)

Inductive ARCH :=
| ARCHinvalid | ARCHx86 | ARCHx86_64 | ARCHppc | ARCHppc_64 | ARCHarm | ARCHthumb.

#[global] Instance ARCH_EqDecision : EqDecision ARCH.
Proof. solve_decision. Defined.

(** What [runtime.cpp] takes from the code generator: the processor of
    [global.params], the LLVM types that [DtoSize_t], [DtoMutexType] and
    [DtoType] give for [size_t], for the mutex and for the classes Object,
    ClassInfo and TypeInfo, and [getPtrToType]; and what it leaves to LLVM:
    the name that the symbol table of a module gives a value whose name is
    taken (see [getOrInsertFunction]). *)
Record Backend := mkBackend {
  cpu : ARCH;
  DtoSize_t : LLType;
  DtoMutexType : LLType;
  DtoType_object : LLType;
  DtoType_classinfo : LLType;
  DtoType_typeinfo : LLType;
  getPtrToType : LLType → LLType;
  uniqueName : list string → string → string
}.

(** The attribute lists built at the head of [LLVM_D_BuildRuntimeModule]. *)
Definition Attr_NoAlias := addAttr NoAttrs 0 NoAlias.
Definition Attr_NoUnwind := addAttr NoAttrs FunctionIndex NoUnwind.
Definition Attr_ReadOnly := addAttr NoAttrs FunctionIndex ReadOnly.
Definition Attr_ReadOnly_NoUnwind := addAttr Attr_ReadOnly FunctionIndex NoUnwind.
Definition Attr_ReadOnly_1_NoCapture := addAttr Attr_ReadOnly 1 NoCapture.
Definition Attr_ReadOnly_1_3_NoCapture := addAttr Attr_ReadOnly_1_NoCapture 3 NoCapture.
Definition Attr_ReadOnly_1_4_NoCapture := addAttr Attr_ReadOnly_1_NoCapture 4 NoCapture.
Definition Attr_ReadOnly_NoUnwind_1_NoCapture :=
  addAttr Attr_ReadOnly_1_NoCapture FunctionIndex NoUnwind.
Definition Attr_ReadNone := addAttr NoAttrs FunctionIndex ReadNone.
Definition Attr_1_NoCapture := addAttr NoAttrs 1 NoCapture.
Definition Attr_NoAlias_1_NoCapture := addAttr Attr_1_NoCapture 0 NoAlias.
Definition Attr_NoAlias_3_NoCapture := addAttr Attr_NoAlias 3 NoCapture.
Definition Attr_1_2_NoCapture := addAttr Attr_1_NoCapture 2 NoCapture.
Definition Attr_1_3_NoCapture := addAttr Attr_1_NoCapture 3 NoCapture.
Definition Attr_1_4_NoCapture := addAttr Attr_1_NoCapture 4 NoCapture.

(** One declaration of the runtime module: the type, the name and the
    attribute list given to [setAttributes], if the source calls it. *)
Record Declaration := Decl {
  d_type : LLType;
  d_name : string;
  d_attrs : option AttrListPtr
}.

(** [llvm::Function::Create(fty, ExternalLinkage, fname, M)], followed by
    [->setAttributes(al)] where the source has it. *)
Definition declare (d : Declaration) (m : LModule) : LModule :=
  let '(fn, m') := Function_Create (d_type d) ExternalLinkage (d_name d) m in
  match d_attrs d with
  | Some al => setAttributes fn al m'
  | None => m'
  end.

Section Runtime.
Context (be : Backend).

Definition rt_ptr (t : LLType) : LLType := getPtrToType be t.

Definition rt_array (elemty : LLType) : LLType :=
  StructTy [DtoSize_t be; rt_ptr elemty].

Definition rt_dg1 : LLType :=
  let types := [rt_ptr Int8Ty; rt_ptr Int8Ty] in
  let fty := FunctionTy Int32Ty types false in
  StructTy [rt_ptr Int8Ty; rt_ptr fty].

Definition rt_dg2 : LLType :=
  let types := [rt_ptr Int8Ty; rt_ptr Int8Ty; rt_ptr Int8Ty] in
  let fty := FunctionTy Int32Ty types false in
  StructTy [rt_ptr Int8Ty; rt_ptr fty].

Definition realTy : LLType :=
  if bool_decide (cpu be = ARCHx86) || bool_decide (cpu be = ARCHx86_64)
  then X86_FP80Ty else DoubleTy.

(** The macro [ARRAY_INIT(TY,suffix)]. *)
Definition ARRAY_INIT (TY : LLType) (suffix : string) : list Declaration :=
  let fname := "_d_array_init_" +:+ suffix in
  let types := [rt_ptr TY; DtoSize_t be; TY] in
  let fty := FunctionTy VoidTy types false in
  [Decl fty fname (Some Attr_1_NoCapture)].

(** The macro [STR_APPLY1]. *)
Definition STR_APPLY1 (TY : LLType) (a b : string) : list Declaration :=
  let types := [TY; rt_dg1] in
  let fty := FunctionTy Int32Ty types false in
  [Decl fty a None; Decl fty b None].

(** The macro [STR_APPLY2]. *)
Definition STR_APPLY2 (TY : LLType) (a b : string) : list Declaration :=
  let types := [TY; rt_dg2] in
  let fty := FunctionTy Int32Ty types false in
  [Decl fty a None; Decl fty b None].

(** The macro [STR_APPLY_R1]. *)
Definition STR_APPLY_R1 (TY : LLType) (a b : string) : list Declaration :=
  let types := [TY; rt_dg1] in
  let fty := FunctionTy Int32Ty types false in
  [Decl fty a None; Decl fty b None].

(** The macro [STR_APPLY_R2]. *)
Definition STR_APPLY_R2 (TY : LLType) (a b : string) : list Declaration :=
  let types := [TY; rt_dg2] in
  let fty := FunctionTy Int32Ty types false in
  [Decl fty a None; Decl fty b None].

(** The declarations that [LLVM_D_BuildRuntimeModule] makes, block by
    block and in the order of the source; [opaque] is the type that
    [llvm::OpaqueType::get()] gives to this construction. *)
Definition runtime_declarations (opaque : LLType) : list Declaration :=
  let voidTy := VoidTy in
  let byteTy := Int8Ty in
  let shortTy := Int16Ty in
  let intTy := Int32Ty in
  let longTy := Int64Ty in
  let sizeTy := DtoSize_t be in
  let floatTy := FloatTy in
  let doubleTy := DoubleTy in
  let cfloatTy := StructTy [floatTy; floatTy] in
  let cdoubleTy := StructTy [doubleTy; doubleTy] in
  let crealTy := StructTy [realTy; realTy] in
  let voidPtrTy := rt_ptr byteTy in
  let stringTy := rt_array byteTy in
  let wstringTy := rt_array shortTy in
  let dstringTy := rt_array intTy in
  let objectTy := DtoType_object be in
  let classInfoTy := DtoType_classinfo be in
  let typeInfoTy := DtoType_typeinfo be in
  let aaTy := rt_ptr opaque in
  concat [
    (let fty := FunctionTy voidTy [stringTy; intTy] false in
     [Decl fty "_d_assert" None; Decl fty "_d_array_bounds" None;
      Decl fty "_d_switch_error" None]);
    (let fty := FunctionTy voidPtrTy [stringTy; stringTy; intTy] false in
     [Decl fty "_d_assert_msg" None]);
    (let fty := FunctionTy voidPtrTy [typeInfoTy] false in
     [Decl fty "_d_allocmemoryT" (Some Attr_NoAlias)]);
    (let fty := FunctionTy voidPtrTy [typeInfoTy; sizeTy] false in
     [Decl fty "_d_newarrayT" (Some Attr_NoAlias);
      Decl fty "_d_newarrayiT" (Some Attr_NoAlias);
      Decl fty "_d_newarrayvT" (Some Attr_NoAlias)]);
    (let fty := FunctionTy voidPtrTy [typeInfoTy; sizeTy; rt_ptr sizeTy] false in
     [Decl fty "_d_newarraymT" (Some Attr_NoAlias_3_NoCapture);
      Decl fty "_d_newarraymiT" (Some Attr_NoAlias_3_NoCapture);
      Decl fty "_d_newarraymvT" (Some Attr_NoAlias_3_NoCapture)]);
    (let fty := FunctionTy voidPtrTy [typeInfoTy; sizeTy; sizeTy; voidPtrTy] false in
     [Decl fty "_d_arraysetlengthT" None; Decl fty "_d_arraysetlengthiT" None]);
    (let fty := FunctionTy voidPtrTy [classInfoTy] false in
     [Decl fty "_d_allocclass" (Some Attr_NoAlias)]);
    (let fty := FunctionTy voidTy [sizeTy; voidPtrTy] false in
     [Decl fty "_d_delarray" None]);
    (let fty := FunctionTy voidTy [voidPtrTy] false in
     [Decl fty "_d_delmemory" None; Decl fty "_d_delinterface" None;
      Decl fty "_d_callfinalizer" None]);
    (let fty := FunctionTy voidTy [objectTy] false in
     [Decl fty "_d_delclass" None]);
    ARRAY_INIT shortTy "i16";
    ARRAY_INIT intTy "i32";
    ARRAY_INIT longTy "i64";
    ARRAY_INIT floatTy "float";
    ARRAY_INIT doubleTy "double";
    ARRAY_INIT realTy "real";
    ARRAY_INIT cfloatTy "cfloat";
    ARRAY_INIT cdoubleTy "cdouble";
    ARRAY_INIT crealTy "creal";
    ARRAY_INIT voidPtrTy "pointer";
    (let fty := FunctionTy voidTy [voidPtrTy; sizeTy; voidPtrTy; sizeTy] false in
     [Decl fty "_d_array_init_mem" (Some Attr_1_3_NoCapture);
      Decl fty "_d_array_slice_copy" (Some Attr_1_3_NoCapture)]);
    STR_APPLY1 stringTy "_aApplycw1" "_aApplycd1";
    STR_APPLY1 wstringTy "_aApplywc1" "_aApplywd1";
    STR_APPLY1 dstringTy "_aApplydc1" "_aApplydw1";
    STR_APPLY2 stringTy "_aApplycw2" "_aApplycd2";
    STR_APPLY2 wstringTy "_aApplywc2" "_aApplywd2";
    STR_APPLY2 dstringTy "_aApplydc2" "_aApplydw2";
    STR_APPLY_R1 stringTy "_aApplyRcw1" "_aApplyRcd1";
    STR_APPLY_R1 wstringTy "_aApplyRwc1" "_aApplyRwd1";
    STR_APPLY_R1 dstringTy "_aApplyRdc1" "_aApplyRdw1";
    STR_APPLY_R2 stringTy "_aApplyRcw2" "_aApplyRcd2";
    STR_APPLY_R2 wstringTy "_aApplyRwc2" "_aApplyRwd2";
    STR_APPLY_R2 dstringTy "_aApplyRdc2" "_aApplyRdw2";
    (let fty := FunctionTy sizeTy [sizeTy; sizeTy; sizeTy] false in
     [Decl fty "_d_array_cast_len" (Some Attr_ReadNone)]);
    (let fty := FunctionTy objectTy [voidPtrTy] false in
     [Decl fty "_d_toObject" (Some Attr_ReadOnly_NoUnwind)]);
    (let fty := FunctionTy objectTy [voidPtrTy; classInfoTy] false in
     [Decl fty "_d_interface_cast" (Some Attr_ReadOnly_NoUnwind)]);
    (let fty := FunctionTy objectTy [objectTy; classInfoTy] false in
     [Decl fty "_d_dynamic_cast" (Some Attr_ReadOnly_NoUnwind)]);
    (let fty := FunctionTy stringTy [stringTy] false in
     [Decl fty "_adReverseChar" None; Decl fty "_adSortChar" None]);
    (let fty := FunctionTy wstringTy [wstringTy] false in
     [Decl fty "_adReverseWchar" None; Decl fty "_adSortWchar" None]);
    (let fty := FunctionTy (rt_array byteTy) [rt_array byteTy; sizeTy] false in
     [Decl fty "_adReverse" (Some Attr_NoUnwind)]);
    (let fty := FunctionTy (rt_array byteTy) [typeInfoTy; rt_array byteTy] false in
     [Decl fty "_adDupT" None]);
    (let fty := FunctionTy intTy [rt_array byteTy; rt_array byteTy; typeInfoTy] false in
     [Decl fty "_adEq" (Some Attr_ReadOnly); Decl fty "_adCmp" (Some Attr_ReadOnly)]);
    (let fty := FunctionTy intTy [rt_array byteTy; rt_array byteTy] false in
     [Decl fty "_adCmpChar" (Some Attr_ReadOnly_NoUnwind)]);
    (let fty := FunctionTy (rt_array byteTy) [rt_array byteTy; typeInfoTy] false in
     [Decl fty "_adSort" None]);
    (let fty := FunctionTy sizeTy [aaTy] false in
     [Decl fty "_aaLen" (Some Attr_ReadOnly_NoUnwind_1_NoCapture)]);
    (let fty := FunctionTy voidPtrTy [aaTy; typeInfoTy; sizeTy; voidPtrTy] false in
     [Decl fty "_aaGet" (Some Attr_1_4_NoCapture)]);
    (let fty := FunctionTy voidPtrTy [aaTy; typeInfoTy; voidPtrTy] false in
     [Decl fty "_aaIn" (Some Attr_ReadOnly_1_3_NoCapture)]);
    (let fty := FunctionTy voidTy [aaTy; typeInfoTy; voidPtrTy] false in
     [Decl fty "_aaDel" (Some Attr_1_3_NoCapture)]);
    (let fty := FunctionTy (rt_array byteTy) [aaTy; sizeTy; sizeTy] false in
     [Decl fty "_aaValues" (Some Attr_NoAlias_1_NoCapture)]);
    (let fty := FunctionTy voidPtrTy [aaTy; typeInfoTy] false in
     [Decl fty "_aaRehash" None]);
    (let fty := FunctionTy (rt_array byteTy) [aaTy; sizeTy] false in
     [Decl fty "_aaKeys" (Some Attr_NoAlias_1_NoCapture)]);
    (let fty := FunctionTy intTy [aaTy; sizeTy; rt_dg1] false in
     [Decl fty "_aaApply" (Some Attr_1_NoCapture)]);
    (let fty := FunctionTy intTy [aaTy; sizeTy; rt_dg2] false in
     [Decl fty "_aaApply2" (Some Attr_1_NoCapture)]);
    (let fty := FunctionTy intTy [aaTy; aaTy; typeInfoTy] false in
     [Decl fty "_aaEq" (Some Attr_1_2_NoCapture)]);
    (let fty := FunctionTy voidTy [] false in
     [Decl fty "_moduleCtor" None; Decl fty "_moduleDtor" None]);
    (let fty := FunctionTy voidTy [objectTy] false in
     [Decl fty "_d_throw_exception" None]);
    (let fty := FunctionTy intTy [rt_array stringTy; stringTy] false in
     [Decl fty "_d_switch_string" (Some Attr_ReadOnly)]);
    (let fty := FunctionTy intTy [rt_array wstringTy; wstringTy] false in
     [Decl fty "_d_switch_ustring" (Some Attr_ReadOnly)]);
    (let fty := FunctionTy intTy [rt_array dstringTy; dstringTy] false in
     [Decl fty "_d_switch_dstring" (Some Attr_ReadOnly)]);
    (let fty := FunctionTy voidTy [rt_ptr (DtoMutexType be)] false in
     [Decl fty "_d_criticalenter" None; Decl fty "_d_criticalexit" None]);
    (let fty := FunctionTy voidTy [objectTy] false in
     [Decl fty "_d_monitorenter" (Some Attr_1_NoCapture);
      Decl fty "_d_monitorexit" (Some Attr_1_NoCapture)]);
    (let fty := FunctionTy intTy [intTy; intTy; longTy; voidPtrTy; voidPtrTy] false in
     [Decl fty "_d_eh_personality" None]);
    (let fty := FunctionTy voidTy [voidPtrTy] false in
     [Decl fty "_d_eh_resume_unwind" None]);
    (let fty := FunctionTy voidTy [objectTy] false in
     [Decl fty "_d_invariant" None])
  ].

(** The module that [LLVM_D_BuildRuntimeModule] leaves in [M], for the
    opaque type given to the construction. *)
Definition runtime_module (opaque : LLType) : LModule :=
  foldl (λ m d, declare d m) (new_Module "ldc internal runtime")
        (runtime_declarations opaque).

Definition LLVM_D_BuildRuntimeModule : Comp unit :=
  opaque ← OpaqueType_get;
  modify (set_M (Some (runtime_module opaque))).

Definition LLVM_D_InitRuntime : Comp bool :=
  m ← gets M;
  (if m is None then LLVM_D_BuildRuntimeModule else mret tt);;
  mret true.

Definition LLVM_D_FreeRuntime : Comp unit :=
  m ← gets M;
  if m is Some _ then modify (set_M None) else mret tt.

(** [static bool runtime_failed = false;], which no code assigns. *)
Definition runtime_failed : bool := false.

Definition noruntime_diagnostic : string :=
  "No implicit runtime calls allowed with -noruntime option enabled".

(** [if (noruntime) { error(..); fatal(); }] *)
Definition check_noruntime : Comp unit :=
  gets noruntime ≫= λ nr : bool,
  if nr then abort (fatal noruntime_diagnostic) else mret tt.

(** [if (!M) { assert(!runtime_failed); LLVM_D_InitRuntime(); }] *)
Definition ensure_runtime : Comp unit :=
  m ← gets M;
  if m is None then
    assert (negb runtime_failed) "!runtime_failed";;
    LLVM_D_InitRuntime;;
    mret tt
  else mret tt.

Definition LLVM_D_GetRuntimeFunction (name : string) : Comp nat :=
  check_noruntime;;
  ensure_runtime;;
  tgt ← gets target;
  match getFunction tgt name with
  | Some (fn, _) => mret fn
  | None =>
      rm ← gets M ≫= deref;
      match getFunction rm name with
      | None =>
          (* printf of the message, then assert(0) *)
          abort (assertion_failure ("Runtime function '" +:+ name +:+ "' was not found"))
      | Some (_, fn) =>
          let fnty := fn_type fn in
          let '(c, tgt') := getOrInsertFunction (uniqueName be) name fnty tgt in
          modify (set_target tgt');;
          match c with
          | ConstFunction resfn =>
              modify (λ s, set_target (setAttributes resfn (fn_attrs fn) (target s)) s);;
              mret resfn
          | _ =>
              (* llvm::cast<llvm::Function> of a constant that is no function *)
              abort (assertion_failure "cast<Ty>() argument of incompatible type!")
          end
      end
  end.

Definition LLVM_D_GetRuntimeGlobal (name : string) : Comp nat :=
  tgt ← gets target;
  match getNamedGlobal tgt name with
  | Some (gv, _) => mret gv
  | None =>
      check_noruntime;;
      ensure_runtime;;
      rm ← gets M ≫= deref;
      match getNamedGlobal rm name with
      | None => abort (fatal ("Runtime global '" +:+ name +:+ "' was not found"))
      | Some (_, g) =>
          tgt ← gets target;
          let '(gv, tgt') :=
            new_GlobalVariable (uniqueName be) (gv_elemtype g) (gv_isConstant g)
                               (gv_linkage g) (gv_name g) tgt in
          modify (set_target tgt');;
          mret gv
      end
  end.

End Runtime.

(** ** [gen/typinf.c] *)

(** What [typinf.c] takes from the front end: [Type::merge], which gives the
    merged representative of a type, and the mangled name of the TypeInfo
    declaration of a type (the second argument is its flag [internal]). *)
Record Frontend := mkFrontend {
  merge : DType → DType;
  mangle : DType → bool → string
}.

(** [t->vtinfo] *)
Definition vtinfo_of (t : DType) (s : State) : option nat :=
  (λ r : nat * (DType * nat), r.2.2) <$> list_find (λ p, p.1 = t) (vtinfo s).

(** [t->vtinfo = d] *)
Definition assign_vtinfo (t : DType) (d : nat) (s : State) : State :=
  set_vtinfo ((t, d) :: vtinfo s) s.

(** [new] of a TypeInfo declaration: the object goes to the end of the heap. *)
Definition new_TypeInfoDeclaration (c : TypeInfoClass) (t : DType) (internal : bool)
    : Comp nat :=
  λ s, Ret (length (heap s))
           (set_heap (heap s ++ [mkTypeInfoDeclaration c t internal false None]) s).

Definition load (d : nat) : Comp TypeInfoDeclaration :=
  gets (λ s, heap s !! d) ≫= deref.

Definition store (d : nat) (decl : TypeInfoDeclaration) : Comp unit :=
  modify (λ s, set_heap (<[d := decl]> (heap s)) s).

(** [m->members->push(d)] *)
Definition members_push (m : string) (d : nat) : Comp unit :=
  modify (λ s, set_members (<[m := (default [] (members s !! m) ++ [d])%list]> (members s)) s).

(** The virtual function [getTypeInfoDeclaration]: the class of declaration
    that each class of types constructs; all of them with [internal] 0. *)
Definition getTypeInfoDeclaration_class (t : DType) : TypeInfoClass :=
  match t with
  | TypeTypedef _ _ => TypeInfoTypedefDeclaration
  | TypePointer _ => TypeInfoPointerDeclaration
  | TypeDArray _ => TypeInfoArrayDeclaration
  | TypeSArray _ _ => TypeInfoStaticArrayDeclaration
  | TypeAArray _ _ => TypeInfoAssociativeArrayDeclaration
  | TypeStruct _ => TypeInfoStructDeclaration
  | TypeClass sym =>
      if isInterfaceDeclaration sym then TypeInfoInterfaceDeclaration
      else TypeInfoClassDeclaration
  | TypeEnum _ _ => TypeInfoEnumDeclaration
  | TypeFunction _ _ _ => TypeInfoFunctionDeclaration
  | TypeDelegate _ => TypeInfoDelegateDeclaration
  | TypeTuple _ => TypeInfoTupleDeclaration
  | TypeBasic _ => TypeInfoDeclaration_
  end.

Definition getTypeInfoDeclaration (t : DType) : Comp nat :=
  new_TypeInfoDeclaration (getTypeInfoDeclaration_class t) t false.

(** The virtual function [builtinTypeInfo]. *)
Definition builtinTypeInfo (t : DType) : bool :=
  match t with
  | TypeBasic _ => true
  | TypeDArray next => isTypeBasic next
  | _ => false
  end.

(** [createTypeInfoArray]: [assert(0); return 0;], the result being a
    pointer to an expression. *)
Definition createTypeInfoArray (sc : option Scope) (args : list Expression) (dim : Z)
    : Comp (option Expression) :=
  assert false "0";;
  mret None.

(** The text in the assertion of the function [toDt] of each class. *)
Definition toDt_text (c : TypeInfoClass) : string :=
  match c with
  | TypeInfoDeclaration_ => "TypeInfoDeclaration"
  | TypeInfoTypedefDeclaration => "TypeInfoTypedefDeclaration"
  | TypeInfoEnumDeclaration => "TypeInfoEnumDeclaration"
  | TypeInfoPointerDeclaration => "TypeInfoPointerDeclaration"
  | TypeInfoArrayDeclaration => "TypeInfoArrayDeclaration"
  | TypeInfoStaticArrayDeclaration => "TypeInfoStaticArrayDeclaration"
  | TypeInfoAssociativeArrayDeclaration => "TypeInfoAssociativeArrayDeclaration"
  | TypeInfoFunctionDeclaration => "TypeInfoFunctionDeclaration"
  | TypeInfoDelegateDeclaration => "TypeInfoDelegateDeclaration"
  | TypeInfoStructDeclaration => "TypeInfoStructDeclaration"
  | TypeInfoClassDeclaration => "TypeInfoClassDeclaration"
  | TypeInfoInterfaceDeclaration => "TypeInfoInterfaceDeclaration"
  | TypeInfoTupleDeclaration => "TypeInfoTupleDeclaration"
  end.

(** The function [toDt] of the class [c]: an assertion of [0 && text]. *)
Definition toDt_of {dt : Type} (c : TypeInfoClass) (pdt : dt) : Comp unit :=
  assert (false && true) (toDt_text c).

(** The virtual call [d->toDt(pdt)]. *)
Definition toDt {dt : Type} (d : nat) (pdt : dt) : Comp unit :=
  decl ← load d;
  toDt_of (tid_class decl) pdt.

Section Typinf.
Context (be : Backend) (fe : Frontend).

Definition toObjFile (d : nat) : Comp unit :=
  decl ← load d;
  if llvmTouched decl then mret tt
  else
    store d (mkTypeInfoDeclaration (tid_class decl) (tinfo decl) (internal decl)
                                   true (llvmValue decl));;
    gv ← LLVM_D_GetRuntimeGlobal be (mangle fe (tinfo decl) (internal decl));
    decl ← load d;
    store d (mkTypeInfoDeclaration (tid_class decl) (tinfo decl) (internal decl)
                                   (llvmTouched decl) (Some gv));;
    (* assert(llvmValue): the pointer just stored is not null *)
    mret tt.

Definition getTypeInfo (sc : option Scope) (this : DType) : Comp Expression :=
  let t := merge fe this in
  v ← gets (vtinfo_of t);
  (if v is None then
     d ← getTypeInfoDeclaration t;
     modify (assign_vtinfo t d);;
     (* assert(t->vtinfo): the pointer just stored is not null *)
     if negb (builtinTypeInfo t) then
       match sc with
       | Some sc => members_push (importedFrom (sc_module sc)) d
       | None => toObjFile d
       end
     else mret tt
   else mret tt);;
  d ← gets (vtinfo_of t) ≫= deref;
  decl ← load d;
  mret (VarExp d (tid_class decl)).

(** The code after the label [Linternal], for the base type [t]. *)
Definition Linternal (t : DType) : Comp Expression :=
  v ← gets (λ s, internalTI s !! ty t);
  tid ← (if v is Some tid then mret tid
         else
           tid ← new_TypeInfoDeclaration TypeInfoDeclaration_ t true;
           modify (λ s, set_internalTI (<[ty t := tid]> (internalTI s)) s);;
           mret tid);
  decl ← load tid;
  mret (VarExp tid (tid_class decl)).

Definition getInternalTypeInfo (sc : option Scope) (this : DType) : Comp Expression :=
  let t := toBasetype this in
  match t with
  | TypeSArray next _ => getTypeInfo sc (arrayOf next)
  | TypeClass sym =>
      if isInterfaceDeclaration sym then getTypeInfo sc t else Linternal t
  | TypeDArray next =>
      if bool_decide (ty next ≠ Tclass) then getTypeInfo sc t else Linternal t
  | TypeFunction _ _ _ | TypeDelegate _ | TypePointer _ => Linternal t
  | _ => getTypeInfo sc t
  end.

End Typinf.

(** ** Vocabulary of the properties *)

(** The runtime module that a call finds once [M] is ensured: the one
    already in [M], or the one that [LLVM_D_BuildRuntimeModule] builds, with
    the next opaque type. *)
Definition the_runtime (be : Backend) (s : State) : LModule :=
  default (runtime_module be (OpaqueTy (opaques s))) (M s).

(** The state once the runtime module is ensured: a module that is built
    takes one opaque type. *)
Definition with_runtime (be : Backend) (s : State) : State :=
  if M s is None
  then set_M (Some (runtime_module be (OpaqueTy (opaques s))))
             (set_opaques (N.succ (opaques s)) s)
  else s.


(** The invariant of the symbol table of a module: no two functions of one
    name. *)
Definition unique_names (m : LModule) : Prop :=
  NoDup (fn_name <$> FunctionList m).

(** The declaration that [LLVM_D_GetRuntimeFunction] adds to a target for the
    function [f] of the runtime module. *)
Definition declaration_of (f : Function) : Function :=
  mkFunction (fn_name f) (fn_type f) ExternalLinkage (fn_attrs f).

(** A later state of the canonicalizer: descriptors attached to types and
    placeholders keep their identity, and a latch that is set stays set. *)
Record later_state (s1 s2 : State) : Prop := mkLater {
  later_vtinfo : ∀ t d, vtinfo_of t s1 = Some d → vtinfo_of t s2 = Some d;
  later_internalTI : ∀ k d, internalTI s1 !! k = Some d → internalTI s2 !! k = Some d;
  later_heap : ∀ d decl, heap s1 !! d = Some decl →
    ∃ decl', heap s2 !! d = Some decl' ∧ tid_class decl' = tid_class decl ∧
             tinfo decl' = tinfo decl ∧ internal decl' = internal decl ∧
             (llvmTouched decl = true →
              llvmTouched decl' = true ∧ llvmValue decl' = llvmValue decl)
}.

(** The descriptors attached to types were made with [internal] 0 and the
    placeholders of [internalTI] with [internal] 1, all of them allocated. *)
Record well_formed (s : State) : Prop := mkWf {
  wf_vtinfo : ∀ t d, vtinfo_of t s = Some d →
    ∃ decl, heap s !! d = Some decl ∧ internal decl = false;
  wf_internalTI : ∀ k d, internalTI s !! k = Some d →
    ∃ decl, heap s !! d = Some decl ∧ internal decl = true
}.

(** ** Definitions used in the statements and in the closed examples *)

(** The function that a declaration of the source leaves in the module. *)
Definition function_of (d : Declaration) : Function :=
  mkFunction (d_name d) (d_type d) ExternalLinkage (default NoAttrs (d_attrs d)).

Definition example_backend : Backend :=
  mkBackend ARCHx86 Int32Ty (StructTy [Int32Ty])
            (PointerTy (StructTy [PointerTy Int8Ty]))
            (PointerTy (StructTy [PointerTy Int8Ty; Int32Ty]))
            (PointerTy (StructTy [PointerTy Int8Ty; PointerTy Int8Ty]))
            PointerTy
            (λ taken name, name +:+ "1").

Definition example_frontend : Frontend :=
  mkFrontend (λ t, t) (λ t internal, if internal then "_D_internal" else "_D_exact").

Definition example_scope : Scope := mkScope (mkDModule "app" "main").

Definition empty_target : LModule := new_Module "target".

(** The attribute list that a runtime module records for a name. *)
Definition attributes_of (rm : LModule) (name : string) : option AttrListPtr :=
  (λ r, fn_attrs r.2) <$> getFunction rm name.

Definition target_with_assert : LModule :=
  mkLModule "target"
    [mkFunction "_d_assert" (FunctionTy VoidTy [] false) ExternalLinkage NoAttrs] [].


(** The associative-array routines are those whose name starts with [_aa]. *)
Definition is_aa_routine (f : Function) : bool := String.prefix "_aa" (fn_name f).

(** The declaration with its latch set, and with its storage resolved. *)
Definition latched (decl : TypeInfoDeclaration) : TypeInfoDeclaration :=
  mkTypeInfoDeclaration (tid_class decl) (tinfo decl) (internal decl) true
                        (llvmValue decl).

Definition resolved (decl : TypeInfoDeclaration) (gv : nat) : TypeInfoDeclaration :=
  mkTypeInfoDeclaration (tid_class decl) (tinfo decl) (internal decl) true (Some gv).

Definition fresh_declaration (c : TypeInfoClass) (t : DType) (i : bool)
    : TypeInfoDeclaration :=
  mkTypeInfoDeclaration c t i false None.

(** The state after [t->vtinfo = new ...] for a type without descriptor. *)
Definition attach (t : DType) (s : State) : State :=
  assign_vtinfo t (length (heap s))
    (set_heap (heap s ++ [fresh_declaration (getTypeInfoDeclaration_class t) t false]) s).

(** The state after [internalTI[t->ty] = new TypeInfoDeclaration(t, 1)]. *)
Definition attach_internal (t : DType) (s : State) : State :=
  set_internalTI (<[ty t := length (heap s)]> (internalTI s))
    (set_heap (heap s ++ [fresh_declaration TypeInfoDeclaration_ t true]) s).

(** The part of [getTypeInfo] that schedules or performs the emission of the
    new descriptor [d] of the merged type [t]. *)
Definition emission (be : Backend) (fe : Frontend) (sc : option Scope) (t : DType)
    (d : nat) : Comp unit :=
  if negb (builtinTypeInfo t) then
    match sc with
    | Some sc => members_push (importedFrom (sc_module sc)) d
    | None => toObjFile be fe d
    end
  else mret tt.

(** The end of [getTypeInfo]: the expression for [t->vtinfo]. *)
Definition vtinfo_expression (t : DType) : Comp Expression :=
  d ← gets (vtinfo_of t) ≫= deref;
  decl ← load d;
  mret (VarExp d (tid_class decl)).

Definition struct_S : DType := TypeStruct "S".

Definition target_with_typeinfo : LModule :=
  mkLModule "target" []
    [mkGlobalVariable "_D_exact" (StructTy [PointerTy Int8Ty]) false ExternalLinkage false].

(** A state in which the descriptor 0, of the struct [S], awaits emission. *)
Definition state_before_emission : State :=
  final_state (getTypeInfo example_backend example_frontend (Some example_scope)
                 struct_S (initial_state false target_with_typeinfo)).

Definition class_C : DType := TypeClass (mkClassDeclaration "C" false).

Definition interface_I : DType := TypeClass (mkClassDeclaration "I" true).

Definition function_int : DType := TypeFunction [] (TypeBasic Bint32) false.

Definition function_void : DType := TypeFunction [TypeBasic Bchar] (TypeBasic Bvoid) false.

(** The operations of the layer, as the rest of the compiler calls them, and
    the state that a call leaves (the state in which the compilation ends,
    for a call that ends it). *)
Inductive Operation :=
| GetRuntimeFunction (name : string)
| GetRuntimeGlobal (name : string)
| InitRuntime
| FreeRuntime
| GetTypeInfo (sc : option Scope) (t : DType)
| GetInternalTypeInfo (sc : option Scope) (t : DType)
| ToObjFile (d : nat).

Definition run (be : Backend) (fe : Frontend) (op : Operation) (s : State) : State :=
  match op with
  | GetRuntimeFunction name => final_state (LLVM_D_GetRuntimeFunction be name s)
  | GetRuntimeGlobal name => final_state (LLVM_D_GetRuntimeGlobal be name s)
  | InitRuntime => final_state (LLVM_D_InitRuntime be s)
  | FreeRuntime => final_state (LLVM_D_FreeRuntime s)
  | GetTypeInfo sc t => final_state (getTypeInfo be fe sc t s)
  | GetInternalTypeInfo sc t => final_state (getInternalTypeInfo be fe sc t s)
  | ToObjFile d => final_state (toObjFile be fe d s)
  end.

Definition run_all (be : Backend) (fe : Frontend) (ops : list Operation) (s : State)
    : State :=
  foldl (λ s op, run be fe op s) s ops.

(** The number of parameters of a function type without variable arguments. *)
Definition fixed_arity (t : LLType) : option nat :=
  match t with
  | FunctionTy _ params false => Some (length params)
  | _ => None
  end.

(** The index at which each attribute belongs, for a function of [arity]
    parameters: [NoAlias] on the return value, [NoCapture] on a parameter,
    the others on the function. *)
Definition well_placed (arity : nat) (idx : N) (a : Attributes) : bool :=
  match a with
  | NoAlias => bool_decide (idx = 0%N)
  | NoCapture => bool_decide (1 ≤ idx ≤ N.of_nat arity)%N
  | NoUnwind | ReadOnly | ReadNone => bool_decide (idx = FunctionIndex)
  end.

Definition attributes_well_placed (f : Function) : bool :=
  match fixed_arity (fn_type f) with
  | Some n =>
      forallb (λ p : N * gset Attributes, forallb (well_placed n p.1) (elements p.2))
              (map_to_list (fn_attrs f))
  | None => false
  end.

(** The type of the function of a name in a runtime module. *)
Definition signature_of (rm : LModule) (name : string) : option LLType :=
  (λ r, fn_type r.2) <$> getFunction rm name.

Definition runtime_with_global : LModule :=
  mkLModule "runtime" []
    [mkGlobalVariable "_D_exact" (StructTy [PointerTy Int8Ty]) true WeakLinkage true].

(** External linkage and a type without variable arguments. *)
Definition plain_declaration (f : Function) : bool :=
  match fn_linkage f, fixed_arity (fn_type f) with
  | ExternalLinkage, Some _ => true
  | _, _ => false
  end.

(** The check of the places of the attributes of one function. *)
Definition placement_check (f : Function) : bool :=
  attributes_well_placed f &&
  (negb (paramHasAttr (fn_attrs f) FunctionIndex ReadOnly) ||
   negb (paramHasAttr (fn_attrs f) FunctionIndex ReadNone)).

(** The descriptor [d] is at position [i] of the members of the module [m]. *)
Definition registered (s : State) (d : nat) (m : string) (i : nat) : Prop :=
  ∃ l, members s !! m = Some l ∧ l !! i = Some d.

(** The tables of the canonicalizer agree with the declarations: a
    descriptor attached to a type describes that type, with its class of
    declaration and [internal] 0; the placeholder of a slot of [internalTI] is
    a plain declaration with [internal] 1 for a type of the kind of the slot;
    the members of the modules hold attached descriptors of types without
    TypeInfo in the runtime library, each of them once. *)
Record coherent (s : State) : Prop := mkCoherent {
  co_vtinfo : ∀ t d, vtinfo_of t s = Some d →
    ∃ decl, heap s !! d = Some decl ∧ tinfo decl = t ∧ internal decl = false ∧
            tid_class decl = getTypeInfoDeclaration_class t;
  co_internalTI : ∀ k d, internalTI s !! k = Some d →
    ∃ decl, heap s !! d = Some decl ∧ internal decl = true ∧
            tid_class decl = TypeInfoDeclaration_ ∧ ty (tinfo decl) = k;
  co_members : ∀ d m i, registered s d m i →
    ∃ decl, heap s !! d = Some decl ∧ vtinfo_of (tinfo decl) s = Some d ∧
            builtinTypeInfo (tinfo decl) = false;
  co_unique : ∀ d m1 i1 m2 i2,
    registered s d m1 i1 → registered s d m2 i2 → m1 = m2 ∧ i1 = i2
}.

(** The types that [getInternalTypeInfo] sends to the label [Linternal]. *)
Definition collapsed (t : DType) : bool :=
  match toBasetype t with
  | TypeClass sym => negb (isInterfaceDeclaration sym)
  | TypeDArray next => bool_decide (ty next = Tclass)
  | TypeFunction _ _ _ | TypeDelegate _ | TypePointer _ => true
  | _ => false
  end.

(** The static [M] is null or holds a module that
    [LLVM_D_BuildRuntimeModule] built, with one of the opaque types made so
    far. *)
Definition runtime_built (be : Backend) (s : State) : Prop :=
  M s = None ∨
  ∃ o, (o < opaques s)%N ∧ M s = Some (runtime_module be (OpaqueTy o)).

(** A new function can take the name in the module: no global variable of
    the module bears it, or one of local linkage, which gives way. (The
    case of a function of the name is apart: it is found first.) *)
Definition insertable (m : LModule) (name : string) : bool :=
  match getNamedGlobal m name with
  | Some (_, g) => hasLocalLinkage (gv_linkage g)
  | None => true
  end.

(** The global variables [l'] are those of [l], each in its place and with
    its type, constness, linkage and initializer; a variable of local linkage
    may bear another name. *)
Definition renamed_locals (l l' : list GlobalVariable) : Prop :=
  Forall2 (λ g g',
    gv_elemtype g' = gv_elemtype g ∧ gv_isConstant g' = gv_isConstant g ∧
    gv_linkage g' = gv_linkage g ∧ gv_hasInitializer g' = gv_hasInitializer g ∧
    (hasLocalLinkage (gv_linkage g) = false → gv_name g' = gv_name g)) l l'.

(** What the calls do to the target between two states: the flag of the
    policy and the name of the target stay, and so do the global variables,
    but for the names of variables of local linkage; functions are added at
    the end, each the declaration of a function of a runtime module under a
    name that the target had no function of; with the implicit calls of the
    runtime forbidden the target stays as a whole. *)
Record target_extended (be : Backend) (s s' : State) : Prop := mkExtended {
  te_noruntime : noruntime s' = noruntime s;
  te_id : ModuleID (target s') = ModuleID (target s);
  te_globals : renamed_locals (GlobalList (target s)) (GlobalList (target s'));
  te_functions : ∃ l,
    FunctionList (target s') = (FunctionList (target s) ++ l)%list ∧
    Forall (λ f, ∃ opaque r, r ∈ FunctionList (runtime_module be opaque) ∧
                             f = declaration_of r) l ∧
    NoDup (fn_name <$> l) ∧
    (∀ f, f ∈ l → fn_name f ∉ fn_name <$> FunctionList (target s));
  te_policy : noruntime s = true → target s' = target s
}.

(** The variable [g] under another name. *)
Definition renamed (name : string) (g : GlobalVariable) : GlobalVariable :=
  mkGlobalVariable name (gv_elemtype g) (gv_isConstant g) (gv_linkage g)
                   (gv_hasInitializer g).

(** The name that the symbol table of the target gives a variable of local
    linkage that has given its name to a new function. *)
Definition displaced_name (be : Backend) (tgt : LModule) (name : string) : string :=
  uniqueName be
    ((fn_name <$> FunctionList tgt) ++ [name] ++ (gv_name <$> GlobalList tgt))%list
    name.

(** The global variables of the target once a function of the name has
    been added to it: a variable of the name, which was of local linkage or
    the function would not have been added, bears the name that the symbol
    table gave it. *)
Definition given_way (be : Backend) (tgt : LModule) (name : string)
    : list GlobalVariable :=
  match getNamedGlobal tgt name with
  | Some (gv, g) => <[gv := renamed (displaced_name be tgt name) g]> (GlobalList tgt)
  | None => GlobalList tgt
  end.

(** Two states that differ at most in the runtime module, in the count of
    opaque types and in the types of the functions that the target has after
    its first [n]. *)
Definition same_but_opaque (n : nat) (s1 s2 : State) : Prop :=
  noruntime s2 = noruntime s1 ∧ vtinfo s2 = vtinfo s1 ∧
  internalTI s2 = internalTI s1 ∧ heap s2 = heap s1 ∧ members s2 = members s1 ∧
  ModuleID (target s2) = ModuleID (target s1) ∧
  GlobalList (target s2) = GlobalList (target s1) ∧
  take n (FunctionList (target s2)) = take n (FunctionList (target s1)) ∧
  (λ f, (fn_name f, fn_linkage f, fn_attrs f)) <$> FunctionList (target s2)
  = (λ f, (fn_name f, fn_linkage f, fn_attrs f)) <$> FunctionList (target s1).

(** ** Unfolding of computations *)

Ltac comp :=
  repeat (unfold mbind, Comp_bind, mret, Comp_ret, gets, modify, abort, deref,
                 assert; simpl).

Lemma bind_Ret {A B} (c : Comp A) (f : A → Comp B) s a s' :
  c s = Ret a s' → (c ≫= f) s = f a s'.
Proof. intros H. unfold mbind, Comp_bind. by rewrite H. Qed.

Lemma bind_Abort {A B} (c : Comp A) (f : A → Comp B) s t s' :
  c s = Abort t s' → (c ≫= f) s = Abort t s'.
Proof. intros H. unfold mbind, Comp_bind. by rewrite H. Qed.

(** ** The modules of LLVM *)

Section modules.
Implicit Types (m : LModule) (f : Function) (name : string).

Lemma getFunction_Some m name fn f :
  getFunction m name = Some (fn, f) →
  FunctionList m !! fn = Some f ∧ fn_name f = name.
Proof.
  unfold getFunction. intros H. apply list_find_Some in H as (Hl & Hn & _). done.
Qed.


Lemma getFunction_None_absent m name :
  getFunction m name = None → name ∉ fn_name <$> FunctionList m.
Proof.
  unfold getFunction. rewrite list_find_None, Forall_forall.
  intros H (f & -> & Hf)%list_elem_of_fmap. by apply (H f).
Qed.






Lemma getNamedGlobal_Some m name gv (g : GlobalVariable) :
  getNamedGlobal m name = Some (gv, g) →
  GlobalList m !! gv = Some g ∧ gv_name g = name.
Proof.
  unfold getNamedGlobal. intros H. apply list_find_Some in H as (Hl & Hn & _). done.
Qed.

Lemma getNamedGlobal_snoc m (g : GlobalVariable) :
  getNamedGlobal m (gv_name g) = None →
  getNamedGlobal (mkLModule (ModuleID m) (FunctionList m) (GlobalList m ++ [g]))
                 (gv_name g)
  = Some (length (GlobalList m), g).
Proof.
  unfold getNamedGlobal. simpl. intros H. rewrite list_find_app_r by done.
  simpl. rewrite decide_True by done. simpl. do 2 f_equal.
Qed.

Lemma renamed_locals_refl (l : list GlobalVariable) : renamed_locals l l.
Proof. unfold renamed_locals. by apply Forall_Forall2_diag, Forall_true. Qed.

Lemma renamed_locals_trans (l1 l2 l3 : list GlobalVariable) :
  renamed_locals l1 l2 → renamed_locals l2 l3 → renamed_locals l1 l3.
Proof.
  unfold renamed_locals. intros H1 H2. revert l3 H2.
  induction H1 as [|g1 g2 l1 l2 (Ht & Hc & Hl & Hi & Hn) _ IH]; intros l3 H2.
  - by inversion H2.
  - inversion H2 as [|? g3 ? l3' (Ht' & Hc' & Hl' & Hi' & Hn') H2']; subst.
    constructor; [|by apply IH].
    repeat split; try congruence.
    intros Hloc. rewrite Hn' by congruence. by apply Hn.
Qed.

Lemma renamed_locals_insert (l : list GlobalVariable) gv g name :
  l !! gv = Some g → hasLocalLinkage (gv_linkage g) = true →
  renamed_locals l (<[gv := renamed name g]> l).
Proof.
  intros Hgv Hloc. unfold renamed_locals. apply Forall2_lookup. intros j.
  destruct (decide (j = gv)) as [->|Hne].
  - rewrite Hgv, list_lookup_insert_eq by (by eapply lookup_lt_Some).
    constructor. repeat split. cbn [renamed gv_linkage]. congruence.
  - rewrite list_lookup_insert_ne by done.
    destruct (l !! j); constructor. done.
Qed.

(** Of the variables just as they were, none changed its name. *)
Lemma renamed_locals_none (l l' : list GlobalVariable) :
  Forall (λ g, hasLocalLinkage (gv_linkage g) = false) l →
  renamed_locals l l' → l' = l.
Proof.
  unfold renamed_locals. intros Hall H.
  induction H as [|g g' l l' (Ht & Hc & Hl & Hi & Hn) _ IH]; [done|].
  apply Forall_cons in Hall as [Hg Hall]. f_equal; [|by apply IH].
  destruct g, g'. cbn in *. rewrite Hn by done. congruence.
Qed.

(** [Function::Create] followed by [setAttributes] on its result. *)
Lemma setAttributes_Create fty linkage name al m :
  setAttributes (Function_Create fty linkage name m).1 al
                (Function_Create fty linkage name m).2
  = mkLModule (ModuleID m) (FunctionList m ++ [mkFunction name fty linkage al])
              (GlobalList m).
Proof.
  unfold setAttributes, Function_Create. simpl. f_equal.
  rewrite <- (Nat.add_0_r (length (FunctionList m))). by rewrite alter_app_r.
Qed.
End modules.

(** ** The runtime module *)

Lemma declare_spec d m :
  declare d m
  = mkLModule (ModuleID m) (FunctionList m ++ [function_of d]) (GlobalList m).
Proof.
  unfold declare, function_of.
  destruct (d_attrs d) as [al|] eqn:Hal; simpl.
  - apply (setAttributes_Create (d_type d) ExternalLinkage (d_name d) al m).
  - done.
Qed.

Lemma foldl_declare ds m :
  foldl (λ m d, declare d m) m ds
  = mkLModule (ModuleID m) (FunctionList m ++ (function_of <$> ds)) (GlobalList m).
Proof.
  revert m. induction ds as [|d ds IH]; intros m; simpl.
  - rewrite app_nil_r. by destruct m.
  - rewrite IH, declare_spec. simpl. by rewrite <- app_assoc.
Qed.

Section runtime_facts.
Context (be : Backend).

Lemma runtime_module_functions opaque :
  FunctionList (runtime_module be opaque)
  = function_of <$> runtime_declarations be opaque.
Proof. unfold runtime_module. by rewrite foldl_declare. Qed.

(** The runtime module holds no global variable. *)
Lemma runtime_module_globals opaque : GlobalList (runtime_module be opaque) = [].
Proof. unfold runtime_module. by rewrite foldl_declare. Qed.

(** The names of the catalogue are pairwise distinct, so that no
    [Function::Create] of the construction meets a name in use. *)
Lemma runtime_module_unique_names opaque : unique_names (runtime_module be opaque).
Proof.
  unfold unique_names. rewrite runtime_module_functions.
  apply (bool_decide_unpack _). vm_compute. exact I.
Qed.

(** The opaque type of a construction is in the types only: the names and
    the attribute lists of the catalogue are those of every construction. *)
Lemma runtime_module_names opaque opaque' :
  (λ f, (fn_name f, fn_attrs f)) <$> FunctionList (runtime_module be opaque)
  = (λ f, (fn_name f, fn_attrs f)) <$> FunctionList (runtime_module be opaque').
Proof. rewrite !runtime_module_functions. vm_compute. reflexivity. Qed.

Lemma M_with_runtime s : M (with_runtime be s) = Some (the_runtime be s).
Proof. unfold with_runtime, the_runtime. by destruct (M s) eqn:E. Qed.

Lemma with_runtime_idemp s : with_runtime be (with_runtime be s) = with_runtime be s.
Proof. unfold with_runtime. destruct (M s) eqn:E; cbn [M set_M]; by rewrite ?E. Qed.

Lemma target_with_runtime s : target (with_runtime be s) = target s.
Proof. unfold with_runtime. by destruct (M s). Qed.

Lemma noruntime_with_runtime s : noruntime (with_runtime be s) = noruntime s.
Proof. unfold with_runtime. by destruct (M s). Qed.

Lemma members_with_runtime s : members (with_runtime be s) = members s.
Proof. unfold with_runtime. by destruct (M s). Qed.

Lemma frame_with_runtime s :
  noruntime (with_runtime be s) = noruntime s ∧ target (with_runtime be s) = target s ∧
  vtinfo (with_runtime be s) = vtinfo s ∧ internalTI (with_runtime be s) = internalTI s ∧
  heap (with_runtime be s) = heap s ∧ members (with_runtime be s) = members s.
Proof. unfold with_runtime. by destruct (M s). Qed.

Lemma set_target_same s : set_target (target s) s = s.
Proof. by destruct s. Qed.

Lemma check_noruntime_off s : noruntime s = false → check_noruntime s = Ret tt s.
Proof. intros H. unfold check_noruntime. comp. by rewrite H. Qed.

Lemma check_noruntime_on s :
  noruntime s = true → check_noruntime s = Abort (fatal noruntime_diagnostic) s.
Proof. intros H. unfold check_noruntime. comp. by rewrite H. Qed.

Lemma LLVM_D_InitRuntime_eq s :
  LLVM_D_InitRuntime be s = Ret true (with_runtime be s).
Proof.
  unfold LLVM_D_InitRuntime, LLVM_D_BuildRuntimeModule, OpaqueType_get, with_runtime.
  unfold mbind, Comp_bind, mret, Comp_ret, gets, modify. by destruct (M s).
Qed.

Lemma ensure_runtime_eq s : ensure_runtime be s = Ret tt (with_runtime be s).
Proof.
  unfold ensure_runtime. unfold mbind at 1, Comp_bind at 1, gets.
  destruct (M s) eqn:E.
  - unfold with_runtime. by rewrite E.
  - unfold assert, runtime_failed. cbn [negb].
    unfold mbind, Comp_bind, mret, Comp_ret. by rewrite LLVM_D_InitRuntime_eq.
Qed.

Lemma LLVM_D_FreeRuntime_eq s : LLVM_D_FreeRuntime s = Ret tt (set_M None s).
Proof.
  unfold LLVM_D_FreeRuntime. comp. destruct s as [nr [m|] tgt v i h mem op]; done.
Qed.

(** *** [getOrInsertFunction], for a name that is no function's *)

Lemma getOrInsertFunction_free u name fty m :
  getFunction m name = None → getNamedGlobal m name = None →
  getOrInsertFunction u name fty m
  = (ConstFunction (length (FunctionList m)),
     mkLModule (ModuleID m)
       (FunctionList m ++ [mkFunction name fty ExternalLinkage NoAttrs])
       (GlobalList m)).
Proof.
  intros Hf Hg. unfold getOrInsertFunction, getNamedValue. by rewrite Hf, Hg.
Qed.

Lemma getOrInsertFunction_local u name fty m gv g :
  getFunction m name = None → getNamedGlobal m name = Some (gv, g) →
  hasLocalLinkage (gv_linkage g) = true →
  getOrInsertFunction u name fty m
  = (ConstFunction (length (FunctionList m)),
     setName (ConstVariable gv)
       (u (symbols (Function_Create fty ExternalLinkage name m).2) name)
       (Function_Create fty ExternalLinkage name m).2).
Proof.
  intros Hf Hg Hl. unfold getOrInsertFunction, getNamedValue.
  by rewrite Hf, Hg, Hl.
Qed.

Lemma getOrInsertFunction_clash u name fty m gv g :
  getFunction m name = None → getNamedGlobal m name = Some (gv, g) →
  hasLocalLinkage (gv_linkage g) = false →
  getOrInsertFunction u name fty m
  = (if decide (PointerTy (gv_elemtype g) = PointerTy fty) then ConstVariable gv
     else ConstBitCast (ConstVariable gv) (PointerTy fty), m).
Proof.
  intros Hf Hg Hl. unfold getOrInsertFunction, getNamedValue.
  rewrite Hf, Hg, Hl. by destruct (decide _).
Qed.

(** *** [LLVM_D_GetRuntimeFunction], case by case *)

Lemma GetRuntimeFunction_noruntime name s :
  noruntime s = true →
  LLVM_D_GetRuntimeFunction be name s = Abort (fatal noruntime_diagnostic) s.
Proof.
  intros H. unfold LLVM_D_GetRuntimeFunction.
  by rewrite (bind_Abort _ _ _ _ _ (check_noruntime_on s H)).
Qed.

Lemma GetRuntimeFunction_present name s fn f :
  noruntime s = false → getFunction (target s) name = Some (fn, f) →
  LLVM_D_GetRuntimeFunction be name s = Ret fn (with_runtime be s).
Proof.
  intros Hnr Hf. unfold LLVM_D_GetRuntimeFunction.
  rewrite (bind_Ret _ _ _ _ _ (check_noruntime_off s Hnr)).
  rewrite (bind_Ret _ _ _ _ _ (ensure_runtime_eq s)).
  unfold mbind, Comp_bind, gets, mret, Comp_ret.
  by rewrite target_with_runtime, Hf.
Qed.

(** The call for a name that the target has no function of and the runtime
    module has the function [f] of: what [getOrInsertFunction] returns
    decides. *)
Lemma GetRuntimeFunction_insert name s i f :
  noruntime s = false → getFunction (target s) name = None →
  getFunction (the_runtime be s) name = Some (i, f) →
  LLVM_D_GetRuntimeFunction be name s
  = match getOrInsertFunction (uniqueName be) name (fn_type f) (target s) with
    | (ConstFunction resfn, tgt') =>
        Ret resfn (set_target (setAttributes resfn (fn_attrs f) tgt') (with_runtime be s))
    | (_, tgt') =>
        Abort (assertion_failure "cast<Ty>() argument of incompatible type!")
              (set_target tgt' (with_runtime be s))
    end.
Proof.
  intros Hnr Ht Hr. unfold LLVM_D_GetRuntimeFunction.
  rewrite (bind_Ret _ _ _ _ _ (check_noruntime_off s Hnr)).
  rewrite (bind_Ret _ _ _ _ _ (ensure_runtime_eq s)).
  unfold mbind at 1, Comp_bind at 1, gets.
  rewrite target_with_runtime, Ht.
  unfold mbind at 1, Comp_bind at 1. unfold mbind at 1, Comp_bind at 1, gets.
  rewrite M_with_runtime. unfold deref, mret, Comp_ret. rewrite Hr.
  destruct (getOrInsertFunction (uniqueName be) name (fn_type f) (target s))
    as [c tgt'].
  unfold mbind, Comp_bind, modify. by destruct c.
Qed.

Lemma GetRuntimeFunction_absent name s i f :
  noruntime s = false → getFunction (target s) name = None →
  getNamedGlobal (target s) name = None →
  getFunction (the_runtime be s) name = Some (i, f) →
  LLVM_D_GetRuntimeFunction be name s
  = Ret (length (FunctionList (target s)))
        (set_target
           (mkLModule (ModuleID (target s))
              (FunctionList (target s) ++ [declaration_of f])
              (GlobalList (target s)))
           (with_runtime be s)).
Proof.
  intros Hnr Ht Hg Hr. rewrite (GetRuntimeFunction_insert name s i f) by done.
  rewrite getOrInsertFunction_free by done.
  pose proof (setAttributes_Create (fn_type f) ExternalLinkage name (fn_attrs f)
                (target s)) as Hc.
  unfold Function_Create in Hc. cbn [fst snd] in Hc. rewrite Hc.
  unfold declaration_of. apply getFunction_Some in Hr as [_ ->]. done.
Qed.

(** A variable of local linkage that bears the name gives it away. *)
Lemma GetRuntimeFunction_local name s i f gv g :
  noruntime s = false → getFunction (target s) name = None →
  getNamedGlobal (target s) name = Some (gv, g) →
  hasLocalLinkage (gv_linkage g) = true →
  getFunction (the_runtime be s) name = Some (i, f) →
  LLVM_D_GetRuntimeFunction be name s
  = Ret (length (FunctionList (target s)))
        (set_target
           (mkLModule (ModuleID (target s))
              (FunctionList (target s) ++ [declaration_of f])
              (<[gv := renamed (displaced_name be (target s) name) g]>
                 (GlobalList (target s))))
           (with_runtime be s)).
Proof.
  intros Hnr Ht Hg Hl Hr. rewrite (GetRuntimeFunction_insert name s i f) by done.
  rewrite (getOrInsertFunction_local _ _ _ _ gv g) by done.
  apply getFunction_Some in Hr as [_ Hname].
  apply list_find_Some in Hg as (Hgv & _ & _).
  unfold setName, setAttributes, Function_Create, declaration_of, displaced_name,
    symbols.
  cbn [fst snd ModuleID FunctionList GlobalList]. rewrite Hname.
  rewrite fmap_app, <- app_assoc. cbn [fmap list_fmap fn_name].
  do 3 f_equal.
  - rewrite <- (Nat.add_0_r (length (FunctionList (target s)))).
    by rewrite alter_app_r.
  - apply list_eq. intros j. destruct (decide (j = gv)) as [->|Hne].
    + rewrite list_lookup_alter, decide_True, Hgv by done.
      rewrite list_lookup_insert_eq by (by eapply lookup_lt_Some). reflexivity.
    + rewrite list_lookup_alter_ne by done.
      by rewrite list_lookup_insert_ne by done.
Qed.

(** A variable of another linkage that bears the name is in the way. *)
Lemma GetRuntimeFunction_clash name s i f gv g :
  noruntime s = false → getFunction (target s) name = None →
  getNamedGlobal (target s) name = Some (gv, g) →
  hasLocalLinkage (gv_linkage g) = false →
  getFunction (the_runtime be s) name = Some (i, f) →
  LLVM_D_GetRuntimeFunction be name s
  = Abort (assertion_failure "cast<Ty>() argument of incompatible type!")
          (with_runtime be s).
Proof.
  intros Hnr Ht Hg Hl Hr. rewrite (GetRuntimeFunction_insert name s i f) by done.
  rewrite (getOrInsertFunction_clash _ _ _ _ gv g) by done.
  rewrite <- (target_with_runtime s), set_target_same.
  by destruct (decide _).
Qed.

Lemma GetRuntimeFunction_missing name s :
  noruntime s = false → getFunction (target s) name = None →
  getFunction (the_runtime be s) name = None →
  LLVM_D_GetRuntimeFunction be name s
  = Abort (assertion_failure ("Runtime function '" +:+ name +:+ "' was not found"))
          (with_runtime be s).
Proof.
  intros Hnr Ht Hr. unfold LLVM_D_GetRuntimeFunction.
  rewrite (bind_Ret _ _ _ _ _ (check_noruntime_off s Hnr)).
  rewrite (bind_Ret _ _ _ _ _ (ensure_runtime_eq s)).
  unfold mbind at 1, Comp_bind at 1, gets.
  rewrite target_with_runtime, Ht.
  unfold mbind, Comp_bind, gets, deref, mret, Comp_ret, abort.
  by rewrite M_with_runtime, Hr.
Qed.
End runtime_facts.

Section global_facts.
Context (be : Backend).

(** *** [LLVM_D_GetRuntimeGlobal], case by case *)

Lemma GetRuntimeGlobal_present name s gv g :
  getNamedGlobal (target s) name = Some (gv, g) →
  LLVM_D_GetRuntimeGlobal be name s = Ret gv s.
Proof. intros H. unfold LLVM_D_GetRuntimeGlobal. comp. by rewrite H. Qed.

Lemma GetRuntimeGlobal_noruntime name s :
  getNamedGlobal (target s) name = None → noruntime s = true →
  LLVM_D_GetRuntimeGlobal be name s = Abort (fatal noruntime_diagnostic) s.
Proof.
  intros H Hnr. unfold LLVM_D_GetRuntimeGlobal.
  rewrite (bind_Ret _ _ s (target s) s) by done. rewrite H.
  by rewrite (bind_Abort _ _ _ _ _ (check_noruntime_on s Hnr)).
Qed.

Lemma GetRuntimeGlobal_missing name s :
  getNamedGlobal (target s) name = None → noruntime s = false →
  getNamedGlobal (the_runtime be s) name = None →
  LLVM_D_GetRuntimeGlobal be name s
  = Abort (fatal ("Runtime global '" +:+ name +:+ "' was not found"))
          (with_runtime be s).
Proof.
  intros H Hnr Hr. unfold LLVM_D_GetRuntimeGlobal.
  rewrite (bind_Ret _ _ s (target s) s) by done. rewrite H.
  rewrite (bind_Ret _ _ _ _ _ (check_noruntime_off s Hnr)).
  rewrite (bind_Ret _ _ _ _ _ (ensure_runtime_eq be s)).
  unfold mbind, Comp_bind, gets, deref, mret, Comp_ret, abort.
  by rewrite M_with_runtime, Hr.
Qed.

(** The name of the variable that [new llvm::GlobalVariable] adds to the
    target: the name asked for, unless a function of the target bears it. *)
Lemma GetRuntimeGlobal_absent name s i g :
  getNamedGlobal (target s) name = None → noruntime s = false →
  getNamedGlobal (the_runtime be s) name = Some (i, g) →
  LLVM_D_GetRuntimeGlobal be name s
  = Ret (length (GlobalList (target s)))
        (set_target
           (mkLModule (ModuleID (target s)) (FunctionList (target s))
              (GlobalList (target s) ++
               [mkGlobalVariable
                  (if getFunction (target s) name is None then name
                   else uniqueName be (symbols (target s)) name)
                  (gv_elemtype g) (gv_isConstant g) (gv_linkage g) false]))
           (with_runtime be s)).
Proof.
  intros H Hnr Hr. unfold LLVM_D_GetRuntimeGlobal.
  rewrite (bind_Ret _ _ s (target s) s) by done. rewrite H.
  rewrite (bind_Ret _ _ _ _ _ (check_noruntime_off s Hnr)).
  rewrite (bind_Ret _ _ _ _ _ (ensure_runtime_eq be s)).
  unfold mbind, Comp_bind, gets, deref, mret, Comp_ret, modify.
  rewrite M_with_runtime, Hr, target_with_runtime.
  apply list_find_Some in Hr as (_ & Hname & _).
  unfold new_GlobalVariable, getNamedValue. rewrite Hname, H.
  by destruct (getFunction (target s) name) as [[fn f]|].
Qed.

(** In every case the call leaves the canonicalizer's part of the state
    alone and adds at most one variable to the target. *)
Lemma GetRuntimeGlobal_frame name s :
  let s' := final_state (LLVM_D_GetRuntimeGlobal be name s) in
  vtinfo s' = vtinfo s ∧ internalTI s' = internalTI s ∧ heap s' = heap s ∧
  members s' = members s ∧ noruntime s' = noruntime s ∧
  (length (GlobalList (target s')) ≤ S (length (GlobalList (target s))))%nat ∧
  FunctionList (target s') = FunctionList (target s).
Proof.
  assert (Hw : ∀ s, vtinfo (with_runtime be s) = vtinfo s ∧
                    internalTI (with_runtime be s) = internalTI s ∧
                    heap (with_runtime be s) = heap s ∧
                    members (with_runtime be s) = members s ∧
                    noruntime (with_runtime be s) = noruntime s ∧
                    target (with_runtime be s) = target s).
  { intros s0. unfold with_runtime. by destruct (M s0). }
  destruct (getNamedGlobal (target s) name) as [[gv g]|] eqn:Ht.
  { rewrite (GetRuntimeGlobal_present _ _ _ _ Ht). simpl. repeat split; auto. }
  destruct (noruntime s) eqn:Hnr.
  { rewrite (GetRuntimeGlobal_noruntime _ _ Ht Hnr). simpl. repeat split; auto. }
  destruct (Hw s) as (? & ? & ? & ? & ? & Htg).
  destruct (getNamedGlobal (the_runtime be s) name) as [[i g]|] eqn:Hr.
  - rewrite (GetRuntimeGlobal_absent _ _ _ _ Ht Hnr Hr).
    cbn [final_state set_target vtinfo internalTI heap members noruntime target
         GlobalList FunctionList].
    repeat split; try done; try congruence. rewrite length_app. simpl. lia.
  - rewrite (GetRuntimeGlobal_missing _ _ Ht Hnr Hr). simpl.
    repeat split; try done; try congruence. rewrite Htg. lia.
Qed.
End global_facts.

(** ** The registry of runtime functions: properties *)



Lemma the_runtime_built be s :
  M s = None ∨ (∃ opaque, M s = Some (runtime_module be opaque)) →
  ∃ opaque, the_runtime be s = runtime_module be opaque.
Proof. unfold the_runtime. intros [-> | [opaque ->]]; eauto. Qed.


(** The function of a name has the same attribute list in the catalogue of
    every construction. *)
Lemma find_attributes (l l' : list Function) name :
  (λ f, (fn_name f, fn_attrs f)) <$> l = (λ f, (fn_name f, fn_attrs f)) <$> l' →
  (λ r : nat * Function, fn_attrs r.2) <$> list_find (λ f, fn_name f = name) l
  = (λ r : nat * Function, fn_attrs r.2) <$> list_find (λ f, fn_name f = name) l'.
Proof.
  revert l'. induction l as [|f l IH]; intros [|f' l'] H; try done.
  injection H as Hn Ha Hl. specialize (IH l' Hl). cbn [list_find].
  destruct (decide (fn_name f = name)) as [Hf|Hf],
           (decide (fn_name f' = name)) as [Hf'|Hf']; try congruence.
  - cbn. by rewrite Ha.
  - destruct (list_find _ l) as [[? ?]|], (list_find _ l') as [[? ?]|];
      cbn in *; congruence.
Qed.

Lemma attributes_of_opaque be opaque opaque' name :
  attributes_of (runtime_module be opaque) name
  = attributes_of (runtime_module be opaque') name.
Proof.
  unfold attributes_of, getFunction.
  apply find_attributes, runtime_module_names.
Qed.

(** C2 (amended). With [noruntime] set, every call of
    [LLVM_D_GetRuntimeFunction] ends the compilation with the diagnostic of
    the policy, and so does every call of [LLVM_D_GetRuntimeGlobal] for a
    name that the target has no global variable of; a call of
    [LLVM_D_GetRuntimeGlobal] for a name that the target has a variable of
    returns that variable. In each case the state, and the target module
    with it, is as before the call. *)
Theorem policy_gate be name s :
  noruntime s = true →
  LLVM_D_GetRuntimeFunction be name s = Abort (fatal noruntime_diagnostic) s ∧
  match getNamedGlobal (target s) name with
  | None => LLVM_D_GetRuntimeGlobal be name s = Abort (fatal noruntime_diagnostic) s
  | Some (gv, _) => LLVM_D_GetRuntimeGlobal be name s = Ret gv s
  end.
Proof.
  intros Hnr. split; [by apply GetRuntimeFunction_noruntime|].
  destruct (getNamedGlobal (target s) name) as [[gv g]|] eqn:Ht.
  - by eapply GetRuntimeGlobal_present.
  - by apply GetRuntimeGlobal_noruntime.
Qed.

(** The policy at work on an empty target. *)
Lemma policy_gate_witness :
  LLVM_D_GetRuntimeFunction example_backend "_d_assert" (initial_state true empty_target)
  = Abort (fatal noruntime_diagnostic) (initial_state true empty_target) ∧
  LLVM_D_GetRuntimeGlobal example_backend "_d_assert" (initial_state true empty_target)
  = Abort (fatal noruntime_diagnostic) (initial_state true empty_target).
Proof.
  exact (policy_gate example_backend "_d_assert" (initial_state true empty_target)
           eq_refl).
Defined.

(** C2, as stated, fails: with [noruntime] set and a target that has a global
    variable of the name, [LLVM_D_GetRuntimeGlobal] returns the variable and
    no diagnostic ends the compilation. *)
Lemma policy_gate_counterexample :
  let tgt := mkLModule "target" []
               [mkGlobalVariable "_D_exact" (StructTy []) false ExternalLinkage false] in
  let s := initial_state true tgt in
  noruntime s = true ∧
  LLVM_D_GetRuntimeGlobal example_backend "_D_exact" s = Ret 0 s.
Proof. split; reflexivity. Qed.

(** C3 (amended). For a target that has a function of the name: with
    [noruntime] clear, [LLVM_D_GetRuntimeFunction] returns that function,
    leaves the target as it is (the attributes of the function are not set
    again) and does not look the name up in the runtime module, which it
    builds first if [M] is null; with [noruntime] set, the call ends the
    compilation with the diagnostic of the policy. *)
Theorem existing_declaration be name s fn f :
  getFunction (target s) name = Some (fn, f) →
  (noruntime s = false →
   LLVM_D_GetRuntimeFunction be name s = Ret fn (with_runtime be s) ∧
   target (with_runtime be s) = target s ∧
   M (with_runtime be s) = Some (the_runtime be s)) ∧
  (noruntime s = true →
   LLVM_D_GetRuntimeFunction be name s = Abort (fatal noruntime_diagnostic) s).
Proof.
  intros Hf. split; intros Hnr.
  - split; [by eapply GetRuntimeFunction_present|].
    split; [|apply M_with_runtime].
    unfold with_runtime. by destruct (M s).
  - by apply GetRuntimeFunction_noruntime.
Qed.

(** A target that declares [_d_assert], with [noruntime] clear. *)
Lemma existing_declaration_witness :
  LLVM_D_GetRuntimeFunction example_backend "_d_assert"
    (initial_state false target_with_assert)
  = Ret 0 (with_runtime example_backend (initial_state false target_with_assert)).
Proof.
  refine (proj1 (proj1 (existing_declaration example_backend "_d_assert"
                   (initial_state false target_with_assert) 0 _ _) _)); reflexivity.
Defined.

(** C3, as stated, fails: with [noruntime] set, the call for a name that the
    target already declares does not return the declaration; the policy is
    checked before the target is looked at. *)
Lemma existing_declaration_counterexample :
  let s := initial_state true target_with_assert in
  is_Some (getFunction (target s) "_d_assert") ∧
  LLVM_D_GetRuntimeFunction example_backend "_d_assert" s
  = Abort (fatal noruntime_diagnostic) s.
Proof. split; [by eexists|reflexivity]. Qed.





(** The call that adds the declaration of [f] to the target: the target had
    no function of the name, and no variable of the name stood in the way.
    The global variables stay, but for the name of a variable of local
    linkage that bore the name. *)
Lemma GetRuntimeFunction_inserted be name s i f :
  noruntime s = false → getFunction (target s) name = None →
  insertable (target s) name = true →
  getFunction (the_runtime be s) name = Some (i, f) →
  LLVM_D_GetRuntimeFunction be name s
  = Ret (length (FunctionList (target s)))
        (set_target
           (mkLModule (ModuleID (target s))
              (FunctionList (target s) ++ [declaration_of f])
              (given_way be (target s) name))
           (with_runtime be s)).
Proof.
  intros Hnr Ht Hins Hr. unfold insertable in Hins. unfold given_way.
  destruct (getNamedGlobal (target s) name) as [[gv g]|] eqn:Hg.
  - by apply (GetRuntimeFunction_local be name s i f gv g).
  - by apply (GetRuntimeFunction_absent be name s i f).
Qed.

Lemma given_way_renamed be tgt name :
  insertable tgt name = true →
  renamed_locals (GlobalList tgt) (given_way be tgt name).
Proof.
  unfold insertable, given_way.
  destruct (getNamedGlobal tgt name) as [[gv g]|] eqn:Hg.
  - intros Hl. apply list_find_Some in Hg as (Hgv & _ & _).
    by apply renamed_locals_insert.
  - intros _. apply renamed_locals_refl.
Qed.


(** The call for a name that a variable of the target stands in the way of. *)
Lemma GetRuntimeFunction_blocked be name s i f :
  noruntime s = false → getFunction (target s) name = None →
  insertable (target s) name = false →
  getFunction (the_runtime be s) name = Some (i, f) →
  LLVM_D_GetRuntimeFunction be name s
  = Abort (assertion_failure "cast<Ty>() argument of incompatible type!")
          (with_runtime be s).
Proof.
  intros Hnr Ht Hins Hr. unfold insertable in Hins.
  destruct (getNamedGlobal (target s) name) as [[gv g]|] eqn:Hg; [|done].
  by apply (GetRuntimeFunction_clash be name s i f gv g).
Qed.






(** C8 (amended). The associative-array routines of the catalogue that are
    declared read-only are [_aaLen] and [_aaIn]. Both carry [ReadOnly] on the
    function, not [ReadNone], and [NoCapture] on parameter 1; [_aaLen] also
    carries [NoUnwind]; [_aaIn] carries [NoCapture] on its key pointer,
    parameter 3, and does not carry [NoUnwind]. No associative-array routine
    carries [ReadNone]. *)
Theorem aa_read_only_attributes be opaque :
  (∃ i f, getFunction (runtime_module be opaque) "_aaLen" = Some (i, f) ∧
     paramHasAttr (fn_attrs f) FunctionIndex ReadOnly = true ∧
     paramHasAttr (fn_attrs f) FunctionIndex NoUnwind = true ∧
     paramHasAttr (fn_attrs f) FunctionIndex ReadNone = false ∧
     paramHasAttr (fn_attrs f) 1 NoCapture = true) ∧
  (∃ i f, getFunction (runtime_module be opaque) "_aaIn" = Some (i, f) ∧
     paramHasAttr (fn_attrs f) FunctionIndex ReadOnly = true ∧
     paramHasAttr (fn_attrs f) FunctionIndex NoUnwind = false ∧
     paramHasAttr (fn_attrs f) FunctionIndex ReadNone = false ∧
     paramHasAttr (fn_attrs f) 1 NoCapture = true ∧
     paramHasAttr (fn_attrs f) 3 NoCapture = true) ∧
  Forall (λ f, is_aa_routine f = true →
               paramHasAttr (fn_attrs f) FunctionIndex ReadNone = false ∧
               (paramHasAttr (fn_attrs f) FunctionIndex ReadOnly = true →
                fn_name f = "_aaLen" ∨ fn_name f = "_aaIn"))
         (FunctionList (runtime_module be opaque)).
Proof.
  split; [|split].
  - assert (H : attributes_of (runtime_module be opaque) "_aaLen" = Some Attr_ReadOnly_NoUnwind_1_NoCapture)
      by (vm_compute; reflexivity).
    unfold attributes_of in H.
    destruct (getFunction (runtime_module be opaque) "_aaLen") as [[i f]|]; [|discriminate].
    injection H as H. exists i, f. rewrite H. repeat split; reflexivity.
  - assert (H : attributes_of (runtime_module be opaque) "_aaIn" = Some Attr_ReadOnly_1_3_NoCapture)
      by (vm_compute; reflexivity).
    unfold attributes_of in H.
    destruct (getFunction (runtime_module be opaque) "_aaIn") as [[i f]|]; [|discriminate].
    injection H as H. exists i, f. rewrite H. repeat split; reflexivity.
  - rewrite runtime_module_functions.
    apply (bool_decide_unpack _). vm_compute. exact I.
Qed.

(** C8, as stated, fails: [_aaLen] does not carry [ReadNone], and [_aaIn]
    carries neither [ReadNone] nor [NoUnwind]. *)
Lemma aa_read_only_counterexample :
  (λ r, (paramHasAttr (fn_attrs r.2) FunctionIndex ReadNone,
         paramHasAttr (fn_attrs r.2) FunctionIndex NoUnwind))
    <$> getFunction (runtime_module example_backend (OpaqueTy 0)) "_aaLen" = Some (false, true) ∧
  (λ r, (paramHasAttr (fn_attrs r.2) FunctionIndex ReadNone,
         paramHasAttr (fn_attrs r.2) FunctionIndex NoUnwind))
    <$> getFunction (runtime_module example_backend (OpaqueTy 0)) "_aaIn" = Some (false, false).
Proof. split; vm_compute; reflexivity. Qed.

(** ** The canonicalizer: states and their order *)

Lemma vtinfo_of_assign t d s t' :
  vtinfo_of t' (assign_vtinfo t d s)
  = if decide (t = t') then Some d else vtinfo_of t' s.
Proof.
  unfold vtinfo_of, assign_vtinfo. simpl.
  destruct (decide (t = t')) as [->|Hne]; [done|].
  destruct (list_find _ (vtinfo s)) as [[i [t1 d1]]|]; done.
Qed.

Lemma later_state_refl s : later_state s s.
Proof. split; eauto 10. Qed.

Lemma later_state_trans s1 s2 s3 :
  later_state s1 s2 → later_state s2 s3 → later_state s1 s3.
Proof.
  intros [V1 I1 H1] [V2 I2 H2]. split; [eauto|eauto|].
  intros d decl Hd.
  destruct (H1 d decl Hd) as (decl1 & Hd1 & Hc1 & Ht1 & Hi1 & Hl1).
  destruct (H2 d decl1 Hd1) as (decl2 & Hd2 & Hc2 & Ht2 & Hi2 & Hl2).
  exists decl2. split; [done|].
  split; [congruence|]. split; [congruence|]. split; [congruence|].
  intros Ht. destruct (Hl1 Ht) as [Ha Hb]. destruct (Hl2 Ha) as [Hc Hd'].
  split; congruence.
Qed.

(** A state that differs only outside the tables of the canonicalizer. *)
Lemma later_state_frame s s' :
  vtinfo s' = vtinfo s → internalTI s' = internalTI s → heap s' = heap s →
  later_state s s'.
Proof.
  intros Hv Hi Hh. split.
  - intros t d. unfold vtinfo_of. by rewrite Hv.
  - intros k d. by rewrite Hi.
  - intros d decl. rewrite Hh. eauto 10.
Qed.

Lemma later_state_alloc s decl : later_state s (set_heap (heap s ++ [decl]) s).
Proof.
  split; [done|done|]. simpl. intros d decl0 Hd. exists decl0.
  split; [|done]. rewrite lookup_app_l; [done|]. by eapply lookup_lt_Some.
Qed.

Lemma later_state_assign t d s :
  vtinfo_of t s = None → later_state s (assign_vtinfo t d s).
Proof.
  intros Hn. split; [|done|simpl; eauto 10].
  intros t' d' Hd'. rewrite vtinfo_of_assign.
  destruct (decide (t = t')) as [->|]; [congruence|done].
Qed.

Lemma later_state_placeholder k d s :
  internalTI s !! k = None →
  later_state s (set_internalTI (<[k := d]> (internalTI s)) s).
Proof.
  intros Hn. split; [done| |simpl; eauto 10].
  simpl. intros k' d' Hd'. rewrite lookup_insert_ne; [done|congruence].
Qed.

Lemma later_state_update s s' d decl decl' :
  vtinfo s' = vtinfo s → internalTI s' = internalTI s →
  heap s' = <[d := decl']> (heap s) →
  heap s !! d = Some decl →
  tid_class decl' = tid_class decl → tinfo decl' = tinfo decl →
  internal decl' = internal decl →
  (llvmTouched decl = true →
   llvmTouched decl' = true ∧ llvmValue decl' = llvmValue decl) →
  later_state s s'.
Proof.
  intros Hv Hi Hh Hd Hc Ht Hin Hl. split.
  - intros t d0. unfold vtinfo_of. by rewrite Hv.
  - intros k d0. by rewrite Hi.
  - rewrite Hh. intros d0 decl0 Hd0.
    destruct (decide (d = d0)) as [<-|Hne].
    + exists decl'. rewrite list_lookup_insert_eq by (by eapply lookup_lt_Some).
      assert (decl0 = decl) as -> by congruence. done.
    + exists decl0. by rewrite list_lookup_insert_ne.
Qed.

Lemma later_state_members s m : later_state s (set_members m s).
Proof. by apply later_state_frame. Qed.

Lemma well_formed_frame s s' :
  vtinfo s' = vtinfo s → internalTI s' = internalTI s → heap s' = heap s →
  well_formed s → well_formed s'.
Proof.
  intros Hv Hi Hh [V I]. split.
  - intros t d. unfold vtinfo_of. rewrite Hv, Hh. apply V.
  - intros k d. rewrite Hi, Hh. apply I.
Qed.

Lemma well_formed_initial nr tgt : well_formed (initial_state nr tgt).
Proof. split; [intros t d|intros k d]; simpl; [done|]. by rewrite lookup_empty. Qed.

Lemma well_formed_store s d decl decl' :
  heap s !! d = Some decl → internal decl' = internal decl →
  well_formed s → well_formed (set_heap (<[d := decl']> (heap s)) s).
Proof.
  intros Hd Hi [V I].
  assert (Hh : ∀ d0 decl0, heap s !! d0 = Some decl0 →
            ∃ decl1, <[d := decl']> (heap s) !! d0 = Some decl1 ∧
                     internal decl1 = internal decl0).
  { intros d0 decl0 Hd0. destruct (decide (d = d0)) as [<-|Hne].
    - exists decl'. rewrite list_lookup_insert_eq by (by eapply lookup_lt_Some).
      split; [done|congruence].
    - exists decl0. by rewrite list_lookup_insert_ne. }
  split; simpl.
  - intros t d0 Ht. destruct (V t d0 Ht) as (decl0 & Hd0 & Hi0).
    destruct (Hh d0 decl0 Hd0) as (decl1 & ? & ?). exists decl1. split; congruence.
  - intros k d0 Hk. destruct (I k d0 Hk) as (decl0 & Hd0 & Hi0).
    destruct (Hh d0 decl0 Hd0) as (decl1 & ? & ?). exists decl1. split; congruence.
Qed.

Lemma well_formed_attach t s : well_formed s → well_formed (attach t s).
Proof.
  intros [V I]. split.
  - intros t' d. unfold attach. rewrite vtinfo_of_assign. simpl.
    destruct (decide (t = t')) as [->|Hne].
    + intros [= <-]. eexists. split; [apply list_lookup_middle; done|done].
    + intros Ht. destruct (V t' d Ht) as (decl & Hd & Hi). exists decl.
      split; [|done]. rewrite lookup_app_l; [done|]. by eapply lookup_lt_Some.
  - simpl. intros k d Hk. destruct (I k d Hk) as (decl & Hd & Hi). exists decl.
    split; [|done]. rewrite lookup_app_l; [done|]. by eapply lookup_lt_Some.
Qed.

Lemma well_formed_attach_internal t s :
  well_formed s → well_formed (attach_internal t s).
Proof.
  intros [V I]. split.
  - simpl. intros t' d Ht. destruct (V t' d Ht) as (decl & Hd & Hi). exists decl.
    split; [|done]. rewrite lookup_app_l; [done|]. by eapply lookup_lt_Some.
  - simpl. intros k d. destruct (decide (ty t = k)) as [<-|Hne].
    + rewrite lookup_insert_eq. intros [= <-].
      eexists. split; [apply list_lookup_middle; done|done].
    + rewrite lookup_insert_ne by done. intros Hk.
      destruct (I k d Hk) as (decl & Hd & Hi). exists decl.
      split; [|done]. rewrite lookup_app_l; [done|]. by eapply lookup_lt_Some.
Qed.

Lemma later_state_attach t s : vtinfo_of t s = None → later_state s (attach t s).
Proof.
  intros Hn. eapply later_state_trans; [apply later_state_alloc|].
  by apply later_state_assign.
Qed.

Lemma later_state_attach_internal t s :
  internalTI s !! ty t = None → later_state s (attach_internal t s).
Proof.
  intros Hn.
  set (s0 := set_heap (heap s ++ [fresh_declaration TypeInfoDeclaration_ t true]) s).
  apply (later_state_trans _ s0); [apply later_state_alloc|].
  by apply (later_state_placeholder (ty t) (length (heap s)) s0).
Qed.

(** ** The canonicalizer: the operations *)

Section canonicalizer.
Context (be : Backend) (fe : Frontend).

Lemma load_Some d decl s : heap s !! d = Some decl → load d s = Ret decl s.
Proof. intros H. unfold load. comp. by rewrite H. Qed.

Lemma load_None d s : heap s !! d = None → load d s = Abort null_dereference s.
Proof. intros H. unfold load. comp. by rewrite H. Qed.

(** *** [toObjFile] *)

Lemma toObjFile_again d decl s :
  heap s !! d = Some decl → llvmTouched decl = true →
  toObjFile be fe d s = Ret tt s.
Proof.
  intros Hd Ht. unfold toObjFile.
  rewrite (bind_Ret _ _ _ _ _ (load_Some _ _ _ Hd)). by rewrite Ht.
Qed.

Lemma toObjFile_first d decl s :
  heap s !! d = Some decl → llvmTouched decl = false →
  toObjFile be fe d s
  = match LLVM_D_GetRuntimeGlobal be (mangle fe (tinfo decl) (internal decl))
            (set_heap (<[d := latched decl]> (heap s)) s) with
    | Ret gv s' => Ret tt (set_heap (<[d := resolved decl gv]> (heap s')) s')
    | Abort t s' => Abort t s'
    end.
Proof.
  intros Hd Ht. unfold toObjFile.
  rewrite (bind_Ret _ _ _ _ _ (load_Some _ _ _ Hd)). rewrite Ht.
  unfold store at 1.
  rewrite (bind_Ret _ _ s tt (set_heap (<[d := latched decl]> (heap s)) s)) by done.
  set (s0 := set_heap (<[d := latched decl]> (heap s)) s).
  pose proof (GetRuntimeGlobal_frame be (mangle fe (tinfo decl) (internal decl)) s0)
    as (_ & _ & Hh & _).
  unfold mbind at 1, Comp_bind at 1.
  destruct (LLVM_D_GetRuntimeGlobal be _ s0) as [gv s'|t s']; [|done].
  simpl in Hh.
  assert (Hl : heap s' !! d = Some (latched decl)).
  { rewrite Hh. unfold s0. simpl. apply list_lookup_insert_eq.
    by eapply lookup_lt_Some. }
  rewrite (bind_Ret _ _ _ _ _ (load_Some _ _ _ Hl)). by comp.
Qed.

Lemma toObjFile_dangling d s :
  heap s !! d = None → toObjFile be fe d s = Abort null_dereference s.
Proof.
  intros Hd. unfold toObjFile. by rewrite (bind_Abort _ _ _ _ _ (load_None _ _ Hd)).
Qed.

Lemma toObjFile_later d s : later_state s (final_state (toObjFile be fe d s)).
Proof.
  destruct (heap s !! d) as [decl|] eqn:Hd.
  2: { rewrite toObjFile_dangling by done. apply later_state_refl. }
  destruct (llvmTouched decl) eqn:Ht.
  { rewrite (toObjFile_again d decl) by done. apply later_state_refl. }
  rewrite (toObjFile_first d decl) by done.
  set (s0 := set_heap (<[d := latched decl]> (heap s)) s).
  pose proof (GetRuntimeGlobal_frame be (mangle fe (tinfo decl) (internal decl)) s0)
    as (Hv & Hi & Hh & _).
  destruct (LLVM_D_GetRuntimeGlobal be _ s0) as [gv s'|t s']; simpl in *.
  - apply (later_state_update s _ d decl (resolved decl gv)); simpl;
      try done; [|congruence].
    by rewrite Hh, list_insert_insert_eq.
  - apply (later_state_update s _ d decl (latched decl)); simpl;
      try done; congruence.
Qed.

Lemma toObjFile_well_formed d s :
  well_formed s → well_formed (final_state (toObjFile be fe d s)).
Proof.
  intros Hwf. destruct (heap s !! d) as [decl|] eqn:Hd.
  2: { by rewrite toObjFile_dangling. }
  destruct (llvmTouched decl) eqn:Ht.
  { by rewrite (toObjFile_again d decl). }
  rewrite (toObjFile_first d decl) by done.
  set (s0 := set_heap (<[d := latched decl]> (heap s)) s).
  assert (H0 : well_formed s0) by (by apply (well_formed_store s d decl)).
  pose proof (GetRuntimeGlobal_frame be (mangle fe (tinfo decl) (internal decl)) s0)
    as (Hv & Hi & Hh & _).
  destruct (LLVM_D_GetRuntimeGlobal be _ s0) as [gv s'|t s']; simpl in *.
  - apply (well_formed_store s' d (latched decl)); [|done|].
    + rewrite Hh. apply list_lookup_insert_eq. by eapply lookup_lt_Some.
    + by apply (well_formed_frame s0).
  - by apply (well_formed_frame s0).
Qed.
End canonicalizer.

(** *** [getTypeInfo] *)

Section exact_descriptor.
Context (be : Backend) (fe : Frontend).

Lemma vtinfo_expression_eq t s d decl :
  vtinfo_of t s = Some d → heap s !! d = Some decl →
  vtinfo_expression t s = Ret (VarExp d (tid_class decl)) s.
Proof. intros Hv Hd. unfold vtinfo_expression, load. comp. by rewrite Hv, Hd. Qed.

Lemma vtinfo_expression_inv t s e s1 :
  vtinfo_expression t s = Ret e s1 →
  s1 = s ∧ vtinfo_of t s = Some (var e) ∧
  ∃ decl, heap s !! var e = Some decl ∧ e_type e = tid_class decl.
Proof.
  unfold vtinfo_expression, load. comp.
  destruct (vtinfo_of t s) as [d|]; [|done]. simpl.
  destruct (heap s !! d) as [decl|] eqn:Hd; [|done]. simpl.
  intros [= <- <-]. simpl. eauto.
Qed.

Lemma emission_later sc t d s :
  later_state s (final_state (emission be fe sc t d s)).
Proof.
  unfold emission. destruct (builtinTypeInfo t); simpl.
  - apply later_state_refl.
  - destruct sc as [sc|]; [apply later_state_members|apply toObjFile_later].
Qed.

Lemma emission_well_formed sc t d s :
  well_formed s → well_formed (final_state (emission be fe sc t d s)).
Proof.
  intros Hwf. unfold emission. destruct (builtinTypeInfo t); simpl; [done|].
  destruct sc as [sc|]; [|by apply toObjFile_well_formed].
  by apply (well_formed_frame s).
Qed.

(** In the semantic pass, and for a type with a descriptor in the runtime
    library, the emission step returns. *)
Lemma emission_returns sc t d s :
  is_Some sc ∨ builtinTypeInfo t = true →
  returned (emission be fe sc t d s) = true.
Proof.
  unfold emission. destruct (builtinTypeInfo t); simpl; [done|].
  intros [[sc' ->]|?]; done.
Qed.

Lemma getTypeInfo_attached sc this s d decl :
  vtinfo_of (merge fe this) s = Some d → heap s !! d = Some decl →
  getTypeInfo be fe sc this s = Ret (VarExp d (tid_class decl)) s.
Proof.
  intros Hv Hd. unfold getTypeInfo.
  rewrite (bind_Ret _ _ s (Some d) s) by (comp; by rewrite Hv).
  rewrite (bind_Ret _ _ s tt s) by done.
  by apply vtinfo_expression_eq.
Qed.

Lemma getTypeInfo_unattached sc this s :
  let t := merge fe this in
  let d := length (heap s) in
  vtinfo_of t s = None →
  getTypeInfo be fe sc this s
  = match emission be fe sc t d (attach t s) with
    | Ret _ s' => Ret (VarExp d (getTypeInfoDeclaration_class t)) s'
    | Abort e s' => Abort e s'
    end.
Proof.
  intros t d Hv. unfold getTypeInfo. fold t.
  rewrite (bind_Ret _ _ s None s) by (comp; by rewrite Hv).
  assert (Ha : vtinfo_of t (attach t s) = Some d).
  { unfold attach. rewrite vtinfo_of_assign. by rewrite decide_True. }
  assert (Hh : heap (attach t s) !! d
               = Some (fresh_declaration (getTypeInfoDeclaration_class t) t false)).
  { simpl. by apply list_lookup_middle. }
  pose proof (emission_later sc t d (attach t s)) as Hl.
  change (match emission be fe sc t d (attach t s) with
          | Ret _ s' => vtinfo_expression t s'
          | Abort t0 s' => Abort t0 s'
          end = match emission be fe sc t d (attach t s) with
                | Ret _ s' => Ret (VarExp d (getTypeInfoDeclaration_class t)) s'
                | Abort e s' => Abort e s'
                end).
  destruct (emission be fe sc t d (attach t s)) as [[] s'|e s']; [|done].
  simpl in Hl. destruct Hl as [Hlv _ Hlh].
  destruct (Hlh d _ Hh) as (decl' & Hd' & Hc & _).
  rewrite (vtinfo_expression_eq t s' d decl') by auto. by rewrite Hc.
Qed.

Lemma getTypeInfo_later sc this s :
  later_state s (final_state (getTypeInfo be fe sc this s)).
Proof.
  destruct (vtinfo_of (merge fe this) s) as [d|] eqn:Hv.
  - destruct (heap s !! d) as [decl|] eqn:Hd.
    + rewrite (getTypeInfo_attached sc this s d decl) by done.
      apply later_state_refl.
    + unfold getTypeInfo.
      rewrite (bind_Ret _ _ s (Some d) s) by (comp; by rewrite Hv).
      rewrite (bind_Ret _ _ s tt s) by done.
      unfold vtinfo_expression, load. comp. rewrite Hv. simpl. rewrite Hd. simpl.
      apply later_state_refl.
  - rewrite getTypeInfo_unattached by done.
    pose proof (emission_later sc (merge fe this) (length (heap s))
                  (attach (merge fe this) s)) as Hl.
    apply (later_state_trans _ (attach (merge fe this) s));
      [by apply later_state_attach|].
    by destruct (emission be fe sc _ _ _).
Qed.

Lemma getTypeInfo_well_formed sc this s :
  well_formed s → well_formed (final_state (getTypeInfo be fe sc this s)).
Proof.
  intros Hwf. destruct (vtinfo_of (merge fe this) s) as [d|] eqn:Hv.
  - destruct (wf_vtinfo s Hwf _ _ Hv) as (decl & Hd & _).
    by rewrite (getTypeInfo_attached sc this s d decl).
  - rewrite getTypeInfo_unattached by done.
    pose proof (emission_well_formed sc (merge fe this) (length (heap s))
                  (attach (merge fe this) s) (well_formed_attach _ _ Hwf)) as Hl.
    by destruct (emission be fe sc _ _ _).
Qed.

(** A call that returns leaves its result attached to the merged type. *)
Lemma getTypeInfo_Ret sc this s e s1 :
  getTypeInfo be fe sc this s = Ret e s1 →
  vtinfo_of (merge fe this) s1 = Some (var e) ∧
  ∃ decl, heap s1 !! var e = Some decl ∧ e_type e = tid_class decl.
Proof.
  destruct (vtinfo_of (merge fe this) s) as [d|] eqn:Hv.
  - unfold getTypeInfo.
    rewrite (bind_Ret _ _ s (Some d) s) by (comp; by rewrite Hv).
    rewrite (bind_Ret _ _ s tt s) by done.
    intros (-> & ? & ?)%vtinfo_expression_inv. done.
  - rewrite getTypeInfo_unattached by done.
    pose proof (emission_later sc (merge fe this) (length (heap s))
                  (attach (merge fe this) s)) as Hl.
    destruct (emission be fe sc _ _ _) as [[] s'|]; [|done].
    intros [= <- <-]. simpl in *. destruct Hl as [Hlv _ Hlh]. split.
    + apply Hlv. unfold attach. rewrite vtinfo_of_assign. by rewrite decide_True.
    + destruct (Hlh (length (heap s))
                  (fresh_declaration (getTypeInfoDeclaration_class (merge fe this))
                                     (merge fe this) false))
        as (decl' & Hd' & Hc & _); [by apply list_lookup_middle|].
      exists decl'. by rewrite Hc.
Qed.

(** In the semantic pass a call for a type without descriptor returns,
    with a new declaration. *)
Lemma getTypeInfo_new sc this s :
  vtinfo_of (merge fe this) s = None →
  is_Some sc ∨ builtinTypeInfo (merge fe this) = true →
  ∃ s1, getTypeInfo be fe sc this s
        = Ret (VarExp (length (heap s))
                      (getTypeInfoDeclaration_class (merge fe this))) s1.
Proof.
  intros Hv Hsc. rewrite getTypeInfo_unattached by done.
  pose proof (emission_returns sc (merge fe this) (length (heap s))
                (attach (merge fe this) s) Hsc) as Hr.
  destruct (emission be fe sc _ _ _) as [[] s'|]; [eauto|done].
Qed.
(** A descriptor that a call returned is what the later calls return, for
    every type with the same merged type. *)
Lemma getTypeInfo_memo sc1 sc2 t1 t2 s e s1 s2 :
  merge fe t1 = merge fe t2 →
  getTypeInfo be fe sc1 t1 s = Ret e s1 → later_state s1 s2 →
  getTypeInfo be fe sc2 t2 s2 = Ret e s2.
Proof.
  intros Hm H1 [Lv _ Lh].
  destruct (getTypeInfo_Ret _ _ _ _ _ H1) as (Hv & decl & Hd & He).
  destruct (Lh _ _ Hd) as (decl2 & Hd2 & Hc2 & _).
  rewrite (getTypeInfo_attached sc2 t2 s2 (var e) decl2);
    [|rewrite <- Hm; by apply Lv|done].
  destruct e as [d c]. simpl in *. congruence.
Qed.

End exact_descriptor.

(** *** [getInternalTypeInfo] *)

Section internal_descriptor.
Context (be : Backend) (fe : Frontend).

Lemma Linternal_cached t s tid decl :
  internalTI s !! ty t = Some tid → heap s !! tid = Some decl →
  Linternal t s = Ret (VarExp tid (tid_class decl)) s.
Proof. intros Hi Hd. unfold Linternal, load. comp. by rewrite Hi, Hd. Qed.

Lemma Linternal_new t s :
  internalTI s !! ty t = None →
  Linternal t s = Ret (VarExp (length (heap s)) TypeInfoDeclaration_)
                      (attach_internal t s).
Proof.
  intros Hi. unfold Linternal, load, new_TypeInfoDeclaration. comp. rewrite Hi.
  simpl. unfold fresh_declaration, attach_internal.
  by rewrite list_lookup_middle.
Qed.

Lemma Linternal_dangling t s tid :
  internalTI s !! ty t = Some tid → heap s !! tid = None →
  Linternal t s = Abort null_dereference s.
Proof. intros Hi Hd. unfold Linternal, load. comp. by rewrite Hi, Hd. Qed.

Lemma Linternal_later t s : later_state s (final_state (Linternal t s)).
Proof.
  destruct (internalTI s !! ty t) as [tid|] eqn:Hi.
  - destruct (heap s !! tid) as [decl|] eqn:Hd.
    + rewrite (Linternal_cached t s tid decl) by done. apply later_state_refl.
    + rewrite (Linternal_dangling t s tid) by done. apply later_state_refl.
  - rewrite Linternal_new by done. by apply later_state_attach_internal.
Qed.

Lemma Linternal_well_formed t s :
  well_formed s → well_formed (final_state (Linternal t s)).
Proof.
  intros Hwf. destruct (internalTI s !! ty t) as [tid|] eqn:Hi.
  - destruct (wf_internalTI s Hwf _ _ Hi) as (decl & Hd & _).
    by rewrite (Linternal_cached t s tid decl).
  - rewrite Linternal_new by done. by apply well_formed_attach_internal.
Qed.

(** A call that returns leaves its result in the slot of the kind. *)
Lemma Linternal_Ret t s e s1 :
  Linternal t s = Ret e s1 →
  internalTI s1 !! ty t = Some (var e) ∧
  ∃ decl, heap s1 !! var e = Some decl ∧ e_type e = tid_class decl.
Proof.
  destruct (internalTI s !! ty t) as [tid|] eqn:Hi.
  - destruct (heap s !! tid) as [decl|] eqn:Hd.
    + rewrite (Linternal_cached t s tid decl) by done. intros [= <- <-]. eauto.
    + by rewrite (Linternal_dangling t s tid).
  - rewrite Linternal_new by done. intros [= <- <-]. simpl.
    rewrite lookup_insert_eq. split; [done|].
    eexists. split; [by apply list_lookup_middle|done].
Qed.

Lemma getInternalTypeInfo_later sc this s :
  later_state s (final_state (getInternalTypeInfo be fe sc this s)).
Proof.
  unfold getInternalTypeInfo.
  destruct (toBasetype this) as [| | n | | | |sym| | | | |];
    try apply getTypeInfo_later; try apply Linternal_later.
  - destruct (bool_decide _); [apply getTypeInfo_later|apply Linternal_later].
  - destruct (isInterfaceDeclaration sym);
      [apply getTypeInfo_later|apply Linternal_later].
Qed.

Lemma getInternalTypeInfo_well_formed sc this s :
  well_formed s →
  well_formed (final_state (getInternalTypeInfo be fe sc this s)).
Proof.
  intros Hwf. unfold getInternalTypeInfo.
  destruct (toBasetype this) as [| | n | | | |sym| | | | |];
    try (by apply getTypeInfo_well_formed); try (by apply Linternal_well_formed).
  - destruct (bool_decide _);
      [by apply getTypeInfo_well_formed|by apply Linternal_well_formed].
  - destruct (isInterfaceDeclaration sym);
      [by apply getTypeInfo_well_formed|by apply Linternal_well_formed].
Qed.

End internal_descriptor.

(** The calls into the registry and the set-up and tear-down of the runtime
    module leave the tables of the canonicalizer as they are. *)
Lemma GetRuntimeFunction_frame be name s :
  let s' := final_state (LLVM_D_GetRuntimeFunction be name s) in
  vtinfo s' = vtinfo s ∧ internalTI s' = internalTI s ∧ heap s' = heap s.
Proof.
  assert (Hw : vtinfo (with_runtime be s) = vtinfo s ∧
               internalTI (with_runtime be s) = internalTI s ∧
               heap (with_runtime be s) = heap s).
  { unfold with_runtime. by destruct (M s). }
  destruct (noruntime s) eqn:Hnr.
  { by rewrite GetRuntimeFunction_noruntime. }
  destruct (getFunction (target s) name) as [[fn f]|] eqn:Ht.
  { by rewrite (GetRuntimeFunction_present be name s fn f). }
  destruct (getFunction (the_runtime be s) name) as [[i f]|] eqn:Hr.
  - destruct (insertable (target s) name) eqn:Hi.
    + by rewrite (GetRuntimeFunction_inserted be name s i f).
    + by rewrite (GetRuntimeFunction_blocked be name s i f).
  - by rewrite GetRuntimeFunction_missing.
Qed.

Lemma registry_frame be fe op s :
  match op with
  | GetTypeInfo _ _ | GetInternalTypeInfo _ _ | ToObjFile _ => True
  | _ => vtinfo (run be fe op s) = vtinfo s ∧
         internalTI (run be fe op s) = internalTI s ∧
         heap (run be fe op s) = heap s
  end.
Proof.
  destruct op as [name|name| | | | |]; simpl; try done.
  - apply GetRuntimeFunction_frame.
  - pose proof (GetRuntimeGlobal_frame be name s) as (? & ? & ? & _). done.
  - rewrite LLVM_D_InitRuntime_eq. simpl. unfold with_runtime. by destruct (M s).
  - by rewrite LLVM_D_FreeRuntime_eq.
Qed.

(** Every operation leads to a later state, and keeps the state well formed;
    so do the sequences of operations, from the initial state on. *)
Lemma run_later be fe op s : later_state s (run be fe op s).
Proof.
  pose proof (registry_frame be fe op s) as Hf.
  destruct op; simpl in *;
    try (destruct Hf as (? & ? & ?); by apply later_state_frame).
  - apply getTypeInfo_later.
  - apply getInternalTypeInfo_later.
  - apply toObjFile_later.
Qed.

Lemma run_well_formed be fe op s : well_formed s → well_formed (run be fe op s).
Proof.
  intros Hwf. pose proof (registry_frame be fe op s) as Hf.
  destruct op; simpl in *;
    try (destruct Hf as (? & ? & ?); by apply (well_formed_frame s)).
  - by apply getTypeInfo_well_formed.
  - by apply getInternalTypeInfo_well_formed.
  - by apply toObjFile_well_formed.
Qed.

Lemma run_all_later be fe ops s : later_state s (run_all be fe ops s).
Proof.
  revert s. induction ops as [|op ops IH]; intros s; simpl.
  - apply later_state_refl.
  - eapply later_state_trans; [apply (run_later be fe op)|apply IH].
Qed.

Lemma run_all_well_formed be fe ops s :
  well_formed s → well_formed (run_all be fe ops s).
Proof.
  revert s. induction ops as [|op ops IH]; intros s Hwf; simpl; [done|].
  by apply IH, run_well_formed.
Qed.

Lemma reachable_well_formed be fe ops nr tgt :
  well_formed (run_all be fe ops (initial_state nr tgt)).
Proof. apply run_all_well_formed, well_formed_initial. Qed.

(** ** The canonicalizer: properties *)

(** C1. [getTypeInfo] leaves the descriptor that it returns attached to the
    merged type, and every later call for a type with the same merged type,
    after any sequence of operations, returns that descriptor and changes
    nothing. The first call for a merged type without descriptor makes a new
    declaration; it returns in the semantic pass, and for the types with a
    TypeInfo in the runtime library. *)
Theorem single_descriptor be fe sc1 t1 t2 s :
  merge fe t1 = merge fe t2 →
  (vtinfo_of (merge fe t1) s = None →
   is_Some sc1 ∨ builtinTypeInfo (merge fe t1) = true →
   ∃ s1, getTypeInfo be fe sc1 t1 s
         = Ret (VarExp (length (heap s))
                       (getTypeInfoDeclaration_class (merge fe t1))) s1) ∧
  (∀ e s1, getTypeInfo be fe sc1 t1 s = Ret e s1 →
     vtinfo_of (merge fe t1) s1 = Some (var e) ∧
     (∀ sc2 s2, later_state s1 s2 → getTypeInfo be fe sc2 t2 s2 = Ret e s2) ∧
     (∀ sc2 ops, getTypeInfo be fe sc2 t2 (run_all be fe ops s1)
                 = Ret e (run_all be fe ops s1))).
Proof.
  intros Hm. split; [apply getTypeInfo_new|].
  intros e s1 H1. destruct (getTypeInfo_Ret be fe _ _ _ _ _ H1) as (Hv & _).
  split; [done|]. split.
  - intros sc2 s2 Hl. by apply (getTypeInfo_memo be fe sc1 sc2 t1 t2 s e s1 s2).
  - intros sc2 ops.
    apply (getTypeInfo_memo be fe sc1 sc2 t1 t2 s e s1); [done|done|].
    apply run_all_later.
Qed.

(** The struct [S], asked for in the semantic pass and again later. *)
Lemma single_descriptor_witness :
  ∃ s1, getTypeInfo example_backend example_frontend (Some example_scope) struct_S
          (initial_state false empty_target) = Ret (VarExp 0 TypeInfoStructDeclaration) s1 ∧
        getTypeInfo example_backend example_frontend None struct_S s1
        = Ret (VarExp 0 TypeInfoStructDeclaration) s1.
Proof.
  destruct (single_descriptor example_backend example_frontend (Some example_scope)
              struct_S struct_S (initial_state false empty_target) eq_refl)
    as [Hnew Hmemo].
  destruct Hnew as [s1 H1]; [reflexivity|left; by eexists|].
  exists s1. split; [exact H1|].
  destruct (Hmemo _ _ H1) as (_ & H2 & _). apply H2, later_state_refl.
Defined.

(** C6 (amended). The first call of [toObjFile] on a declaration sets the
    latch and makes one call of [LLVM_D_GetRuntimeGlobal], for the mangled
    name of the declaration. With [M] null or built, the call resolves the
    storage exactly if the target has a global variable of that name: the
    storage of the declaration is that variable of the target, and nothing
    else of the state changes; if the target has none, the compilation ends
    with a fatal diagnostic, that of the policy if [noruntime] is set and
    else the one that names the missing global, the latch being set and the
    storage unresolved. In both cases, in every later state, after any
    sequence of operations, a call of [toObjFile] on the declaration returns
    at once and changes nothing. *)
Theorem idempotent_emission be fe d decl s :
  heap s !! d = Some decl → llvmTouched decl = false →
  M s = None ∨ (∃ opaque, M s = Some (runtime_module be opaque)) →
  (∀ gv g,
     getNamedGlobal (target s) (mangle fe (tinfo decl) (internal decl)) = Some (gv, g) →
     toObjFile be fe d s = Ret tt (set_heap (<[d := resolved decl gv]> (heap s)) s) ∧
     GlobalList (target s) !! gv = Some g ∧
     gv_name g = mangle fe (tinfo decl) (internal decl) ∧
     (∀ s2, later_state (set_heap (<[d := resolved decl gv]> (heap s)) s) s2 →
        toObjFile be fe d s2 = Ret tt s2 ∧
        ∃ decl2, heap s2 !! d = Some decl2 ∧ llvmValue decl2 = Some gv) ∧
     (∀ ops,
        toObjFile be fe d
          (run_all be fe ops (set_heap (<[d := resolved decl gv]> (heap s)) s))
        = Ret tt (run_all be fe ops (set_heap (<[d := resolved decl gv]> (heap s)) s)))) ∧
  (getNamedGlobal (target s) (mangle fe (tinfo decl) (internal decl)) = None →
   ∃ s1,
     toObjFile be fe d s
     = Abort (fatal (if noruntime s then noruntime_diagnostic
                     else "Runtime global '"
                          +:+ mangle fe (tinfo decl) (internal decl)
                          +:+ "' was not found")) s1 ∧
     heap s1 = <[d := latched decl]> (heap s) ∧
     target s1 = target s ∧
     (∀ s2, later_state s1 s2 →
        toObjFile be fe d s2 = Ret tt s2 ∧
        ∃ decl2, heap s2 !! d = Some decl2 ∧ llvmValue decl2 = llvmValue decl) ∧
     (∀ ops, toObjFile be fe d (run_all be fe ops s1)
             = Ret tt (run_all be fe ops s1))).
Proof.
  intros Hd Ht HM. pose proof (toObjFile_first be fe d decl s Hd Ht) as Hf.
  set (name := mangle fe (tinfo decl) (internal decl)) in *.
  set (s0 := set_heap (<[d := latched decl]> (heap s)) s) in *.
  assert (Hlt : (d < length (heap s))%nat) by (by eapply lookup_lt_Some).
  assert (Hlater : ∀ s1 decl1, heap s1 !! d = Some decl1 → llvmTouched decl1 = true →
            ∀ s2, later_state s1 s2 →
              toObjFile be fe d s2 = Ret tt s2 ∧
              ∃ decl2, heap s2 !! d = Some decl2 ∧ llvmValue decl2 = llvmValue decl1).
  { intros s1 decl1 H1 Ht1 s2 [_ _ Lh].
    destruct (Lh d _ H1) as (decl2 & Hd2 & _ & _ & _ & Hl2).
    destruct (Hl2 Ht1) as [Ht2 Hv2]. split.
    + by apply (toObjFile_again be fe d decl2).
    + by exists decl2. }
  split.
  - intros gv g Hg.
    rewrite (GetRuntimeGlobal_present be name s0 gv g Hg) in Hf.
    assert (Hs1 : set_heap (<[d := resolved decl gv]> (heap s0)) s0
                  = set_heap (<[d := resolved decl gv]> (heap s)) s).
    { unfold s0, set_heap. cbn [heap noruntime M target vtinfo internalTI members
                                opaques].
      by rewrite list_insert_insert_eq. }
    rewrite Hs1 in Hf. split; [exact Hf|].
    destruct (getNamedGlobal_Some _ _ _ _ Hg) as [Hgv Hname].
    split; [exact Hgv|]. split; [exact Hname|].
    assert (Hr : heap (set_heap (<[d := resolved decl gv]> (heap s)) s) !! d
                 = Some (resolved decl gv))
      by (cbn [heap set_heap]; by apply list_lookup_insert_eq).
    split.
    + intros s2 Hl. exact (Hlater _ _ Hr eq_refl s2 Hl).
    + intros ops. eapply Hlater; [exact Hr|reflexivity|apply run_all_later].
  - intros Hg.
    assert (Hl0 : heap s0 !! d = Some (latched decl))
      by (cbn [heap set_heap s0]; by apply list_lookup_insert_eq).
    destruct (noruntime s) eqn:Hnr.
    + rewrite (GetRuntimeGlobal_noruntime be name s0 Hg Hnr) in Hf.
      exists s0. split; [exact Hf|]. split; [reflexivity|]. split; [reflexivity|].
      split.
      * intros s2 Hl. exact (Hlater _ _ Hl0 eq_refl s2 Hl).
      * intros ops. eapply Hlater; [exact Hl0|reflexivity|apply run_all_later].
    + assert (Hr : getNamedGlobal (the_runtime be s0) name = None).
      { destruct (the_runtime_built be s0 HM) as [opaque ->].
        unfold getNamedGlobal. rewrite runtime_module_globals. reflexivity. }
      rewrite (GetRuntimeGlobal_missing be name s0 Hg Hnr Hr) in Hf.
      exists (with_runtime be s0). split; [exact Hf|].
      destruct (frame_with_runtime be s0) as (_ & Htg & _ & _ & Hh & _).
      split; [exact Hh|]. split; [exact Htg|].
      assert (Hl1 : heap (with_runtime be s0) !! d = Some (latched decl))
        by (by rewrite Hh).
      split.
      * intros s2 Hl. exact (Hlater _ _ Hl1 eq_refl s2 Hl).
      * intros ops. eapply Hlater; [exact Hl1|reflexivity|apply run_all_later].
Qed.

(** The descriptor of the struct [S], emitted twice into a target that has
    the variable of its mangled name. *)
Lemma idempotent_emission_witness :
  ∃ s1, toObjFile example_backend example_frontend 0 state_before_emission = Ret tt s1 ∧
        toObjFile example_backend example_frontend 0 s1 = Ret tt s1 ∧
        getNamedGlobal (target s1) "_D_exact"
        = Some (0%nat, mkGlobalVariable "_D_exact" (StructTy [PointerTy Int8Ty]) false
                                        ExternalLinkage false) ∧
        ∃ decl, heap s1 !! 0%nat = Some decl ∧ llvmValue decl = Some 0%nat.
Proof.
  destruct (idempotent_emission example_backend example_frontend 0
              (fresh_declaration TypeInfoStructDeclaration struct_S false)
              state_before_emission eq_refl eq_refl (or_introl eq_refl)) as [H _].
  destruct (H 0%nat
              (mkGlobalVariable "_D_exact" (StructTy [PointerTy Int8Ty]) false
                                ExternalLinkage false) eq_refl)
    as (H1 & _ & _ & H2 & _).
  eexists. split; [exact H1|].
  destruct (H2 _ (later_state_refl _)) as [H3 H4].
  split; [exact H3|]. split; [reflexivity|exact H4].
Defined.

(** C6, as stated, fails: the first call of [toObjFile] on the descriptor of
    the struct [S], with the implicit calls allowed and a target that has no
    variable of the mangled name, resolves no storage: the runtime module
    has no global variable to refer to, and the compilation ends with the
    diagnostic that the runtime global was not found, the latch set and the
    storage null. *)
Lemma idempotent_emission_counterexample :
  let s := final_state (getTypeInfo example_backend example_frontend
                          (Some example_scope) struct_S
                          (initial_state false empty_target)) in
  heap s !! 0%nat = Some (fresh_declaration TypeInfoStructDeclaration struct_S false) ∧
  toObjFile example_backend example_frontend 0 s
  = Abort (fatal "Runtime global '_D_exact' was not found")
          (with_runtime example_backend
             (set_heap [latched (fresh_declaration TypeInfoStructDeclaration
                                                   struct_S false)] s)) ∧
  llvmValue (latched (fresh_declaration TypeInfoStructDeclaration struct_S false))
  = None.
Proof. split; [reflexivity|]. split; [vm_compute; reflexivity|reflexivity]. Qed.

Section collapse.
Context (be : Backend) (fe : Frontend).

(** Static and dynamic arrays of an element type that is not a class. *)
Lemma static_array_as_dynamic sc1 sc2 T n s e s1 s2 :
  ty T ≠ Tclass → later_state s1 s2 →
  (getInternalTypeInfo be fe sc1 (TypeSArray T n) s = Ret e s1 →
   getInternalTypeInfo be fe sc2 (TypeDArray T) s2 = Ret e s2) ∧
  (getInternalTypeInfo be fe sc1 (TypeDArray T) s = Ret e s1 →
   getInternalTypeInfo be fe sc2 (TypeSArray T n) s2 = Ret e s2).
Proof.
  intros HT Hl.
  assert (Hb : bool_decide (ty T ≠ Tclass) = true) by by apply bool_decide_eq_true.
  unfold getInternalTypeInfo, arrayOf. simpl. rewrite Hb.
  split; intros H1;
    exact (getTypeInfo_memo be fe sc1 sc2 (TypeDArray T) (TypeDArray T) s e s1 s2
             eq_refl H1 Hl).
Qed.

(** The placeholder of a kind whose types all go to [Linternal]. *)
Lemma Linternal_memo t1 t2 s e s1 s2 :
  ty t1 = ty t2 → Linternal t1 s = Ret e s1 → later_state s1 s2 →
  internalTI s1 !! ty t1 = Some (var e) ∧ Linternal t2 s2 = Ret e s2.
Proof.
  intros Hty (Hi & decl & Hd & He)%Linternal_Ret [_ Li Lh]. split; [done|].
  destruct (Lh _ _ Hd) as (decl2 & Hd2 & Hc2 & _).
  rewrite (Linternal_cached t2 s2 (var e) decl2); [|rewrite <- Hty; by apply Li|done].
  destruct e as [d c]. simpl in *. congruence.
Qed.

(** The descriptor of an interface is in no slot of [internalTI]. *)
Lemma interface_not_collapsed sc sym s e s1 s2 :
  isInterfaceDeclaration sym = true → well_formed s →
  getInternalTypeInfo be fe sc (TypeClass sym) s = Ret e s1 →
  later_state s1 s2 → well_formed s2 →
  vtinfo_of (merge fe (TypeClass sym)) s2 = Some (var e) ∧
  ∀ k, internalTI s2 !! k ≠ Some (var e).
Proof.
  intros Hsym Hwf. unfold getInternalTypeInfo. simpl.
  rewrite Hsym. intros H1 [Lv _ Lh] Hwf2.
  pose proof (getTypeInfo_well_formed be fe sc (TypeClass sym) s Hwf) as Hwf1.
  rewrite H1 in Hwf1. simpl in Hwf1.
  destruct (getTypeInfo_Ret be fe _ _ _ _ _ H1) as (Hv & _).
  destruct (wf_vtinfo s1 Hwf1 _ _ Hv) as (decl & Hd & Hin).
  destruct (Lh _ _ Hd) as (decl2 & Hd2 & _ & _ & Hin2 & _).
  split; [by apply Lv|]. intros k Hk.
  destruct (wf_internalTI s2 Hwf2 _ _ Hk) as (decl3 & Hd3 & Hin3). congruence.
Qed.

End collapse.

(** C5 (amended). For an element type [T] that is not of kind class,
    [getInternalTypeInfo] gives the static arrays of [T] the descriptor that it
    gives the dynamic array of [T], in either order of the calls. All
    function types get the one placeholder of the slot [Tfunction] of
    [internalTI]: the first call that finds the slot empty makes it, and the
    later calls return it and change nothing. An interface type gets its own
    descriptor through [getTypeInfo], which is in no slot of [internalTI],
    in any state that the operations reach. For an element type of kind
    class, the static array is given the exact descriptor of the dynamic
    array, and the dynamic array the placeholder of the slot [Tarray]. The
    descriptor that the arrays of an element type not of kind class get is
    the exact descriptor of the dynamic array: the call leaves it attached
    to the merged type of the dynamic array. *)
Theorem collapse_correctness be fe :
  (∀ sc1 sc2 T n s e s1 s2,
     ty T ≠ Tclass → later_state s1 s2 →
     (getInternalTypeInfo be fe sc1 (TypeSArray T n) s = Ret e s1 →
      getInternalTypeInfo be fe sc2 (TypeDArray T) s2 = Ret e s2) ∧
     (getInternalTypeInfo be fe sc1 (TypeDArray T) s = Ret e s1 →
      getInternalTypeInfo be fe sc2 (TypeSArray T n) s2 = Ret e s2)) ∧
  (∀ sc1 sc2 ps1 r1 v1 ps2 r2 v2 s,
     (internalTI s !! Tfunction = None →
      getInternalTypeInfo be fe sc1 (TypeFunction ps1 r1 v1) s
      = Ret (VarExp (length (heap s)) TypeInfoDeclaration_)
            (attach_internal (TypeFunction ps1 r1 v1) s)) ∧
     (∀ e s1 s2,
        getInternalTypeInfo be fe sc1 (TypeFunction ps1 r1 v1) s = Ret e s1 →
        later_state s1 s2 →
        internalTI s1 !! Tfunction = Some (var e) ∧
        getInternalTypeInfo be fe sc2 (TypeFunction ps2 r2 v2) s2 = Ret e s2)) ∧
  (∀ sc sym s e s1 s2,
     isInterfaceDeclaration sym = true → well_formed s →
     getInternalTypeInfo be fe sc (TypeClass sym) s = Ret e s1 →
     later_state s1 s2 → well_formed s2 →
     vtinfo_of (merge fe (TypeClass sym)) s2 = Some (var e) ∧
     ∀ k, internalTI s2 !! k ≠ Some (var e)) ∧
  (∀ sc sym nr tgt before after e s1,
     isInterfaceDeclaration sym = true →
     getInternalTypeInfo be fe sc (TypeClass sym)
       (run_all be fe before (initial_state nr tgt)) = Ret e s1 →
     ∀ k, internalTI (run_all be fe after s1) !! k ≠ Some (var e)) ∧
  (∀ sc T n s,
     ty T = Tclass →
     getInternalTypeInfo be fe sc (TypeSArray T n) s
     = getTypeInfo be fe sc (TypeDArray T) s ∧
     getInternalTypeInfo be fe sc (TypeDArray T) s = Linternal (TypeDArray T) s) ∧
  (∀ sc T n s e s1,
     ty T ≠ Tclass →
     getInternalTypeInfo be fe sc (TypeSArray T n) s = Ret e s1 ∨
     getInternalTypeInfo be fe sc (TypeDArray T) s = Ret e s1 →
     vtinfo_of (merge fe (TypeDArray T)) s1 = Some (var e)).
Proof.
  split; [|split; [|split; [|split; [|split]]]]; cycle 4.
  { intros sc T n s HT. split; [done|].
    unfold getInternalTypeInfo. simpl. by rewrite bool_decide_eq_false_2 by auto. }
  { intros sc T n s e s1 HT.
    assert (Hb : bool_decide (ty T ≠ Tclass) = true) by by apply bool_decide_eq_true.
    unfold getInternalTypeInfo, arrayOf. simpl. rewrite Hb.
    intros [H|H]; by destruct (getTypeInfo_Ret be fe _ _ _ _ _ H) as [Hv _]. }
  - apply static_array_as_dynamic.
  - intros sc1 sc2 ps1 r1 v1 ps2 r2 v2 s. split.
    + intros Hi. unfold getInternalTypeInfo. simpl.
      by rewrite (Linternal_new (TypeFunction ps1 r1 v1) s).
    + intros e s1 s2. unfold getInternalTypeInfo. simpl.
      by apply (Linternal_memo (TypeFunction ps1 r1 v1) (TypeFunction ps2 r2 v2)).
  - apply interface_not_collapsed.
  - intros sc sym nr tgt before after e s1 Hsym H1.
    pose proof (reachable_well_formed be fe before nr tgt) as Hwf.
    eapply (interface_not_collapsed be fe sc sym _ e s1); [done|exact Hwf|done| |].
    + apply run_all_later.
    + apply run_all_well_formed.
      pose proof (getInternalTypeInfo_well_formed be fe sc (TypeClass sym) _ Hwf)
        as Hwf1.
      by rewrite H1 in Hwf1.
Qed.

(** Arrays of the struct [S], two function types and the interface [I], from
    the initial state. *)
Lemma collapse_correctness_witness :
  let s := initial_state false empty_target in
  (∃ e s1, getInternalTypeInfo example_backend example_frontend (Some example_scope)
             (TypeSArray struct_S 4) s = Ret e s1 ∧
           getInternalTypeInfo example_backend example_frontend (Some example_scope)
             (TypeDArray struct_S) s1 = Ret e s1) ∧
  (∃ e s1, getInternalTypeInfo example_backend example_frontend None function_int s
           = Ret e s1 ∧
           getInternalTypeInfo example_backend example_frontend None function_void s1
           = Ret e s1) ∧
  (∃ e s1, getInternalTypeInfo example_backend example_frontend (Some example_scope)
             interface_I s = Ret e s1 ∧
           ∀ k, internalTI s1 !! k ≠ Some (var e)).
Proof.
  destruct (collapse_correctness example_backend example_frontend)
    as (Ha & Hf & Hi & _).
  split; [|split].
  - eexists _, _. split; [reflexivity|].
    refine (proj1 (Ha (Some example_scope) (Some example_scope) struct_S 4%Z
                      (initial_state false empty_target) _ _ _ _ _) _).
    + discriminate.
    + apply later_state_refl.
    + reflexivity.
  - eexists _, _. split; [reflexivity|].
    refine (proj2 (proj2 (Hf None None _ _ _ _ _ _ (initial_state false empty_target))
                     _ _ _ _ _)).
    + reflexivity.
    + apply later_state_refl.
  - eexists _, _. split; [reflexivity|].
    refine (proj2 (Hi (Some example_scope) (mkClassDeclaration "I" true)
                      (initial_state false empty_target) _ _ _ _ _ _ _ _)).
    + reflexivity.
    + apply well_formed_initial.
    + reflexivity.
    + apply later_state_refl.
    + apply (getInternalTypeInfo_well_formed example_backend example_frontend
               (Some example_scope) interface_I (initial_state false empty_target)),
        well_formed_initial.
Defined.

(** C5, as stated, fails: for a class [C], the static array of [C] gets the
    exact descriptor of the dynamic array of [C] (declaration 0), while the
    dynamic array of [C] gets the placeholder of the slot [Tarray]
    (declaration 1). *)
Lemma collapse_correctness_counterexample :
  let o1 := getInternalTypeInfo example_backend example_frontend (Some example_scope)
              (TypeSArray class_C 3) (initial_state false empty_target) in
  let o2 := getInternalTypeInfo example_backend example_frontend (Some example_scope)
              (TypeDArray class_C) (final_state o1) in
  (∃ s1, o1 = Ret (VarExp 0 TypeInfoArrayDeclaration) s1) ∧
  (∃ s2, o2 = Ret (VarExp 1 TypeInfoDeclaration_) s2).
Proof. split; eexists; vm_compute; reflexivity. Qed.

(** C9. The construction of the layout of a descriptor inside the compiler is
    dead code: [createTypeInfoArray] and the function [toDt] of every class of
    TypeInfo declaration stop at a failing assertion, on every input and
    without a change of the state; no call of them returns. *)
Theorem layout_construction_dead :
  (∀ sc args dim s,
     createTypeInfoArray sc args dim s = Abort (assertion_failure "0") s) ∧
  (∀ (dt : Type) c (pdt : dt) s,
     toDt_of c pdt s = Abort (assertion_failure (toDt_text c)) s) ∧
  (∀ (dt : Type) d decl (pdt : dt) s,
     heap s !! d = Some decl →
     toDt d pdt s = Abort (assertion_failure (toDt_text (tid_class decl))) s) ∧
  (∀ (dt : Type) d (pdt : dt) s, returned (toDt d pdt s) = false).
Proof.
  split; [done|]. split; [done|]. split.
  - intros dt d decl pdt s Hd. unfold toDt.
    by rewrite (bind_Ret _ _ _ _ _ (load_Some _ _ _ Hd)).
  - intros dt d pdt s. unfold toDt. destruct (heap s !! d) as [decl|] eqn:Hd.
    + by rewrite (bind_Ret _ _ _ _ _ (load_Some _ _ _ Hd)).
    + by rewrite (bind_Abort _ _ _ _ _ (load_None _ _ Hd)).
Qed.

Lemma set_M_None_id s : M s = None → set_M None s = s.
Proof. destruct s. simpl. by intros ->. Qed.

(** C10. [LLVM_D_InitRuntime] builds the runtime module only if [M] is null,
    so that a second call changes nothing; [LLVM_D_FreeRuntime] sets [M] to
    null and changes nothing if it is null already. Besides [M], and the
    opaque type that a construction takes, both leave the state as it is: the
    flag of the policy, the descriptors attached to types, the table
    [internalTI], the declarations, the target and the members of the modules.
    A descriptor or a placeholder memoized before [LLVM_D_FreeRuntime] is
    returned, unchanged, by the calls after it. *)
Theorem runtime_lifecycle_frame be fe s :
  (LLVM_D_InitRuntime be s = Ret true (with_runtime be s) ∧
   M (with_runtime be s) = Some (the_runtime be s) ∧
   LLVM_D_InitRuntime be (with_runtime be s) = Ret true (with_runtime be s)) ∧
  (LLVM_D_FreeRuntime s = Ret tt (set_M None s) ∧
   (M s = None → LLVM_D_FreeRuntime s = Ret tt s)) ∧
  (∀ s', s' = with_runtime be s ∨ s' = set_M None s →
     noruntime s' = noruntime s ∧ target s' = target s ∧ vtinfo s' = vtinfo s ∧
     internalTI s' = internalTI s ∧ heap s' = heap s ∧ members s' = members s) ∧
  (∀ sc t d decl,
     vtinfo_of (merge fe t) s = Some d → heap s !! d = Some decl →
     getTypeInfo be fe sc t (set_M None s)
     = Ret (VarExp d (tid_class decl)) (set_M None s)) ∧
  (∀ t tid decl,
     internalTI s !! ty t = Some tid → heap s !! tid = Some decl →
     Linternal t (set_M None s) = Ret (VarExp tid (tid_class decl)) (set_M None s)).
Proof.
  split; [|split; [|split; [|split]]].
  - split; [apply LLVM_D_InitRuntime_eq|]. split; [apply M_with_runtime|].
    rewrite LLVM_D_InitRuntime_eq. by rewrite with_runtime_idemp.
  - split; [apply LLVM_D_FreeRuntime_eq|].
    intros HM. rewrite LLVM_D_FreeRuntime_eq. by rewrite set_M_None_id.
  - intros s' [-> | ->]; [|done]. unfold with_runtime. by destruct (M s).
  - intros sc t d decl Hv Hd. by apply getTypeInfo_attached.
  - intros t tid decl Hi Hd. by apply Linternal_cached.
Qed.

(** ** The registry: further properties of the calls *)

Section registry_more.
Context (be : Backend).

(** The five ways in which [LLVM_D_GetRuntimeFunction] ends. *)
Lemma GetRuntimeFunction_cases name s :
  (noruntime s = true ∧
   LLVM_D_GetRuntimeFunction be name s = Abort (fatal noruntime_diagnostic) s) ∨
  (noruntime s = false ∧ ∃ fn f, getFunction (target s) name = Some (fn, f) ∧
   LLVM_D_GetRuntimeFunction be name s = Ret fn (with_runtime be s)) ∨
  (noruntime s = false ∧ getFunction (target s) name = None ∧
   insertable (target s) name = true ∧
   ∃ i f, getFunction (the_runtime be s) name = Some (i, f) ∧
   LLVM_D_GetRuntimeFunction be name s
   = Ret (length (FunctionList (target s)))
         (set_target
            (mkLModule (ModuleID (target s))
               (FunctionList (target s) ++ [declaration_of f])
               (given_way be (target s) name))
            (with_runtime be s))) ∨
  (noruntime s = false ∧ getFunction (target s) name = None ∧
   insertable (target s) name = false ∧
   is_Some (getFunction (the_runtime be s) name) ∧
   LLVM_D_GetRuntimeFunction be name s
   = Abort (assertion_failure "cast<Ty>() argument of incompatible type!")
           (with_runtime be s)) ∨
  (noruntime s = false ∧ getFunction (target s) name = None ∧
   getFunction (the_runtime be s) name = None ∧
   LLVM_D_GetRuntimeFunction be name s
   = Abort (assertion_failure ("Runtime function '" +:+ name +:+ "' was not found"))
           (with_runtime be s)).
Proof.
  destruct (noruntime s) eqn:Hnr.
  { left. split; [done|]. by apply GetRuntimeFunction_noruntime. }
  right. destruct (getFunction (target s) name) as [[fn f]|] eqn:Ht.
  { left. split; [done|]. exists fn, f. split; [done|].
    by eapply GetRuntimeFunction_present. }
  right. destruct (getFunction (the_runtime be s) name) as [[i f]|] eqn:Hr.
  - destruct (insertable (target s) name) eqn:Hi.
    + left. split; [done|]. split; [done|]. split; [done|]. exists i, f.
      split; [done|]. by apply (GetRuntimeFunction_inserted be name s i f).
    + right. left. split; [done|]. split; [done|]. split; [done|].
      split; [by eexists|]. by apply (GetRuntimeFunction_blocked be name s i f).
  - right. right. split; [done|]. split; [done|]. split; [done|].
    by apply GetRuntimeFunction_missing.
Qed.

End registry_more.

(** X1. [LLVM_D_GetRuntimeFunction] returns exactly when [noruntime] is clear
    and either the target has a function of the name, or the runtime module
    has one and no global variable of the target stands in the way of the
    name. A call that does not return leaves the target as it was; for a name
    that neither module has a function of, it stops at the assertion after
    the message that the runtime function was not found, and for a name of
    the runtime module that a variable of the target stands in the way of, at
    the failed cast of what [getOrInsertFunction] returned. *)
Theorem fetch_function_returns_iff be name s :
  (returned (LLVM_D_GetRuntimeFunction be name s) = true ↔
   noruntime s = false ∧
   (is_Some (getFunction (target s) name) ∨
    (is_Some (getFunction (the_runtime be s) name) ∧
     insertable (target s) name = true))) ∧
  (returned (LLVM_D_GetRuntimeFunction be name s) = false →
   target (final_state (LLVM_D_GetRuntimeFunction be name s)) = target s) ∧
  (noruntime s = false →
   getFunction (target s) name = None →
   getFunction (the_runtime be s) name = None →
   LLVM_D_GetRuntimeFunction be name s
   = Abort (assertion_failure ("Runtime function '" +:+ name +:+ "' was not found"))
           (with_runtime be s)) ∧
  (noruntime s = false →
   getFunction (target s) name = None →
   is_Some (getFunction (the_runtime be s) name) →
   insertable (target s) name = false →
   LLVM_D_GetRuntimeFunction be name s
   = Abort (assertion_failure "cast<Ty>() argument of incompatible type!")
           (with_runtime be s)).
Proof.
  split; [|split; [|split]].
  - destruct (GetRuntimeFunction_cases be name s)
      as [[Hnr ->]|[(Hnr & fn & f & Ht & ->)|[(Hnr & Ht & Hi & i & f & Hr & ->)
         |[(Hnr & Ht & Hi & Hr & ->)|(Hnr & Ht & Hr & ->)]]]];
      cbn [returned].
    + split; [done|]. intros [? _]. congruence.
    + split; [|done]. intros _. split; [done|]. left. rewrite Ht. by eexists.
    + split; [|done]. intros _. split; [done|]. right. rewrite Hr.
      split; [by eexists|done].
    + split; [done|]. intros [_ [[x Hx]|[_ Hx]]]; congruence.
    + split; [done|]. intros [_ [[x Hx]|[[x Hx] _]]]; congruence.
  - destruct (GetRuntimeFunction_cases be name s)
      as [[Hnr ->]|[(Hnr & fn & f & Ht & ->)|[(Hnr & Ht & Hi & i & f & Hr & ->)
         |[(Hnr & Ht & Hi & Hr & ->)|(Hnr & Ht & Hr & ->)]]]];
      cbn [returned final_state]; try done;
      intros _; apply target_with_runtime.
  - intros. by apply GetRuntimeFunction_missing.
  - intros Hnr Ht [[i f] Hr] Hi.
    by apply (GetRuntimeFunction_blocked be name s i f).
Qed.


(** X3. The runtime module that [LLVM_D_BuildRuntimeModule] builds has no
    global variable. So, with [M] null or built by it,
    [LLVM_D_GetRuntimeGlobal] never adds a variable to the target: it returns
    exactly when the target already has a variable of the name, and for
    another name ends the compilation, with the diagnostic of the policy if
    [noruntime] is set and else with the diagnostic that the runtime global
    was not found. *)
Theorem fetch_global_never_declares be name s :
  M s = None ∨ (∃ opaque, M s = Some (runtime_module be opaque)) →
  target (final_state (LLVM_D_GetRuntimeGlobal be name s)) = target s ∧
  (returned (LLVM_D_GetRuntimeGlobal be name s) = true ↔
   is_Some (getNamedGlobal (target s) name)) ∧
  (getNamedGlobal (target s) name = None →
   LLVM_D_GetRuntimeGlobal be name s
   = if noruntime s then Abort (fatal noruntime_diagnostic) s
     else Abort (fatal ("Runtime global '" +:+ name +:+ "' was not found"))
                (with_runtime be s)).
Proof.
  intros HM.
  assert (Hr : getNamedGlobal (the_runtime be s) name = None).
  { destruct (the_runtime_built be s HM) as [opaque ->]. unfold getNamedGlobal.
    by rewrite runtime_module_globals. }
  destruct (getNamedGlobal (target s) name) as [[gv g]|] eqn:Ht.
  { rewrite (GetRuntimeGlobal_present be name s gv g Ht). cbn [final_state returned].
    split; [done|]. split; [|done]. split; [by eexists|done]. }
  destruct (noruntime s) eqn:Hnr.
  - rewrite (GetRuntimeGlobal_noruntime be name s Ht Hnr). cbn [final_state returned].
    split; [done|]. split; [|done]. split; [done|]. by intros [? ?].
  - rewrite (GetRuntimeGlobal_missing be name s Ht Hnr Hr). cbn [final_state returned].
    split; [apply target_with_runtime|]. split; [|done].
    split; [done|]. by intros [? ?].
Qed.

(** A call for the mangled name of a descriptor, on an empty target. *)
Lemma fetch_global_never_declares_witness :
  LLVM_D_GetRuntimeGlobal example_backend "_D_exact" (initial_state false empty_target)
  = Abort (fatal "Runtime global '_D_exact' was not found")
          (with_runtime example_backend (initial_state false empty_target)).
Proof.
  refine (proj2 (proj2 (fetch_global_never_declares example_backend "_D_exact"
                          (initial_state false empty_target) _)) _).
  - left. reflexivity.
  - reflexivity.
Defined.

(** X4. For a runtime module in [M] that has a global variable of the name,
    [noruntime] clear and a target without variable of the name,
    [LLVM_D_GetRuntimeGlobal] adds to the end of the target a variable with
    the element type, the constness and the linkage of the one of the runtime
    module and without initializer; the functions of the target and [M] stay
    as they are. The variable bears the name asked for if the target has no
    function of that name, and then a second call returns the same variable
    and changes nothing; if a function of the target bears the name, the
    variable gets the name that the symbol table gives it. *)
Theorem fetch_global_copies be name s rm i g :
  M s = Some rm →
  getNamedGlobal rm name = Some (i, g) →
  getNamedGlobal (target s) name = None →
  noruntime s = false →
  ∃ s1,
    LLVM_D_GetRuntimeGlobal be name s = Ret (length (GlobalList (target s))) s1 ∧
    GlobalList (target s1)
    = (GlobalList (target s) ++
       [mkGlobalVariable
          (if getFunction (target s) name is None then name
           else uniqueName be (symbols (target s)) name)
          (gv_elemtype g) (gv_isConstant g) (gv_linkage g) false])%list ∧
    FunctionList (target s1) = FunctionList (target s) ∧
    M s1 = Some rm ∧
    (getFunction (target s) name = None →
     LLVM_D_GetRuntimeGlobal be name s1 = Ret (length (GlobalList (target s))) s1).
Proof.
  intros HM Hg Ht Hnr.
  assert (Hthe : the_runtime be s = rm) by (unfold the_runtime; by rewrite HM).
  assert (Hw : with_runtime be s = s) by (unfold with_runtime; by rewrite HM).
  eexists. split.
  { apply (GetRuntimeGlobal_absent be name s i g); [done|done|by rewrite Hthe]. }
  rewrite Hw. cbn [target set_target GlobalList FunctionList M].
  split; [done|]. split; [done|]. split; [done|].
  intros Hf. rewrite Hf. eapply GetRuntimeGlobal_present. cbn [target set_target].
  set (g' := mkGlobalVariable name (gv_elemtype g) (gv_isConstant g) (gv_linkage g)
                              false).
  apply (getNamedGlobal_snoc (target s) g'), Ht.
Qed.

Lemma fetch_global_copies_witness :
  ∃ s1,
    LLVM_D_GetRuntimeGlobal example_backend "_D_exact"
      (set_M (Some runtime_with_global) (initial_state false empty_target)) = Ret 0 s1 ∧
    GlobalList (target s1)
    = [mkGlobalVariable "_D_exact" (StructTy [PointerTy Int8Ty]) true WeakLinkage false].
Proof.
  destruct (fetch_global_copies example_backend "_D_exact"
              (set_M (Some runtime_with_global) (initial_state false empty_target))
              runtime_with_global 0
              (mkGlobalVariable "_D_exact" (StructTy [PointerTy Int8Ty]) true
                                WeakLinkage true)
              eq_refl eq_refl eq_refl eq_refl) as (s1 & H1 & H2 & _).
  exists s1. split; [exact H1|exact H2].
Defined.

(** The functions of a name in the catalogues of two constructions: at the
    same place, with the same name and attribute list. *)
Lemma find_named (l l' : list Function) name :
  (λ f, (fn_name f, fn_attrs f)) <$> l = (λ f, (fn_name f, fn_attrs f)) <$> l' →
  match list_find (λ f, fn_name f = name) l, list_find (λ f, fn_name f = name) l' with
  | Some (i, f), Some (i', f') => i' = i ∧ fn_name f' = fn_name f ∧ fn_attrs f' = fn_attrs f
  | None, None => True
  | _, _ => False
  end.
Proof.
  revert l'. induction l as [|f l IH]; intros [|f' l'] H; try done.
  injection H as Hn Ha Hl. specialize (IH l' Hl). cbn [list_find].
  destruct (decide (fn_name f = name)) as [Hf|Hf],
           (decide (fn_name f' = name)) as [Hf'|Hf']; try congruence.
  - done.
  - destruct (list_find _ l) as [[? ?]|], (list_find _ l') as [[? ?]|];
      cbn in *; try done. destruct IH as (-> & ? & ?). done.
Qed.

(** The runtime modules of two opaque types differ if [getPtrToType] tells
    the types apart: the type of [_aaLen] has the pointer in it. *)
Lemma runtime_module_opaque be opaque opaque' :
  getPtrToType be opaque ≠ getPtrToType be opaque' →
  runtime_module be opaque ≠ runtime_module be opaque'.
Proof.
  intros Hne Heq.
  assert (H : ∀ op, signature_of (runtime_module be op) "_aaLen"
                    = Some (FunctionTy (DtoSize_t be) [getPtrToType be op] false))
    by (intros op; vm_compute; reflexivity).
  pose proof (H opaque) as H1. rewrite Heq, H in H1. congruence.
Qed.

(** X5. A runtime module that is built again is not the one that was freed:
    it is built with a new opaque type. With the built module in [M] and
    [noruntime] clear, a call of [LLVM_D_GetRuntimeFunction] after
    [LLVM_D_FreeRuntime] ends as the call without it does, with the same
    result or the same failure; the two final states agree but for [M], which
    holds the catalogue of the next opaque type, the count of opaque types,
    and the type of the declaration that the call added to the target, which
    is the type that the catalogue in use has for the name. The names, the
    linkage and the attribute lists of the functions of the target, its
    functions from before the call, and its global variables are the same in
    both. If [getPtrToType] tells types apart, the two modules differ. *)
Theorem free_then_fetch be name s o :
  M s = Some (runtime_module be (OpaqueTy o)) → (o < opaques s)%N →
  noruntime s = false →
  match LLVM_D_GetRuntimeFunction be name s,
        (LLVM_D_FreeRuntime ≫= λ _, LLVM_D_GetRuntimeFunction be name) s with
  | Ret fn1 s1, Ret fn2 s2 =>
      fn2 = fn1 ∧ same_but_opaque (length (FunctionList (target s))) s1 s2 ∧
      M s1 = Some (runtime_module be (OpaqueTy o)) ∧
      M s2 = Some (runtime_module be (OpaqueTy (opaques s))) ∧
      (∀ f1, FunctionList (target s1) !! length (FunctionList (target s)) = Some f1 →
         signature_of (runtime_module be (OpaqueTy o)) name = Some (fn_type f1) ∧
         ∃ f2, FunctionList (target s2) !! length (FunctionList (target s)) = Some f2 ∧
               signature_of (runtime_module be (OpaqueTy (opaques s))) name
               = Some (fn_type f2))
  | Abort t1 s1, Abort t2 s2 =>
      t2 = t1 ∧ same_but_opaque (length (FunctionList (target s))) s1 s2 ∧
      M s1 = Some (runtime_module be (OpaqueTy o)) ∧
      M s2 = Some (runtime_module be (OpaqueTy (opaques s)))
  | _, _ => False
  end ∧
  ((∀ t t', getPtrToType be t = getPtrToType be t' → t = t') →
   runtime_module be (OpaqueTy (opaques s)) ≠ runtime_module be (OpaqueTy o)).
Proof.
  intros HM Ho Hnr. split.
  2: { intros Hinj. apply runtime_module_opaque. intros [= Heq]%Hinj. lia. }
  rewrite (bind_Ret _ _ _ _ _ (LLVM_D_FreeRuntime_eq s)).
  set (s' := set_M None s).
  set (n := length (FunctionList (target s))).
  assert (Hw : with_runtime be s = s) by (unfold with_runtime; by rewrite HM).
  assert (Hthe : the_runtime be s = runtime_module be (OpaqueTy o))
    by (unfold the_runtime; by rewrite HM).
  assert (Hthe' : the_runtime be s' = runtime_module be (OpaqueTy (opaques s)))
    by reflexivity.
  assert (HM' : M (with_runtime be s') = Some (runtime_module be (OpaqueTy (opaques s))))
    by reflexivity.
  destruct (frame_with_runtime be s') as (Hn' & Ht' & Hv' & Hi' & Hh' & Hm').
  change (noruntime s') with (noruntime s) in Hn'.
  change (target s') with (target s) in Ht'.
  change (vtinfo s') with (vtinfo s) in Hv'.
  change (internalTI s') with (internalTI s) in Hi'.
  change (heap s') with (heap s) in Hh'.
  change (members s') with (members s) in Hm'.
  assert (Hsame : same_but_opaque n s (with_runtime be s')).
  { unfold same_but_opaque. rewrite Hn', Ht', Hv', Hi', Hh', Hm'.
    repeat split; reflexivity. }
  assert (Hadd : ∀ f1 f2 gl, fn_name f2 = fn_name f1 → fn_attrs f2 = fn_attrs f1 →
            same_but_opaque n
              (set_target (mkLModule (ModuleID (target s))
                             (FunctionList (target s) ++ [declaration_of f1]) gl) s)
              (set_target (mkLModule (ModuleID (target s))
                             (FunctionList (target s) ++ [declaration_of f2]) gl)
                          (with_runtime be s'))).
  { intros f1 f2 gl Hname Hattrs. unfold same_but_opaque.
    cbn [noruntime vtinfo internalTI heap members target set_target
         ModuleID GlobalList FunctionList].
    rewrite Hn', Hv', Hi', Hh', Hm'. repeat split; try reflexivity.
    - unfold n. rewrite !take_app_length. reflexivity.
    - rewrite !fmap_app. f_equal. unfold declaration_of.
      cbn [fmap list_fmap fn_name fn_linkage fn_attrs].
      rewrite Hname, Hattrs. reflexivity. }
  destruct (getFunction (target s) name) as [[fn f]|] eqn:Ht.
  { rewrite (GetRuntimeFunction_present be name s fn f) by done.
    rewrite (GetRuntimeFunction_present be name s' fn f) by done.
    rewrite Hw. split; [reflexivity|]. split; [exact Hsame|].
    split; [exact HM|]. split; [exact HM'|].
    intros f1 Hf1. apply lookup_lt_Some in Hf1. lia. }
  pose proof (find_named _ _ name
                (runtime_module_names be (OpaqueTy o) (OpaqueTy (opaques s)))) as Hfind.
  fold (getFunction (runtime_module be (OpaqueTy o)) name) in Hfind.
  fold (getFunction (runtime_module be (OpaqueTy (opaques s))) name) in Hfind.
  rewrite <- Hthe, <- Hthe' in Hfind.
  destruct (getFunction (the_runtime be s) name) as [[i f1]|] eqn:Hr1,
           (getFunction (the_runtime be s') name) as [[i' f2]|] eqn:Hr2;
    [|destruct Hfind|destruct Hfind|].
  - destruct Hfind as (-> & Hname & Hattrs).
    destruct (insertable (target s) name) eqn:Hins.
    + rewrite (GetRuntimeFunction_inserted be name s i f1) by done.
      rewrite (GetRuntimeFunction_inserted be name s' i f2) by done.
      rewrite Hw. change (target s') with (target s).
      split; [reflexivity|]. split; [by apply Hadd|].
      split; [exact HM|]. split; [exact HM'|].
      cbn [target set_target FunctionList]. intros f Hf.
      rewrite list_lookup_middle in Hf by reflexivity. injection Hf as <-.
      split; [unfold signature_of; rewrite <- Hthe, Hr1; reflexivity|].
      exists (declaration_of f2). split; [by apply list_lookup_middle|].
      unfold signature_of. rewrite <- Hthe', Hr2. reflexivity.
    + rewrite (GetRuntimeFunction_blocked be name s i f1) by done.
      rewrite (GetRuntimeFunction_blocked be name s' i f2) by done.
      rewrite Hw. split; [reflexivity|]. split; [exact Hsame|].
      split; [exact HM|exact HM'].
  - rewrite (GetRuntimeFunction_missing be name s) by done.
    rewrite (GetRuntimeFunction_missing be name s') by done.
    rewrite Hw. split; [reflexivity|]. split; [exact Hsame|].
    split; [exact HM|exact HM'].
Qed.

(** [_aaLen] fetched into an empty target, before and after the runtime
    module is freed: the same function of the target, declared with the
    pointer to the first opaque type in the first case and with the pointer
    to the second in the other. *)
Lemma free_then_fetch_witness :
  let s := with_runtime example_backend (initial_state false empty_target) in
  ∃ s1 s2,
    LLVM_D_GetRuntimeFunction example_backend "_aaLen" s = Ret 0 s1 ∧
    (LLVM_D_FreeRuntime ≫= λ _, LLVM_D_GetRuntimeFunction example_backend "_aaLen") s
    = Ret 0 s2 ∧
    same_but_opaque 0 s1 s2 ∧
    fn_type <$> FunctionList (target s1)
    = [FunctionTy Int32Ty [PointerTy (OpaqueTy 0)] false] ∧
    fn_type <$> FunctionList (target s2)
    = [FunctionTy Int32Ty [PointerTy (OpaqueTy 1)] false].
Proof.
  intros s.
  pose proof (free_then_fetch example_backend "_aaLen" s 0 eq_refl eq_refl eq_refl)
    as [H _].
  assert (H1 : ∃ s1,
            LLVM_D_GetRuntimeFunction example_backend "_aaLen" s = Ret 0 s1 ∧
            fn_type <$> FunctionList (target s1)
            = [FunctionTy Int32Ty [PointerTy (OpaqueTy 0)] false])
    by (eexists; split; vm_compute; reflexivity).
  assert (H2 : ∃ s2,
            (LLVM_D_FreeRuntime
             ≫= λ _, LLVM_D_GetRuntimeFunction example_backend "_aaLen") s = Ret 0 s2 ∧
            fn_type <$> FunctionList (target s2)
            = [FunctionTy Int32Ty [PointerTy (OpaqueTy 1)] false])
    by (eexists; split; vm_compute; reflexivity).
  destruct H1 as (s1 & H1 & T1). destruct H2 as (s2 & H2 & T2).
  rewrite H1, H2 in H. destruct H as (_ & Hsame & _).
  exists s1, s2. split; [exact H1|]. split; [exact H2|].
  split; [exact Hsame|]. split; [exact T1|exact T2].
Defined.

(** ** The catalogue of the runtime module: further properties *)

Lemma attributes_well_placed_spec f idx a :
  attributes_well_placed f = true →
  paramHasAttr (fn_attrs f) idx a = true →
  ∃ n, fixed_arity (fn_type f) = Some n ∧ well_placed n idx a = true.
Proof.
  unfold attributes_well_placed, paramHasAttr, getAttributes_at.
  destruct (fixed_arity (fn_type f)) as [n|]; [|done].
  intros Hall Ha%bool_decide_eq_true. exists n. split; [done|].
  destruct (fn_attrs f !! idx) as [attrs|] eqn:Hidx;
    [|exfalso; cbn in Ha; set_solver].
  cbn [default] in Ha.
  apply Is_true_true in Hall. apply forallb_True in Hall.
  rewrite Forall_forall in Hall.
  assert (Hin : (idx, attrs) ∈ map_to_list (fn_attrs f))
    by by apply elem_of_map_to_list.
  apply Hall in Hin. cbn [fst snd] in Hin. apply forallb_True in Hin.
  rewrite Forall_forall in Hin.
  apply Is_true_true. apply Hin. by apply elem_of_elements.
Qed.

(** X6. For every backend and every opaque type given to the construction,
    the runtime module has 92 functions and no global variable; the names of
    the functions are pairwise distinct, each function has external linkage
    and a type without variable arguments; and the backend and the opaque
    type decide types only: the names and the attribute lists, in their
    order, are the same for all of them. *)
Theorem catalogue_shape be opaque :
  length (FunctionList (runtime_module be opaque)) = 92 ∧
  GlobalList (runtime_module be opaque) = [] ∧
  unique_names (runtime_module be opaque) ∧
  Forall (λ f, fn_linkage f = ExternalLinkage ∧ is_Some (fixed_arity (fn_type f)))
         (FunctionList (runtime_module be opaque)) ∧
  ∀ be' opaque',
    (λ f, (fn_name f, fn_attrs f)) <$> FunctionList (runtime_module be opaque)
    = (λ f, (fn_name f, fn_attrs f)) <$> FunctionList (runtime_module be' opaque').
Proof.
  split; [rewrite runtime_module_functions; vm_compute; reflexivity|].
  split; [apply runtime_module_globals|].
  split; [apply runtime_module_unique_names|]. split.
  - rewrite runtime_module_functions.
    set (l := function_of <$> runtime_declarations be opaque).
    assert (Hb : forallb plain_declaration l = true) by (vm_compute; reflexivity).
    clearbody l. apply Forall_forall. intros f Hf.
    apply Is_true_true, forallb_True in Hb. rewrite Forall_forall in Hb.
    specialize (Hb f Hf). unfold plain_declaration in Hb.
    destruct (fn_linkage f); try done.
    destruct (fixed_arity (fn_type f)); [by split|done].
  - intros be' opaque'. rewrite !runtime_module_functions. vm_compute. reflexivity.
Qed.

(** X7. In the runtime module of every construction every attribute stands
    at an index where it has a meaning: [NoAlias] only on the return value
    (index 0), [NoCapture]
    only on a parameter that the function has, and [NoUnwind], [ReadOnly] and
    [ReadNone] only on the function (index [~0U]); no function carries both
    [ReadOnly] and [ReadNone]. *)
Theorem attribute_placement be opaque :
  Forall (λ f,
    (∀ idx a, paramHasAttr (fn_attrs f) idx a = true →
       ∃ n, fixed_arity (fn_type f) = Some n ∧ well_placed n idx a = true) ∧
    (paramHasAttr (fn_attrs f) FunctionIndex ReadOnly = true →
     paramHasAttr (fn_attrs f) FunctionIndex ReadNone = false))
    (FunctionList (runtime_module be opaque)).
Proof.
  rewrite runtime_module_functions.
  set (l := function_of <$> runtime_declarations be opaque).
  assert (Hb : forallb placement_check l = true) by (vm_compute; reflexivity).
  clearbody l. apply Forall_forall. intros f Hf.
  apply Is_true_true in Hb. apply forallb_True in Hb. rewrite Forall_forall in Hb.
  specialize (Hb f Hf). unfold placement_check in Hb.
  apply andb_True in Hb as [H1 H2]. split.
  - intros idx a. apply attributes_well_placed_spec. by apply Is_true_true.
  - intros Hro. rewrite Hro in H2. cbn [negb orb] in H2.
    by destruct (paramHasAttr (fn_attrs f) FunctionIndex ReadNone).
Qed.

(** X8. The type of [real] follows the processor: for x86 and x86-64 the
    initializers of arrays of [real] and [creal] take the 80-bit type, and
    for every other processor they have the types of the initializers of
    arrays of [double] and [cdouble]. *)
Theorem real_follows_cpu be opaque :
  (cpu be = ARCHx86 ∨ cpu be = ARCHx86_64 →
   signature_of (runtime_module be opaque) "_d_array_init_real"
   = Some (FunctionTy VoidTy [rt_ptr be X86_FP80Ty; DtoSize_t be; X86_FP80Ty] false) ∧
   signature_of (runtime_module be opaque) "_d_array_init_creal"
   = Some (FunctionTy VoidTy [rt_ptr be (StructTy [X86_FP80Ty; X86_FP80Ty]);
                              DtoSize_t be; StructTy [X86_FP80Ty; X86_FP80Ty]] false)) ∧
  (cpu be ≠ ARCHx86 → cpu be ≠ ARCHx86_64 →
   signature_of (runtime_module be opaque) "_d_array_init_real"
   = signature_of (runtime_module be opaque) "_d_array_init_double" ∧
   signature_of (runtime_module be opaque) "_d_array_init_creal"
   = signature_of (runtime_module be opaque) "_d_array_init_cdouble").
Proof.
  destruct be as [c sz mu ob ci ti ptr un].
  split.
  - cbn [cpu]. intros [-> | ->]; split; vm_compute; reflexivity.
  - cbn [cpu]. intros H1 H2. destruct c; try done; split; vm_compute; reflexivity.
Qed.

(** ** The canonicalizer: coherence of its tables *)

Lemma coherent_initial nr tgt : coherent (initial_state nr tgt).
Proof.
  assert (Hno : ∀ d m i, ¬ registered (initial_state nr tgt) d m i).
  { intros d m i (l & Hl & _). simpl in Hl. by rewrite lookup_empty in Hl. }
  split.
  - intros t d. done.
  - intros k d. simpl. by rewrite lookup_empty.
  - intros d m i Hreg. by destruct (Hno _ _ _ Hreg).
  - intros d m1 i1 m2 i2 Hreg. by destruct (Hno _ _ _ Hreg).
Qed.

(** A change of the declarations that keeps what each of them describes. *)
Lemma coherent_later s s' :
  vtinfo s' = vtinfo s → internalTI s' = internalTI s → members s' = members s →
  later_state s s' → coherent s → coherent s'.
Proof.
  intros Hv Hi Hm [_ _ Lh] [V I R U].
  assert (Hvo : ∀ t, vtinfo_of t s' = vtinfo_of t s)
    by (intros t; unfold vtinfo_of; by rewrite Hv).
  assert (Hr : ∀ d m i, registered s' d m i ↔ registered s d m i)
    by (intros d m i; unfold registered; by rewrite Hm).
  split.
  - intros t d. rewrite Hvo. intros Ht.
    destruct (V t d Ht) as (decl & Hd & ? & ? & ?).
    destruct (Lh d decl Hd) as (decl' & Hd' & ? & ? & ? & _).
    exists decl'. repeat split; congruence.
  - intros k d. rewrite Hi. intros Hk.
    destruct (I k d Hk) as (decl & Hd & ? & ? & ?).
    destruct (Lh d decl Hd) as (decl' & Hd' & ? & ? & ? & _).
    exists decl'. repeat split; congruence.
  - intros d m i Hreg%Hr.
    destruct (R d m i Hreg) as (decl & Hd & ? & ?).
    destruct (Lh d decl Hd) as (decl' & Hd' & ? & Ht & ? & _).
    exists decl'. rewrite Hvo, Ht. done.
  - intros d m1 i1 m2 i2 H1%Hr H2%Hr. by eapply U.
Qed.

Lemma coherent_frame s s' :
  vtinfo s' = vtinfo s → internalTI s' = internalTI s → heap s' = heap s →
  members s' = members s → coherent s → coherent s'.
Proof.
  intros Hv Hi Hh Hm. apply coherent_later; try done.
  by apply later_state_frame.
Qed.

Lemma coherent_attach t s :
  vtinfo_of t s = None → coherent s → coherent (attach t s).
Proof.
  intros Hn [V I R U].
  assert (Hold : ∀ d decl, heap s !! d = Some decl → heap (attach t s) !! d = Some decl).
  { intros d decl Hd. simpl. rewrite lookup_app_l; [done|]. by eapply lookup_lt_Some. }
  split.
  - intros t' d. unfold attach at 1. rewrite vtinfo_of_assign.
    destruct (decide (t = t')) as [<-|Hne].
    + intros [= <-]. eexists. split; [simpl; by apply list_lookup_middle|done].
    + intros Ht. destruct (V t' d Ht) as (decl & Hd & ?). exists decl. auto.
  - simpl. intros k d Hk. destruct (I k d Hk) as (decl & Hd & ?). exists decl.
    split; [|done]. rewrite lookup_app_l; [done|]. by eapply lookup_lt_Some.
  - intros d m i Hreg. destruct (R d m i Hreg) as (decl & Hd & Hv & Hb).
    exists decl. split; [auto|]. split; [|done].
    unfold attach. rewrite vtinfo_of_assign.
    destruct (decide (t = tinfo decl)) as [->|]; [congruence|done].
  - intros d m1 i1 m2 i2 H1 H2. by eapply U.
Qed.

Lemma coherent_attach_internal t s :
  coherent s → coherent (attach_internal t s).
Proof.
  intros [V I R U].
  assert (Hold : ∀ d decl, heap s !! d = Some decl →
            heap (attach_internal t s) !! d = Some decl).
  { intros d decl Hd. simpl. rewrite lookup_app_l; [done|]. by eapply lookup_lt_Some. }
  split.
  - intros t' d Ht. destruct (V t' d Ht) as (decl & Hd & ?). exists decl. auto.
  - simpl. intros k d. destruct (decide (ty t = k)) as [<-|Hne].
    + rewrite lookup_insert_eq. intros [= <-].
      eexists. split; [by apply list_lookup_middle|done].
    + rewrite lookup_insert_ne by done. intros Hk.
      destruct (I k d Hk) as (decl & Hd & ?). exists decl.
      split; [|done]. rewrite lookup_app_l; [done|]. by eapply lookup_lt_Some.
  - intros d m i Hreg. destruct (R d m i Hreg) as (decl & Hd & Hv & Hb).
    exists decl. auto.
  - intros d m1 i1 m2 i2 H1 H2. by eapply U.
Qed.

(** What is registered after [m->members->push(d)]. *)
Lemma registered_push s m d d' m' i' :
  registered (set_members (<[m := (default [] (members s !! m) ++ [d])%list]> (members s)) s)
             d' m' i'
  ↔ registered s d' m' i' ∨
    (d' = d ∧ m' = m ∧ i' = length (default [] (members s !! m))).
Proof.
  unfold registered. simpl. destruct (decide (m = m')) as [<-|Hne].
  - rewrite lookup_insert_eq. split.
    + intros (l & [= <-] & Hl). apply lookup_app_Some in Hl as [Hl|[Hge Hl]].
      * left. destruct (members s !! m) as [l0|] eqn:Hm; simpl in *; [eauto|done].
      * right. apply list_lookup_singleton_Some in Hl as [Hi ->].
        split; [done|]. split; [done|]. lia.
    + intros [(l & Hm & Hl)|(-> & _ & ->)].
      * eexists. split; [done|]. rewrite Hm. simpl. by apply lookup_app_l_Some.
      * eexists. split; [done|]. by apply list_lookup_middle.
  - rewrite lookup_insert_ne by done. split; [auto|].
    intros [?|(_ & ? & _)]; [done|congruence].
Qed.

Lemma coherent_push s m d decl :
  heap s !! d = Some decl → vtinfo_of (tinfo decl) s = Some d →
  builtinTypeInfo (tinfo decl) = false →
  (∀ m' i', ¬ registered s d m' i') →
  coherent s →
  coherent (set_members (<[m := (default [] (members s !! m) ++ [d])%list]> (members s)) s).
Proof.
  intros Hd Hv Hb Hfresh [V I R U]. split; [done|done| |].
  - intros d' m' i' [Hreg|(-> & _ & _)]%registered_push; [by eapply R|eauto].
  - intros d' m1 i1 m2 i2 [H1|(-> & -> & ->)]%registered_push
      [H2|(Hd2 & -> & ->)]%registered_push.
    + by eapply U.
    + subst d'. by destruct (Hfresh _ _ H1).
    + by destruct (Hfresh _ _ H2).
    + done.
Qed.

Section coherence.
Context (be : Backend) (fe : Frontend).

(** [toObjFile] changes one declaration of the heap, and the target through
    the registry; the tables and the members of the modules stay. *)
Lemma toObjFile_tables d s :
  let s' := final_state (toObjFile be fe d s) in
  vtinfo s' = vtinfo s ∧ internalTI s' = internalTI s ∧ members s' = members s ∧
  noruntime s' = noruntime s ∧ length (heap s') = length (heap s).
Proof.
  destruct (heap s !! d) as [decl|] eqn:Hd.
  2: { by rewrite toObjFile_dangling. }
  destruct (llvmTouched decl) eqn:Ht.
  { by rewrite (toObjFile_again be fe d decl). }
  rewrite (toObjFile_first be fe d decl) by done.
  set (s0 := set_heap (<[d := latched decl]> (heap s)) s).
  pose proof (GetRuntimeGlobal_frame be (mangle fe (tinfo decl) (internal decl)) s0)
    as (Hv & Hi & Hh & Hm & Hn & _).
  destruct (LLVM_D_GetRuntimeGlobal be _ s0) as [gv s'|t s']; simpl in *.
  - rewrite Hh. by rewrite !length_insert.
  - rewrite Hh. by rewrite length_insert.
Qed.

Lemma toObjFile_coherent d s :
  coherent s → coherent (final_state (toObjFile be fe d s)).
Proof.
  pose proof (toObjFile_tables d s) as (Hv & Hi & Hm & _).
  apply coherent_later; try done. apply toObjFile_later.
Qed.

(** No module has the declaration that [new] is about to allocate. *)
Lemma coherent_fresh s m i : coherent s → ¬ registered s (length (heap s)) m i.
Proof.
  intros Hc Hreg. destruct (co_members s Hc _ _ _ Hreg) as (decl & Hd & _).
  apply lookup_lt_Some in Hd. lia.
Qed.

Lemma emission_coherent sc t s :
  vtinfo_of t s = None → coherent s →
  coherent (final_state (emission be fe sc t (length (heap s)) (attach t s))).
Proof.
  intros Hn Hc. pose proof (coherent_attach t s Hn Hc) as Ha.
  unfold emission. destruct (builtinTypeInfo t) eqn:Hb; simpl; [done|].
  destruct sc as [sc|]; [|by apply toObjFile_coherent].
  apply (coherent_push (attach t s) _ (length (heap s))
           (fresh_declaration (getTypeInfoDeclaration_class t) t false)); try done.
  - simpl. by apply list_lookup_middle.
  - unfold attach. rewrite vtinfo_of_assign. by rewrite decide_True.
  - intros m' i' Hreg. by apply (coherent_fresh s m' i').
Qed.

Lemma getTypeInfo_coherent sc this s :
  coherent s → coherent (final_state (getTypeInfo be fe sc this s)).
Proof.
  intros Hc. destruct (vtinfo_of (merge fe this) s) as [d|] eqn:Hv.
  - destruct (co_vtinfo s Hc _ _ Hv) as (decl & Hd & _).
    by rewrite (getTypeInfo_attached be fe sc this s d decl).
  - rewrite getTypeInfo_unattached by done.
    pose proof (emission_coherent sc (merge fe this) s Hv Hc) as Hl.
    by destruct (emission be fe sc _ _ _).
Qed.

Lemma Linternal_coherent t s :
  coherent s → coherent (final_state (Linternal t s)).
Proof.
  intros Hc. destruct (internalTI s !! ty t) as [tid|] eqn:Hi.
  - destruct (co_internalTI s Hc _ _ Hi) as (decl & Hd & _).
    by rewrite (Linternal_cached t s tid decl).
  - rewrite Linternal_new by done. by apply coherent_attach_internal.
Qed.

Lemma getInternalTypeInfo_coherent sc this s :
  coherent s → coherent (final_state (getInternalTypeInfo be fe sc this s)).
Proof.
  intros Hc. unfold getInternalTypeInfo.
  destruct (toBasetype this) as [| | n | | | |sym| | | | |];
    try (by apply getTypeInfo_coherent); try (by apply Linternal_coherent).
  - destruct (bool_decide _);
      [by apply getTypeInfo_coherent|by apply Linternal_coherent].
  - destruct (isInterfaceDeclaration sym);
      [by apply getTypeInfo_coherent|by apply Linternal_coherent].
Qed.

(** The registry and the life cycle of the runtime module leave the members
    of the modules as they are. *)
Lemma registry_members op s :
  match op with
  | GetTypeInfo _ _ | GetInternalTypeInfo _ _ | ToObjFile _ => True
  | _ => members (run be fe op s) = members s
  end.
Proof.
  destruct op as [name|name| | | | |]; simpl; try done.
  - destruct (GetRuntimeFunction_cases be name s)
      as [[_ ->]|[(_ & fn & f & _ & ->)|[(_ & _ & _ & i & f & _ & ->)
         |[(_ & _ & _ & _ & ->)|(_ & _ & _ & ->)]]]];
      cbn [final_state members set_target]; try reflexivity;
      apply members_with_runtime.
  - pose proof (GetRuntimeGlobal_frame be name s) as (_ & _ & _ & ? & _). done.
  - rewrite LLVM_D_InitRuntime_eq. simpl. apply members_with_runtime.
  - by rewrite LLVM_D_FreeRuntime_eq.
Qed.

Lemma run_coherent op s : coherent s → coherent (run be fe op s).
Proof.
  intros Hc. pose proof (registry_frame be fe op s) as Hf.
  pose proof (registry_members op s) as Hm.
  destruct op; simpl in *;
    try (destruct Hf as (? & ? & ?); by apply (coherent_frame s)).
  - by apply getTypeInfo_coherent.
  - by apply getInternalTypeInfo_coherent.
  - by apply toObjFile_coherent.
Qed.

Lemma run_all_coherent ops s : coherent s → coherent (run_all be fe ops s).
Proof.
  revert s. induction ops as [|op ops IH]; intros s Hc; simpl; [done|].
  by apply IH, run_coherent.
Qed.

Lemma reachable_coherent ops nr tgt :
  coherent (run_all be fe ops (initial_state nr tgt)).
Proof. apply run_all_coherent, coherent_initial. Qed.

End coherence.

(** ** The canonicalizer: further properties *)

(** X9. In every state that the operations reach, the expression that
    [getTypeInfo] returns refers to a declaration made for the merged type
    itself, with [internal] 0 and with the class of declaration that the
    class of the merged type constructs; that class is the type of the
    expression. *)
Theorem exact_descriptor_describes_type be fe ops nr tgt sc t e s1 :
  getTypeInfo be fe sc t (run_all be fe ops (initial_state nr tgt)) = Ret e s1 →
  ∃ decl, heap s1 !! var e = Some decl ∧ tinfo decl = merge fe t ∧
          internal decl = false ∧
          tid_class decl = getTypeInfoDeclaration_class (merge fe t) ∧
          e_type e = getTypeInfoDeclaration_class (merge fe t).
Proof.
  intros H1.
  pose proof (getTypeInfo_coherent be fe sc t _ (reachable_coherent be fe ops nr tgt))
    as Hc.
  rewrite H1 in Hc. simpl in Hc.
  destruct (getTypeInfo_Ret be fe _ _ _ _ _ H1) as (Hv & decl & Hd & He).
  destruct (co_vtinfo s1 Hc _ _ Hv) as (decl' & Hd' & Ht & Hi & Hk).
  exists decl. replace decl' with decl in * by congruence.
  repeat split; congruence.
Qed.

(** The struct [S], asked for in the semantic pass. *)
Lemma exact_descriptor_describes_type_witness :
  ∃ decl,
    heap (attach struct_S (initial_state false empty_target)) !! 0%nat = Some decl ∧
    tinfo decl = struct_S ∧ internal decl = false ∧
    tid_class decl = TypeInfoStructDeclaration.
Proof.
  destruct (exact_descriptor_describes_type example_backend example_frontend []
              false empty_target (Some example_scope) struct_S
              (VarExp 0 TypeInfoStructDeclaration)
              (final_state (getTypeInfo example_backend example_frontend
                              (Some example_scope) struct_S
                              (initial_state false empty_target))))
    as (decl & Hd & Ht & Hi & Hk & _); [reflexivity|].
  exists decl. repeat split; assumption.
Defined.

(** X10. Two calls of [getTypeInfo], the second after any sequence of
    operations, return the same declaration exactly when the merged types of
    their arguments are equal: a descriptor is never shared by two merged
    types, and a merged type never has two descriptors. *)
Theorem distinct_types_distinct_descriptors
    be fe ops ops' nr tgt sc1 sc2 t1 t2 e1 e2 s1 s2 :
  getTypeInfo be fe sc1 t1 (run_all be fe ops (initial_state nr tgt)) = Ret e1 s1 →
  getTypeInfo be fe sc2 t2 (run_all be fe ops' s1) = Ret e2 s2 →
  (var e1 = var e2 ↔ merge fe t1 = merge fe t2) ∧
  (merge fe t1 = merge fe t2 → e1 = e2 ∧ s2 = run_all be fe ops' s1).
Proof.
  intros H1 H2.
  assert (Hmemo : merge fe t1 = merge fe t2 → e1 = e2 ∧ s2 = run_all be fe ops' s1).
  { intros Hm.
    pose proof (getTypeInfo_memo be fe sc1 sc2 t1 t2 _ e1 s1 (run_all be fe ops' s1)
                  Hm H1 (run_all_later be fe ops' s1)) as H3.
    rewrite H3 in H2. by injection H2 as -> ->. }
  split; [|done]. split; [|by intros [-> _]%Hmemo].
  intros Hvar.
  pose proof (getTypeInfo_coherent be fe sc1 t1 _ (reachable_coherent be fe ops nr tgt))
    as Hc1.
  rewrite H1 in Hc1. simpl in Hc1.
  pose proof (getTypeInfo_coherent be fe sc2 t2 _ (run_all_coherent be fe ops' s1 Hc1))
    as Hc2.
  rewrite H2 in Hc2. simpl in Hc2.
  assert (Hl : later_state s1 s2).
  { apply (later_state_trans _ (run_all be fe ops' s1)); [apply run_all_later|].
    pose proof (getTypeInfo_later be fe sc2 t2 (run_all be fe ops' s1)) as Hl.
    by rewrite H2 in Hl. }
  destruct (getTypeInfo_Ret be fe _ _ _ _ _ H1) as (Hv1 & _).
  destruct (getTypeInfo_Ret be fe _ _ _ _ _ H2) as (Hv2 & _).
  apply (later_vtinfo _ _ Hl) in Hv1.
  destruct (co_vtinfo s2 Hc2 _ _ Hv1) as (d1 & Hd1 & Ht1 & _).
  destruct (co_vtinfo s2 Hc2 _ _ Hv2) as (d2 & Hd2 & Ht2 & _).
  rewrite Hvar in Hd1. congruence.
Qed.

(** The struct [S] and the class [C], asked for one after the other. *)
Lemma distinct_types_distinct_descriptors_witness :
  (0%nat = 1%nat ↔ struct_S = class_C) ∧
  (struct_S = class_C →
   VarExp 0 TypeInfoStructDeclaration = VarExp 1 TypeInfoClassDeclaration ∧
   final_state (getTypeInfo example_backend example_frontend (Some example_scope) class_C
                  (final_state (getTypeInfo example_backend example_frontend
                                  (Some example_scope) struct_S
                                  (initial_state false empty_target))))
   = final_state (getTypeInfo example_backend example_frontend
                    (Some example_scope) struct_S
                    (initial_state false empty_target))).
Proof.
  apply (distinct_types_distinct_descriptors example_backend example_frontend [] []
           false empty_target (Some example_scope) (Some example_scope)
           struct_S class_C
           (VarExp 0 TypeInfoStructDeclaration) (VarExp 1 TypeInfoClassDeclaration)
           (final_state (getTypeInfo example_backend example_frontend
                           (Some example_scope) struct_S
                           (initial_state false empty_target)))
           (final_state (getTypeInfo example_backend example_frontend
                           (Some example_scope) class_C
                           (final_state (getTypeInfo example_backend example_frontend
                                           (Some example_scope) struct_S
                                           (initial_state false empty_target))))));
    reflexivity.
Defined.

(** For the collapsed types, [getInternalTypeInfo] is the code after the
    label [Linternal], run on the base type. *)
Lemma collapsed_Linternal be fe sc t :
  collapsed t = true →
  getInternalTypeInfo be fe sc t = Linternal (toBasetype t).
Proof.
  unfold collapsed, getInternalTypeInfo.
  destruct (toBasetype t) as [| |n| | | |sym| | | | |]; try done.
  - intros Hc%bool_decide_eq_true. by rewrite bool_decide_false by (by intros ?).
  - by intros ->%negb_true_iff.
Qed.

(** X11. For a pointer, a function, a delegate, a class that is no
    interface or a dynamic array of classes, behind any typedefs and enums,
    [getInternalTypeInfo] returns in every state that the operations reach,
    in both passes and whatever the policy flag: its result has the type of
    the plain TypeInfo declaration; the call leaves the exact descriptors,
    the members of the modules, the target, the runtime module and the flag
    as they are, makes at most one declaration, and none once the slot of the
    kind is filled. *)
Theorem collapsed_kinds_never_emit be fe ops nr tgt sc t :
  collapsed t = true →
  ∃ e s1,
    getInternalTypeInfo be fe sc t (run_all be fe ops (initial_state nr tgt))
    = Ret e s1 ∧
    e_type e = TypeInfoDeclaration_ ∧
    internalTI s1 !! ty (toBasetype t) = Some (var e) ∧
    vtinfo s1 = vtinfo (run_all be fe ops (initial_state nr tgt)) ∧
    members s1 = members (run_all be fe ops (initial_state nr tgt)) ∧
    target s1 = target (run_all be fe ops (initial_state nr tgt)) ∧
    M s1 = M (run_all be fe ops (initial_state nr tgt)) ∧
    noruntime s1 = noruntime (run_all be fe ops (initial_state nr tgt)) ∧
    (length (heap s1) ≤ S (length (heap (run_all be fe ops (initial_state nr tgt)))))%nat ∧
    (is_Some (internalTI (run_all be fe ops (initial_state nr tgt)) !! ty (toBasetype t)) →
     s1 = run_all be fe ops (initial_state nr tgt)).
Proof.
  intros Hcol. rewrite collapsed_Linternal by done.
  pose proof (reachable_coherent be fe ops nr tgt) as Hc.
  set (s := run_all be fe ops (initial_state nr tgt)) in *.
  destruct (internalTI s !! ty (toBasetype t)) as [tid|] eqn:Hi.
  - destruct (co_internalTI s Hc _ _ Hi) as (decl & Hd & _ & Hk & _).
    exists (VarExp tid (tid_class decl)), s.
    split; [by apply Linternal_cached|]. simpl. repeat split; try done. lia.
  - exists (VarExp (length (heap s)) TypeInfoDeclaration_), (attach_internal (toBasetype t) s).
    split; [by apply Linternal_new|]. simpl. rewrite lookup_insert_eq.
    repeat split; try done.
    rewrite length_app. simpl. lia.
Qed.

(** A function type behind a typedef, in the code generation pass with the
    implicit calls of the runtime forbidden. *)
Lemma collapsed_kinds_never_emit_witness :
  ∃ e s1,
    getInternalTypeInfo example_backend example_frontend None
      (TypeTypedef "handler" function_int) (initial_state true empty_target)
    = Ret e s1 ∧ e_type e = TypeInfoDeclaration_ ∧ target s1 = empty_target.
Proof.
  destruct (collapsed_kinds_never_emit example_backend example_frontend []
              true empty_target None (TypeTypedef "handler" function_int) eq_refl)
    as (e & s1 & H1 & H2 & _ & _ & _ & H3 & _).
  exists e, s1. repeat split; assumption.
Defined.

(** X12. The placeholders: in the states that the operations reach, two
    calls of [getInternalTypeInfo] for collapsed types, the second after any
    sequence of operations, return the same declaration exactly when the base
    types are of the same kind; the declaration is a plain TypeInfo
    declaration with [internal] 1 for a type of that kind, and it is the
    exact descriptor of no type. *)
Theorem placeholders_apart be fe ops ops' nr tgt sc1 sc2 t1 t2 e1 e2 s1 s2 :
  collapsed t1 = true → collapsed t2 = true →
  getInternalTypeInfo be fe sc1 t1 (run_all be fe ops (initial_state nr tgt))
  = Ret e1 s1 →
  getInternalTypeInfo be fe sc2 t2 (run_all be fe ops' s1) = Ret e2 s2 →
  (var e1 = var e2 ↔ ty (toBasetype t1) = ty (toBasetype t2)) ∧
  (∃ decl, heap s2 !! var e1 = Some decl ∧ internal decl = true ∧
           tid_class decl = TypeInfoDeclaration_ ∧
           ty (tinfo decl) = ty (toBasetype t1)) ∧
  (∀ t, vtinfo_of t s2 ≠ Some (var e1)).
Proof.
  intros Hcol1 Hcol2 H1 H2.
  pose proof (getInternalTypeInfo_coherent be fe sc1 t1 _
                (reachable_coherent be fe ops nr tgt)) as Hc1.
  rewrite H1 in Hc1. simpl in Hc1.
  pose proof (getInternalTypeInfo_coherent be fe sc2 t2 _
                (run_all_coherent be fe ops' s1 Hc1)) as Hc2.
  rewrite H2 in Hc2. simpl in Hc2.
  assert (Hl : later_state s1 s2).
  { apply (later_state_trans _ (run_all be fe ops' s1)); [apply run_all_later|].
    pose proof (getInternalTypeInfo_later be fe sc2 t2 (run_all be fe ops' s1)) as Hl.
    by rewrite H2 in Hl. }
  rewrite collapsed_Linternal in H1, H2 by done.
  destruct (Linternal_Ret _ _ _ _ H1) as (Hi1 & _).
  destruct (Linternal_Ret _ _ _ _ H2) as (Hi2 & _).
  apply (later_internalTI _ _ Hl) in Hi1.
  destruct (co_internalTI s2 Hc2 _ _ Hi1) as (d1 & Hd1 & Hin1 & Hk1 & Hty1).
  destruct (co_internalTI s2 Hc2 _ _ Hi2) as (d2 & Hd2 & Hin2 & Hk2 & Hty2).
  split; [|split].
  - split.
    + intros Hvar. rewrite Hvar in Hd1. congruence.
    + intros Hty. rewrite Hty in Hi1. congruence.
  - by exists d1.
  - intros t Hv. destruct (co_vtinfo s2 Hc2 _ _ Hv) as (d & Hd & _ & Hin & _).
    congruence.
Qed.

(** Two function types share the placeholder, a function type and a class
    do not. *)
Lemma placeholders_apart_witness :
  (0%nat = 0%nat ↔ Tfunction = Tfunction) ∧ (0%nat = 1%nat ↔ Tfunction = Tclass).
Proof.
  split.
  - apply (placeholders_apart example_backend example_frontend [] []
             false empty_target None None function_int function_void
             (VarExp 0 TypeInfoDeclaration_) (VarExp 0 TypeInfoDeclaration_)
             (attach_internal function_int (initial_state false empty_target))
             (attach_internal function_int (initial_state false empty_target)));
      reflexivity.
  - apply (placeholders_apart example_backend example_frontend [] []
             false empty_target None None function_int class_C
             (VarExp 0 TypeInfoDeclaration_) (VarExp 1 TypeInfoDeclaration_)
             (attach_internal function_int (initial_state false empty_target))
             (attach_internal class_C
                (attach_internal function_int (initial_state false empty_target))));
      reflexivity.
Defined.

(** X13. A type with a TypeInfo in the runtime library (a basic type, a
    dynamic array of a basic type): in every state that the operations
    reach, in both passes and whatever the policy flag, [getTypeInfo]
    returns, and leaves the members of the modules, the target, the runtime
    module and the placeholders as they are; the descriptor is in the
    members of no module. *)
Theorem builtin_needs_no_emission be fe ops nr tgt sc t :
  builtinTypeInfo (merge fe t) = true →
  ∃ e s1,
    getTypeInfo be fe sc t (run_all be fe ops (initial_state nr tgt)) = Ret e s1 ∧
    members s1 = members (run_all be fe ops (initial_state nr tgt)) ∧
    target s1 = target (run_all be fe ops (initial_state nr tgt)) ∧
    M s1 = M (run_all be fe ops (initial_state nr tgt)) ∧
    internalTI s1 = internalTI (run_all be fe ops (initial_state nr tgt)) ∧
    (∀ m i, ¬ registered s1 (var e) m i).
Proof.
  intros Hb.
  pose proof (reachable_coherent be fe ops nr tgt) as Hc.
  set (s := run_all be fe ops (initial_state nr tgt)) in *.
  assert (Hno : ∀ s1 d, coherent s1 → vtinfo_of (merge fe t) s1 = Some d →
                  ∀ m i, ¬ registered s1 d m i).
  { intros s1 d Hc1 Hv m i Hreg.
    destruct (co_members s1 Hc1 _ _ _ Hreg) as (decl & Hd & Hv' & Hb').
    destruct (co_vtinfo s1 Hc1 _ _ Hv) as (decl' & Hd' & Ht & _).
    congruence. }
  destruct (vtinfo_of (merge fe t) s) as [d|] eqn:Hv.
  - destruct (co_vtinfo s Hc _ _ Hv) as (decl & Hd & _).
    exists (VarExp d (tid_class decl)), s.
    split; [by apply getTypeInfo_attached|]. repeat split; try done.
    by apply Hno.
  - exists (VarExp (length (heap s)) (getTypeInfoDeclaration_class (merge fe t))),
           (attach (merge fe t) s).
    split.
    { rewrite getTypeInfo_unattached by done. unfold emission. by rewrite Hb. }
    repeat split; try done.
    apply Hno; [by apply coherent_attach|].
    unfold attach. rewrite vtinfo_of_assign. by rewrite decide_True.
Qed.

(** The type [char[]], in the code generation pass with the implicit calls
    of the runtime forbidden. *)
Lemma builtin_needs_no_emission_witness :
  ∃ e s1,
    getTypeInfo example_backend example_frontend None (TypeDArray (TypeBasic Bchar))
      (initial_state true empty_target) = Ret e s1 ∧
    target s1 = empty_target.
Proof.
  destruct (builtin_needs_no_emission example_backend example_frontend [] true
              empty_target None (TypeDArray (TypeBasic Bchar)) eq_refl)
    as (e & s1 & H1 & _ & H2 & _).
  exists e, s1. split; assumption.
Defined.

(** X14. In the semantic pass, for a type without TypeInfo in the runtime
    library, [getTypeInfo] returns in every state that the operations reach
    and leaves the target and the runtime module as they are. The first
    request for the merged type puts the new descriptor at the end of the
    members of the module that the module of the scope is imported from, the
    only place where it is registered; a request for a merged type that has
    its descriptor changes nothing, whatever its scope. *)
Theorem semantic_pass_registers_once be fe ops nr tgt sc t :
  builtinTypeInfo (merge fe t) = false →
  ∃ e s1,
    getTypeInfo be fe (Some sc) t (run_all be fe ops (initial_state nr tgt))
    = Ret e s1 ∧
    target s1 = target (run_all be fe ops (initial_state nr tgt)) ∧
    M s1 = M (run_all be fe ops (initial_state nr tgt)) ∧
    (vtinfo_of (merge fe t) (run_all be fe ops (initial_state nr tgt)) = None →
     members s1
     = <[importedFrom (sc_module sc) :=
           (default [] (members (run_all be fe ops (initial_state nr tgt))
                          !! importedFrom (sc_module sc)) ++ [var e])%list]>
         (members (run_all be fe ops (initial_state nr tgt))) ∧
     ∀ m i, registered s1 (var e) m i ↔
            m = importedFrom (sc_module sc) ∧
            i = length (default [] (members (run_all be fe ops (initial_state nr tgt))
                                      !! importedFrom (sc_module sc)))) ∧
    (is_Some (vtinfo_of (merge fe t) (run_all be fe ops (initial_state nr tgt))) →
     s1 = run_all be fe ops (initial_state nr tgt)).
Proof.
  intros Hb.
  pose proof (reachable_coherent be fe ops nr tgt) as Hc.
  set (s := run_all be fe ops (initial_state nr tgt)) in *.
  destruct (vtinfo_of (merge fe t) s) as [d|] eqn:Hv.
  - destruct (co_vtinfo s Hc _ _ Hv) as (decl & Hd & _).
    exists (VarExp d (tid_class decl)), s.
    split; [by apply getTypeInfo_attached|]. by repeat split.
  - eexists (VarExp (length (heap s)) (getTypeInfoDeclaration_class (merge fe t))), _.
    split.
    { rewrite getTypeInfo_unattached by done. unfold emission. rewrite Hb.
      reflexivity. }
    split; [done|]. split; [done|]. split; [|by intros [? ?]].
    intros _. split; [done|].
    intros m i. cbn [var].
    rewrite (registered_push (attach (merge fe t) s)). split.
    + intros [Hreg|(_ & -> & ->)]; [|done].
      by destruct (coherent_fresh s m i Hc).
    + intros [-> ->]. by right.
Qed.

(** The struct [S], asked for in the scope of a module imported from [app]. *)
Lemma semantic_pass_registers_once_witness :
  ∃ e s1,
    getTypeInfo example_backend example_frontend (Some example_scope) struct_S
      (initial_state false empty_target) = Ret e s1 ∧
    target s1 = empty_target ∧
    members s1 = <[importedFrom (sc_module example_scope) := [var e]]> ∅.
Proof.
  destruct (semantic_pass_registers_once example_backend example_frontend [] false
              empty_target example_scope struct_S eq_refl)
    as (e & s1 & H1 & H2 & _ & H3 & _).
  destruct (H3 eq_refl) as [H4 _].
  exists e, s1. repeat split; assumption.
Defined.

(** X15. In the states that the operations reach, the members of the
    modules hold a declaration at most once, over all the modules; what they
    hold is the exact descriptor of a type without TypeInfo in the runtime
    library, never a placeholder. *)
Theorem registered_once be fe ops nr tgt d m1 i1 m2 i2 :
  registered (run_all be fe ops (initial_state nr tgt)) d m1 i1 →
  registered (run_all be fe ops (initial_state nr tgt)) d m2 i2 →
  m1 = m2 ∧ i1 = i2 ∧
  ∃ decl, heap (run_all be fe ops (initial_state nr tgt)) !! d = Some decl ∧
          vtinfo_of (tinfo decl) (run_all be fe ops (initial_state nr tgt)) = Some d ∧
          internal decl = false ∧ builtinTypeInfo (tinfo decl) = false ∧
          (∀ k, internalTI (run_all be fe ops (initial_state nr tgt)) !! k ≠ Some d).
Proof.
  intros H1 H2.
  pose proof (reachable_coherent be fe ops nr tgt) as Hc.
  set (s := run_all be fe ops (initial_state nr tgt)) in *.
  destruct (co_unique s Hc _ _ _ _ _ H1 H2) as [-> ->].
  split; [done|]. split; [done|].
  destruct (co_members s Hc _ _ _ H1) as (decl & Hd & Hv & Hb).
  destruct (co_vtinfo s Hc _ _ Hv) as (decl' & Hd' & _ & Hi & _).
  exists decl. replace decl' with decl in * by congruence.
  repeat split; try done.
  intros k Hk. destruct (co_internalTI s Hc _ _ Hk) as (decl2 & Hd2 & Hi2 & _).
  congruence.
Qed.

(** The descriptor of the struct [S], registered by a request in the
    semantic pass. *)
Lemma registered_once_witness :
  ∃ decl,
    heap (run_all example_backend example_frontend
            [GetTypeInfo (Some example_scope) struct_S;
             GetTypeInfo (Some example_scope) struct_S]
            (initial_state false empty_target)) !! 0%nat = Some decl ∧
    internal decl = false ∧ builtinTypeInfo (tinfo decl) = false.
Proof.
  assert (Hreg : registered
            (run_all example_backend example_frontend
               [GetTypeInfo (Some example_scope) struct_S;
                GetTypeInfo (Some example_scope) struct_S]
               (initial_state false empty_target))
            0 (importedFrom (sc_module example_scope)) 0).
  { exists [0%nat]. split; vm_compute; reflexivity. }
  destruct (registered_once example_backend example_frontend
              [GetTypeInfo (Some example_scope) struct_S;
               GetTypeInfo (Some example_scope) struct_S]
              false empty_target 0 _ 0 _ 0 Hreg Hreg)
    as (_ & _ & decl & Hd & _ & Hi & Hb & _).
  exists decl. repeat split; assumption.
Defined.

(** X16. In the code generation pass (no scope), the first request of
    [getTypeInfo] for a merged type without TypeInfo in the runtime library
    emits the new descriptor at once. If the target has a global variable of
    the mangled name of the descriptor, the call returns: that variable is
    the storage of the descriptor, the latch is set, and the target, the
    runtime module and the members of the modules are as before. If the
    target has none, the compilation ends with a fatal diagnostic, that of
    the policy when the implicit calls of the runtime are forbidden and
    otherwise the one that names the missing global; the descriptor stays
    attached to the type, with its latch set and without storage. *)
Theorem codegen_pass_emits be fe t s :
  builtinTypeInfo (merge fe t) = false →
  vtinfo_of (merge fe t) s = None →
  M s = None ∨ (∃ opaque, M s = Some (runtime_module be opaque)) →
  (∀ gv g,
     getNamedGlobal (target s) (mangle fe (merge fe t) false) = Some (gv, g) →
     ∃ s1,
       getTypeInfo be fe None t s
       = Ret (VarExp (length (heap s)) (getTypeInfoDeclaration_class (merge fe t))) s1 ∧
       heap s1
       = (heap s ++ [resolved (fresh_declaration
                                 (getTypeInfoDeclaration_class (merge fe t))
                                 (merge fe t) false) gv])%list ∧
       vtinfo_of (merge fe t) s1 = Some (length (heap s)) ∧
       target s1 = target s ∧ M s1 = M s ∧ members s1 = members s) ∧
  (getNamedGlobal (target s) (mangle fe (merge fe t) false) = None →
   ∃ s1,
     getTypeInfo be fe None t s
     = Abort (fatal (if noruntime s then noruntime_diagnostic
                     else "Runtime global '" +:+ mangle fe (merge fe t) false
                          +:+ "' was not found")) s1 ∧
     heap s1
     = (heap s ++ [latched (fresh_declaration
                              (getTypeInfoDeclaration_class (merge fe t))
                              (merge fe t) false)])%list ∧
     vtinfo_of (merge fe t) s1 = Some (length (heap s)) ∧
     target s1 = target s ∧ members s1 = members s).
Proof.
  intros Hb Hv HM.
  set (t' := merge fe t) in *.
  set (decl := fresh_declaration (getTypeInfoDeclaration_class t') t' false).
  set (d := length (heap s)).
  set (s0 := set_heap (<[d := latched decl]> (heap (attach t' s))) (attach t' s)).
  assert (Hd : heap (attach t' s) !! d = Some decl)
    by (simpl; by apply list_lookup_middle).
  assert (Hlatched : <[d := latched decl]> (heap (attach t' s))
                     = (heap s ++ [latched decl])%list).
  { simpl. unfold d. rewrite <- (Nat.add_0_r (length (heap s))).
    by rewrite insert_app_r. }
  assert (Hva : vtinfo_of t' (attach t' s) = Some d).
  { unfold attach. rewrite vtinfo_of_assign. by rewrite decide_True. }
  assert (Hstep : getTypeInfo be fe None t s
                  = match LLVM_D_GetRuntimeGlobal be (mangle fe t' false) s0 with
                    | Ret gv s' =>
                        Ret (VarExp d (getTypeInfoDeclaration_class t'))
                            (set_heap (<[d := resolved decl gv]> (heap s')) s')
                    | Abort e s' => Abort e s'
                    end).
  { rewrite getTypeInfo_unattached by done. fold t' d. unfold emission.
    rewrite Hb. cbn [negb]. rewrite (toObjFile_first be fe d decl) by done.
    fold s0. change (mangle fe (tinfo decl) (internal decl)) with (mangle fe t' false).
    by destruct (LLVM_D_GetRuntimeGlobal be (mangle fe t' false) s0). }
  split.
  - intros gv g Hg.
    rewrite Hstep, (GetRuntimeGlobal_present be _ s0 gv g) by done.
    eexists. split; [reflexivity|]. cbn [heap set_heap s0].
    split; [|done].
    rewrite Hlatched. unfold d. rewrite <- (Nat.add_0_r (length (heap s))).
    by rewrite insert_app_r.
  - intros Hg. rewrite Hstep. destruct (noruntime s) eqn:Hnr.
    + rewrite GetRuntimeGlobal_noruntime by done.
      exists s0. split; [done|]. split; [exact Hlatched|done].
    + rewrite GetRuntimeGlobal_missing; try done.
      * exists (with_runtime be s0). split; [reflexivity|].
        destruct (frame_with_runtime be s0) as (_ & -> & _ & _ & -> & ->).
        unfold vtinfo_of. replace (vtinfo (with_runtime be s0)) with (vtinfo s0)
          by (symmetry; apply frame_with_runtime).
        split; [exact Hlatched|]. split; [exact Hva|]. split; reflexivity.
      * destruct (the_runtime_built be s0 HM) as [opaque ->].
        unfold getNamedGlobal. rewrite runtime_module_globals. reflexivity.
Qed.

(** The struct [S] in the code generation pass, before a target that has
    the global variable of its descriptor. *)
Lemma codegen_pass_emits_witness :
  ∃ s1,
    getTypeInfo example_backend example_frontend None struct_S
      (initial_state false target_with_typeinfo)
    = Ret (VarExp 0 TypeInfoStructDeclaration) s1 ∧
    heap s1 = [resolved (fresh_declaration TypeInfoStructDeclaration struct_S false) 0] ∧
    target s1 = target_with_typeinfo.
Proof.
  destruct (codegen_pass_emits example_backend example_frontend struct_S
              (initial_state false target_with_typeinfo)
              eq_refl eq_refl (or_introl eq_refl)) as [Hret _].
  destruct (Hret 0%nat
              (mkGlobalVariable "_D_exact" (StructTy [PointerTy Int8Ty]) false
                                ExternalLinkage false) eq_refl)
    as (s1 & H1 & H2 & _ & H3 & _).
  exists s1. repeat split; assumption.
Defined.

(** ** The target over a whole compilation *)

Section whole_run.
Context (be : Backend) (fe : Frontend).

Lemma target_extended_same s s' :
  target s' = target s → noruntime s' = noruntime s → target_extended be s s'.
Proof.
  intros Ht Hn. split; try (by rewrite Ht).
  - exact Hn.
  - rewrite Ht. apply renamed_locals_refl.
  - exists []. rewrite Ht, app_nil_r. split; [done|]. split; [done|].
    split; [apply NoDup_nil_2|]. by intros f ?%elem_of_nil.
Qed.

Lemma target_extended_trans s1 s2 s3 :
  target_extended be s1 s2 → target_extended be s2 s3 → target_extended be s1 s3.
Proof.
  intros [Hn1 Hi1 Hg1 (l1 & Hf1 & Hc1 & Hd1 & Ha1) Hp1]
         [Hn2 Hi2 Hg2 (l2 & Hf2 & Hc2 & Hd2 & Ha2) Hp2].
  split; [congruence|congruence|by eapply renamed_locals_trans| |].
  - exists (l1 ++ l2)%list. rewrite Hf2, Hf1, <- app_assoc. split; [done|].
    split; [by apply Forall_app|].
    assert (Hsep : ∀ f, f ∈ l2 → (fn_name f ∉ fn_name <$> FunctionList (target s1)) ∧
                                 (fn_name f ∉ fn_name <$> l1)).
    { intros f Hf. specialize (Ha2 f Hf). rewrite Hf1, fmap_app in Ha2.
      split; intros Hin; apply Ha2, elem_of_app; auto. }
    split.
    + rewrite fmap_app. apply NoDup_app. split; [done|]. split; [|done].
      intros n Hn1' (f & -> & Hf)%list_elem_of_fmap.
      by destruct (Hsep f Hf) as [_ []].
    + intros f [Hf|Hf]%elem_of_app; [by apply Ha1|by apply Hsep].
  - intros Hnr. rewrite Hp2 by congruence. by apply Hp1.
Qed.

Lemma runtime_built_catalogue s :
  runtime_built be s →
  M s = None ∨ (∃ opaque, M s = Some (runtime_module be opaque)).
Proof. intros [H|(o & _ & H)]; [by left|right; by eexists]. Qed.

Lemma runtime_built_frame s s' :
  M s' = M s → opaques s' = opaques s → runtime_built be s → runtime_built be s'.
Proof. unfold runtime_built. intros -> ->. auto. Qed.

Lemma runtime_built_with_runtime s :
  runtime_built be s → runtime_built be (with_runtime be s).
Proof.
  intros [H|(o & Ho & H)].
  - right. exists (opaques s). unfold with_runtime. rewrite H.
    cbn [M set_M opaques set_opaques]. split; [lia|reflexivity].
  - unfold with_runtime. rewrite H. right. exists o. split; [exact Ho|exact H].
Qed.

(** With [M] null or built, [LLVM_D_GetRuntimeGlobal] leaves the target. *)
Lemma GetRuntimeGlobal_built name s :
  runtime_built be s →
  target (final_state (LLVM_D_GetRuntimeGlobal be name s)) = target s ∧
  noruntime (final_state (LLVM_D_GetRuntimeGlobal be name s)) = noruntime s ∧
  runtime_built be (final_state (LLVM_D_GetRuntimeGlobal be name s)).
Proof.
  intros HM.
  assert (Hr : getNamedGlobal (the_runtime be s) name = None).
  { destruct (the_runtime_built be s (runtime_built_catalogue s HM)) as [opaque ->].
    unfold getNamedGlobal. rewrite runtime_module_globals. reflexivity. }
  destruct (getNamedGlobal (target s) name) as [[gv g]|] eqn:Ht.
  { rewrite (GetRuntimeGlobal_present be name s gv g Ht). cbn [final_state].
    split; [reflexivity|]. split; [reflexivity|exact HM]. }
  destruct (noruntime s) eqn:Hnr.
  - rewrite (GetRuntimeGlobal_noruntime be name s Ht Hnr). cbn [final_state].
    split; [reflexivity|]. split; [exact Hnr|exact HM].
  - rewrite (GetRuntimeGlobal_missing be name s Ht Hnr Hr). cbn [final_state].
    rewrite target_with_runtime, noruntime_with_runtime.
    split; [reflexivity|]. split; [exact Hnr|]. by apply runtime_built_with_runtime.
Qed.

Lemma toObjFile_built d s :
  runtime_built be s →
  target (final_state (toObjFile be fe d s)) = target s ∧
  noruntime (final_state (toObjFile be fe d s)) = noruntime s ∧
  runtime_built be (final_state (toObjFile be fe d s)).
Proof.
  intros HM. destruct (heap s !! d) as [decl|] eqn:Hd.
  2: { rewrite toObjFile_dangling by exact Hd. cbn [final_state].
       split; [reflexivity|]. split; [reflexivity|exact HM]. }
  destruct (llvmTouched decl) eqn:Ht.
  { rewrite (toObjFile_again be fe d decl) by assumption. cbn [final_state].
    split; [reflexivity|]. split; [reflexivity|exact HM]. }
  rewrite (toObjFile_first be fe d decl) by assumption.
  set (s0 := set_heap (<[d := latched decl]> (heap s)) s).
  assert (HM0 : runtime_built be s0)
    by (apply (runtime_built_frame s); [reflexivity|reflexivity|exact HM]).
  pose proof (GetRuntimeGlobal_built (mangle fe (tinfo decl) (internal decl)) s0 HM0)
    as (H1 & H2 & H3).
  destruct (LLVM_D_GetRuntimeGlobal be _ s0) as [gv s'|t s']; cbn [final_state] in *.
  - split; [exact H1|]. split; [exact H2|].
    apply (runtime_built_frame s'); [reflexivity|reflexivity|exact H3].
  - split; [exact H1|]. split; [exact H2|exact H3].
Qed.

Lemma getTypeInfo_built sc t s :
  runtime_built be s →
  target (final_state (getTypeInfo be fe sc t s)) = target s ∧
  noruntime (final_state (getTypeInfo be fe sc t s)) = noruntime s ∧
  runtime_built be (final_state (getTypeInfo be fe sc t s)).
Proof.
  intros HM. destruct (vtinfo_of (merge fe t) s) as [d|] eqn:Hv.
  - destruct (heap s !! d) as [decl|] eqn:Hd.
    + rewrite (getTypeInfo_attached be fe sc t s d decl) by assumption.
      cbn [final_state]. split; [reflexivity|]. split; [reflexivity|exact HM].
    + unfold getTypeInfo.
      rewrite (bind_Ret _ _ s (Some d) s) by (comp; by rewrite Hv).
      rewrite (bind_Ret _ _ s tt s) by reflexivity.
      unfold vtinfo_expression, load. comp. rewrite Hv. simpl. rewrite Hd.
      cbn [final_state]. split; [reflexivity|]. split; [reflexivity|exact HM].
  - rewrite getTypeInfo_unattached by assumption.
    assert (Ha : runtime_built be (attach (merge fe t) s))
      by (apply (runtime_built_frame s); [reflexivity|reflexivity|exact HM]).
    assert (He : target (final_state (emission be fe sc (merge fe t) (length (heap s))
                                        (attach (merge fe t) s))) = target s ∧
                 noruntime (final_state (emission be fe sc (merge fe t) (length (heap s))
                                           (attach (merge fe t) s))) = noruntime s ∧
                 runtime_built be
                   (final_state (emission be fe sc (merge fe t) (length (heap s))
                                   (attach (merge fe t) s)))).
    { unfold emission. destruct (builtinTypeInfo (merge fe t)); cbn [negb].
      { split; [reflexivity|]. split; [reflexivity|exact Ha]. }
      destruct sc as [sc|].
      { split; [reflexivity|]. split; [reflexivity|].
        apply (runtime_built_frame s); [reflexivity|reflexivity|exact HM]. }
      exact (toObjFile_built _ (attach (merge fe t) s) Ha). }
    destruct (emission be fe sc _ _ _); exact He.
Qed.

Lemma Linternal_built t s :
  runtime_built be s →
  target (final_state (Linternal t s)) = target s ∧
  noruntime (final_state (Linternal t s)) = noruntime s ∧
  runtime_built be (final_state (Linternal t s)).
Proof.
  intros HM. destruct (internalTI s !! ty t) as [tid|] eqn:Hi.
  - destruct (heap s !! tid) as [decl|] eqn:Hd.
    + rewrite (Linternal_cached t s tid decl) by assumption.
      split; [reflexivity|]. split; [reflexivity|exact HM].
    + rewrite (Linternal_dangling t s tid) by assumption.
      split; [reflexivity|]. split; [reflexivity|exact HM].
  - rewrite Linternal_new by assumption.
    split; [reflexivity|]. split; [reflexivity|].
    apply (runtime_built_frame s); [reflexivity|reflexivity|exact HM].
Qed.

Lemma getInternalTypeInfo_built sc t s :
  runtime_built be s →
  target (final_state (getInternalTypeInfo be fe sc t s)) = target s ∧
  noruntime (final_state (getInternalTypeInfo be fe sc t s)) = noruntime s ∧
  runtime_built be (final_state (getInternalTypeInfo be fe sc t s)).
Proof.
  intros HM. unfold getInternalTypeInfo.
  destruct (toBasetype t) as [| | n | | | |sym| | | | |];
    try (exact (getTypeInfo_built _ _ _ HM)); try (exact (Linternal_built _ _ HM)).
  - destruct (bool_decide _);
      [exact (getTypeInfo_built _ _ _ HM)|exact (Linternal_built _ _ HM)].
  - destruct (isInterfaceDeclaration sym);
      [exact (getTypeInfo_built _ _ _ HM)|exact (Linternal_built _ _ HM)].
Qed.

Lemma GetRuntimeFunction_extended name s :
  runtime_built be s →
  target_extended be s (final_state (LLVM_D_GetRuntimeFunction be name s)) ∧
  runtime_built be (final_state (LLVM_D_GetRuntimeFunction be name s)).
Proof.
  intros HM. pose proof (runtime_built_with_runtime s HM) as HM'.
  assert (Hsame : target_extended be s (with_runtime be s))
    by (apply target_extended_same;
        [apply target_with_runtime|apply noruntime_with_runtime]).
  destruct (GetRuntimeFunction_cases be name s)
    as [[Hnr ->]|[(Hnr & fn & f & Ht & ->)|[(Hnr & Ht & Hi & i & f & Hr & ->)
       |[(Hnr & Ht & Hi & Hr & ->)|(Hnr & Ht & Hr & ->)]]]]; cbn [final_state].
  - split; [|exact HM]. apply target_extended_same; reflexivity.
  - split; [exact Hsame|exact HM'].
  - split.
    2: { apply (runtime_built_frame (with_runtime be s));
           [reflexivity|reflexivity|exact HM']. }
    destruct (the_runtime_built be s (runtime_built_catalogue s HM)) as [opaque Hrm].
    rewrite Hrm in Hr. apply getFunction_Some in Hr as [Hr Hname].
    split; cbn [noruntime target set_target ModuleID GlobalList FunctionList].
    + apply noruntime_with_runtime.
    + reflexivity.
    + by apply given_way_renamed.
    + exists [declaration_of f]. split; [reflexivity|]. split.
      { apply Forall_singleton. exists opaque, f.
        split; [by eapply list_elem_of_lookup_2|reflexivity]. }
      split; [apply NoDup_singleton|].
      intros g ->%list_elem_of_singleton. cbn [declaration_of fn_name].
      rewrite Hname. by apply getFunction_None_absent.
    + congruence.
  - split; [exact Hsame|exact HM'].
  - split; [exact Hsame|exact HM'].
Qed.

Lemma run_extended op s :
  runtime_built be s →
  target_extended be s (run be fe op s) ∧ runtime_built be (run be fe op s).
Proof.
  intros HM. destruct op as [name|name| | |sc t|sc t|d]; cbn [run].
  - by apply GetRuntimeFunction_extended.
  - destruct (GetRuntimeGlobal_built name s HM) as (? & ? & ?).
    split; [by apply target_extended_same|assumption].
  - rewrite LLVM_D_InitRuntime_eq. cbn [final_state].
    split; [|by apply runtime_built_with_runtime].
    apply target_extended_same;
      [apply target_with_runtime|apply noruntime_with_runtime].
  - rewrite LLVM_D_FreeRuntime_eq. cbn [final_state].
    split; [apply target_extended_same; reflexivity|by left].
  - destruct (getTypeInfo_built sc t s HM) as (? & ? & ?).
    split; [by apply target_extended_same|assumption].
  - destruct (getInternalTypeInfo_built sc t s HM) as (? & ? & ?).
    split; [by apply target_extended_same|assumption].
  - destruct (toObjFile_built d s HM) as (? & ? & ?).
    split; [by apply target_extended_same|assumption].
Qed.

Lemma run_all_extended ops s :
  runtime_built be s →
  target_extended be s (run_all be fe ops s) ∧ runtime_built be (run_all be fe ops s).
Proof.
  revert s. induction ops as [|op ops IH]; intros s HM; cbn [run_all foldl].
  - split; [apply target_extended_same; reflexivity|exact HM].
  - destruct (run_extended op s HM) as [H1 H2].
    destruct (IH _ H2) as [H3 H4].
    split; [by eapply target_extended_trans|exact H4].
Qed.

End whole_run.

(** X17. Over a whole compilation, that is after any sequence of
    operations from the initial state: the flag of the policy and the name of
    the target are those of the start; the global variables of the target
    are those of the start, each in its place and as it was but for the names
    of variables of local linkage, so that they are untouched if no variable
    has local linkage; [M] is null or holds a module that
    [LLVM_D_BuildRuntimeModule] built, with one of the opaque types made so
    far; the functions of the target are those of the start, in place,
    followed by declarations of functions of such modules, each under a name
    of its own that the target had no function of, with external linkage. A
    target without two functions of one name stays so, and with the implicit
    calls of the runtime forbidden the target is the one of the start. *)
Theorem target_append_only be fe ops nr tgt :
  noruntime (run_all be fe ops (initial_state nr tgt)) = nr ∧
  ModuleID (target (run_all be fe ops (initial_state nr tgt))) = ModuleID tgt ∧
  renamed_locals (GlobalList tgt)
    (GlobalList (target (run_all be fe ops (initial_state nr tgt)))) ∧
  (Forall (λ g, hasLocalLinkage (gv_linkage g) = false) (GlobalList tgt) →
   GlobalList (target (run_all be fe ops (initial_state nr tgt))) = GlobalList tgt) ∧
  runtime_built be (run_all be fe ops (initial_state nr tgt)) ∧
  (∃ l,
     FunctionList (target (run_all be fe ops (initial_state nr tgt)))
     = (FunctionList tgt ++ l)%list ∧
     Forall (λ f, fn_linkage f = ExternalLinkage ∧
                  ∃ opaque r, r ∈ FunctionList (runtime_module be opaque) ∧
                              fn_name f = fn_name r ∧ fn_type f = fn_type r ∧
                              fn_attrs f = fn_attrs r) l ∧
     NoDup (fn_name <$> l) ∧
     (∀ f, f ∈ l → fn_name f ∉ fn_name <$> FunctionList tgt)) ∧
  (unique_names tgt → unique_names (target (run_all be fe ops (initial_state nr tgt)))) ∧
  (nr = true → target (run_all be fe ops (initial_state nr tgt)) = tgt).
Proof.
  destruct (run_all_extended be fe ops (initial_state nr tgt) (or_introl eq_refl))
    as [[Hn Hi Hg (l & Hf & Hc & Hd & Ha) Hp] HM].
  split; [exact Hn|]. split; [exact Hi|]. split; [exact Hg|].
  split; [intros Hall; by apply renamed_locals_none|]. split; [exact HM|].
  split; [|split; [|exact Hp]].
  - exists l. split; [exact Hf|]. split; [|split; [exact Hd|exact Ha]].
    eapply Forall_impl; [exact Hc|]. intros f (opaque & r & Hr & ->).
    split; [reflexivity|]. exists opaque, r. split; [exact Hr|]. by split.
  - unfold unique_names. rewrite Hf, fmap_app. intros Hnd.
    apply NoDup_app. split; [exact Hnd|]. split; [|exact Hd].
    intros n Hn1 (f & -> & Hin)%list_elem_of_fmap. by apply (Ha f Hin).
Qed.
